(** * Form OCR record extraction: model of the server's text engine

    The server module turns OCR text into form records: [formatDate] and
    [generateInitials] are the two small helpers, [parseFormData] cuts the
    cleaned lines into records and [parseFormRecord] fills the field table
    of one record.  The client carries its own copy of the two helpers.

    JavaScript strings are sequences of UTF-16 code units; they are modelled
    as lists of [N].  Regular expression literals of the source are
    transcribed one by one into the syntax [re] below and run by a
    backtracking matcher that follows the priorities of the JavaScript
    engine (leftmost match, greedy quantifiers, alternatives left to right). *)

From Stdlib Require Import Ascii String NArith ZArith Bool Arith Lia SpecFloat List.
Import ListNotations.
Open Scope N_scope.

(** ** Strings *)

Definition jsstring := list N.

(** A string literal of the source, as code units. *)
Definition str (s : string) : jsstring :=
  map N_of_ascii (list_ascii_of_string s).

Fixpoint str_eqb (a b : jsstring) : bool :=
  match a, b with
  | [], [] => true
  | x :: a', y :: b' => (x =? y) && str_eqb a' b'
  | _, _ => false
  end.

(** Truthiness of a string value: [s] is truthy when it is not empty. *)
Definition truthy (s : jsstring) : bool :=
  match s with [] => false | _ :: _ => true end.

(** [a || b] on strings. *)
Definition orElse (a b : jsstring) : jsstring := if truthy a then a else b.

(** White space and line terminators: what [trim] strips and [\s] matches. *)
Definition isSpace (c : N) : bool :=
  ((9 <=? c) && (c <=? 13)) || (c =? 32) || (c =? 160) || (c =? 5760)
  || ((8192 <=? c) && (c <=? 8202)) || (c =? 8232) || (c =? 8233)
  || (c =? 8239) || (c =? 8287) || (c =? 12288) || (c =? 65279).

Definition isDigit (c : N) : bool := (48 <=? c) && (c <=? 57).
Definition isUpper (c : N) : bool := (65 <=? c) && (c <=? 90).
Definition isLower (c : N) : bool := (97 <=? c) && (c <=? 122).
Definition isAlpha (c : N) : bool := isUpper c || isLower c.
(** [\w], the characters that count for [\b]. *)
Definition isWord (c : N) : bool := isAlpha c || isDigit c || (c =? 95).

Definition toLowerChar (c : N) : N := if isUpper c then c + 32 else c.
Definition toUpperChar (c : N) : N := if isLower c then c - 32 else c.

(** [toLowerCase], on the strings the code applies it to (ASCII letters,
    digits and dots: the captures of [[a-z]+] and the stripped name parts). *)
Definition toLowerCase (s : jsstring) : jsstring := map toLowerChar s.

Fixpoint trimStart (s : jsstring) : jsstring :=
  match s with
  | c :: s' => if isSpace c then trimStart s' else s
  | [] => []
  end.

Definition trimEnd (s : jsstring) : jsstring := rev (trimStart (rev s)).

Definition trim (s : jsstring) : jsstring := trimEnd (trimStart s).

(** [s.split(sep)] for a one-character separator. *)
Fixpoint splitOn (sep : N) (s : jsstring) : list jsstring :=
  match s with
  | [] => [[]]
  | c :: s' =>
      match splitOn sep s' with
      | cur :: more => if c =? sep then [] :: cur :: more else (c :: cur) :: more
      | [] => [[c]]
      end
  end.

(** [parts.join(sep)]. *)
Fixpoint join (sep : jsstring) (parts : list jsstring) : jsstring :=
  match parts with
  | [] => []
  | [p] => p
  | p :: more => p ++ sep ++ join sep more
  end.

Fixpoint startsWith (s p : jsstring) : bool :=
  match p, s with
  | [], _ => true
  | x :: p', y :: s' => (x =? y) && startsWith s' p'
  | _ :: _, [] => false
  end.

(** [s.indexOf(p)]: the first position where [p] occurs, [-1] when none. *)
Fixpoint indexOfFrom (i : Z) (s p : jsstring) : Z :=
  if startsWith s p then i
  else match s with
       | [] => (-1)%Z
       | _ :: s' => indexOfFrom (i + 1)%Z s' p
       end.

Definition indexOf (s p : jsstring) : Z := indexOfFrom 0%Z s p.

Definition includes (s p : jsstring) : bool := (0 <=? indexOf s p)%Z.

(** [s.substring(i)]: a negative start counts as 0. *)
Definition substringFrom (s : jsstring) (i : Z) : jsstring :=
  skipn (Z.to_nat i) s.

Definition endsWith (s p : jsstring) : bool := startsWith (rev s) (rev p).

(** ** Regular expressions *)

Inductive re : Type :=
| Eps
| Cls (negated : bool) (member : N -> bool)
| Seq (r1 r2 : re)
| Alt (r1 r2 : re)
| Star (r : re)
| Grp (i : nat) (r : re)
| Bol
| Eol
| Wb.

Declare Scope re_scope.
Delimit Scope re_scope with re.
Bind Scope re_scope with re.
Infix "··" := Seq (at level 40, left associativity) : re_scope.
Infix "|||" := Alt (at level 50, left associativity) : re_scope.

Definition opt (r : re) : re := Alt r Eps.
Definition plus (r : re) : re := Seq r (Star r).

Fixpoint times (n : nat) (r : re) : re :=
  match n with
  | O => Eps
  | S O => r
  | S n' => Seq r (times n' r)
  end.

(** Greedy [r{0,n}]. *)
Fixpoint upTo (n : nat) (r : re) : re :=
  match n with
  | O => Eps
  | S n' => opt (Seq r (upTo n' r))
  end.

(** [r{lo,hi}] and [r{lo,}]. *)
Definition rep (lo hi : nat) (r : re) : re :=
  match lo with
  | O => upTo hi r
  | _ => match (hi - lo)%nat with
         | O => times lo r
         | d => Seq (times lo r) (upTo d r)
         end
  end.
Definition atLeast (lo : nat) (r : re) : re :=
  match lo with
  | O => Star r
  | _ => Seq (times lo r) (Star r)
  end.

Definition chr (a : ascii) : re := Cls false (N.eqb (N_of_ascii a)).
Definition oneOf (s : string) : N -> bool :=
  fun c => existsb (N.eqb c) (str s).
Definition digit : re := Cls false isDigit.
Definition space : re := Cls false isSpace.

(** A literal word, one character after the other. *)
Fixpoint lit_chars (cs : list ascii) : re :=
  match cs with
  | [] => Eps
  | [a] => chr a
  | a :: cs' => Seq (chr a) (lit_chars cs')
  end.
Definition lit (s : string) : re := lit_chars (list_ascii_of_string s).

(** A choice between literal words, in the order written. *)
Fixpoint words (ws : list string) : re :=
  match ws with
  | [] => Eps
  | [w] => lit w
  | w :: ws' => Alt (lit w) (words ws')
  end.

(** *** The matcher *)

Record mstate : Type := MkState {
  prev : option N;            (* the character before the position *)
  rest : jsstring;            (* the input from the position on *)
  caps : list (nat * jsstring) (* the groups captured so far *)
}.

Definition isWordOpt (c : option N) : bool :=
  match c with Some x => isWord x | None => false end.

(** The class test; under the [i] flag an ASCII letter is tried in both
    cases (characters outside ASCII never fold onto ASCII ones). *)
Definition cls_test (ic negated : bool) (member : N -> bool) (c : N) : bool :=
  xorb negated
       (if ic then member (toLowerChar c) || member (toUpperChar c)
        else member c).

Definition consumed (st st' : mstate) : jsstring :=
  firstn (length (rest st) - length (rest st')) (rest st).

Fixpoint m (ic : bool) (r : re) (k : mstate -> option mstate) (st : mstate)
  {struct r} : option mstate :=
  match r with
  | Eps => k st
  | Cls neg member =>
      match rest st with
      | c :: s' =>
          if cls_test ic neg member c
          then k (MkState (Some c) s' (caps st))
          else None
      | [] => None
      end
  | Seq r1 r2 => m ic r1 (m ic r2 k) st
  | Alt r1 r2 =>
      match m ic r1 k st with
      | Some res => Some res
      | None => m ic r2 k st
      end
  | Star r' =>
      (fix loop (fuel : nat) (st0 : mstate) {struct fuel} : option mstate :=
         match fuel with
         | O => k st0
         | S fuel' =>
             match m ic r'
                     (fun st1 =>
                        if (length (rest st1) <? length (rest st0))%nat
                        then loop fuel' st1 else None) st0 with
             | Some res => Some res
             | None => k st0
             end
         end) (length (rest st)) st
  | Grp i r' =>
      m ic r' (fun st1 =>
                 k (MkState (prev st1) (rest st1)
                            ((i, consumed st st1) :: caps st1))) st
  | Bol => match prev st with None => k st | Some _ => None end
  | Eol => match rest st with [] => k st | _ :: _ => None end
  | Wb =>
      if xorb (isWordOpt (prev st)) (isWordOpt (hd_error (rest st)))
      then k st else None
  end.

(** The outcome of [s.match(re)] / [re.exec(s)] for a pattern without the
    [g] flag: where the match starts, the matched text and the groups. *)
Record rmatch : Type := MkMatch {
  index : nat;
  whole : jsstring;
  groups : list (nat * jsstring)
}.

Fixpoint lookupGroup (i : nat) (gs : list (nat * jsstring)) : option jsstring :=
  match gs with
  | [] => None
  | (j, v) :: gs' => if Nat.eqb i j then Some v else lookupGroup i gs'
  end.

(** [match[i]]; every group the code reads lies on the mandatory path of
    its pattern, so the value is a string whenever there is a match. *)
Definition grp (i : nat) (mt : rmatch) : jsstring :=
  match lookupGroup i (groups mt) with Some v => v | None => [] end.

Fixpoint searchFrom (ic : bool) (r : re) (p : option N) (s : jsstring) (i : nat)
  : option rmatch :=
  let st := MkState p s [] in
  match m ic r Some st with
  | Some st' => Some (MkMatch i (consumed st st') (caps st'))
  | None =>
      match s with
      | [] => None
      | c :: s' => searchFrom ic r (Some c) s' (S i)
      end
  end.

(** A pattern with its [i] flag. *)
Record regex : Type := Regex { ignoreCase : bool; body : re }.

Definition exec (rx : regex) (s : jsstring) : option rmatch :=
  searchFrom (ignoreCase rx) (body rx) None s 0.

Definition test (rx : regex) (s : jsstring) : bool :=
  match exec rx s with Some _ => true | None => false end.

(** [s.replace(/\s+/g, ' ')]: every run of white space becomes one blank. *)
Fixpoint collapseWs (inRun : bool) (s : jsstring) : jsstring :=
  match s with
  | [] => []
  | c :: s' =>
      if isSpace c
      then (if inRun then collapseWs true s' else 32 :: collapseWs true s')
      else c :: collapseWs false s'
  end.

(** [s.split(/\s+/)]: the pieces between runs of white space. *)
Fixpoint splitWs (inRun : bool) (s : jsstring) : list jsstring :=
  match s with
  | [] => [[]]
  | c :: s' =>
      if isSpace c
      then (if inRun then splitWs true s' else [] :: splitWs true s')
      else match splitWs false s' with
           | cur :: more => (c :: cur) :: more
           | [] => [[c]]
           end
  end.

(** ** Numbers

    The numbers of the date code come from [parseInt] on captured digit
    groups: non-negative integers, or [NaN] when a string has no leading
    digit. *)

Inductive num : Type :=
| NaN
| Int (n : N).

Fixpoint digitsValue (acc : N) (s : jsstring) : N :=
  match s with
  | c :: s' => if isDigit c then digitsValue (10 * acc + (c - 48)) s' else acc
  | [] => acc
  end.

(** [parseInt(s, 10)]. *)
Definition parseInt (s : jsstring) : num :=
  match trimStart s with
  | c :: _ => if isDigit c then Int (digitsValue 0 (trimStart s)) else NaN
  | [] => NaN
  end.

Fixpoint digitsOf (fuel : nat) (n : N) (acc : jsstring) : jsstring :=
  match fuel with
  | O => acc
  | S fuel' =>
      let acc' := (48 + n mod 10) :: acc in
      if n / 10 =? 0 then acc' else digitsOf fuel' (n / 10) acc'
  end.

Definition natToString (n : N) : jsstring :=
  digitsOf (S (N.to_nat (N.log2 n))) n [].

(** [n.toString()]. *)
Definition numToString (x : num) : jsstring :=
  match x with
  | NaN => str "NaN"
  | Int n => natToString n
  end.

(** [s.padStart(2, '0')]. *)
Definition padStart2 (s : jsstring) : jsstring :=
  repeat 48 (2 - length s) ++ s.

(** [x < n] and [x > n], false on [NaN]. *)
Definition num_ltb (x : num) (n : N) : bool :=
  match x with Int v => v <? n | NaN => false end.
Definition num_gtb (x : num) (n : N) : bool :=
  match x with Int v => n <? v | NaN => false end.
Definition num_leb (x : num) (n : N) : bool :=
  match x with Int v => v <=? n | NaN => false end.

(** ** The date helper *)

(** [if (year < 100) year = year < 50 ? 2000 + year : 1900 + year]. *)
Definition adjustYear (year : num) : num :=
  match year with
  | Int y => if y <? 100 then (if y <? 50 then Int (2000 + y) else Int (1900 + y))
             else Int y
  | NaN => NaN
  end.

(** The template [`${a.padStart(2,'0')}/${b.padStart(2,'0')}/${year}`]. *)
Definition slashDate (a b year : num) : jsstring :=
  padStart2 (numToString a) ++ str "/" ++ padStart2 (numToString b)
  ++ str "/" ++ numToString year.

Definition monthNames : list (list jsstring) :=
  [ [str "january"; str "jan"];
    [str "february"; str "feb"];
    [str "march"; str "mar"];
    [str "april"; str "apr"];
    [str "may"];
    [str "june"; str "jun"];
    [str "july"; str "jul"];
    [str "august"; str "aug"];
    [str "september"; str "sep"; str "sept"];
    [str "october"; str "oct"];
    [str "november"; str "nov"];
    [str "december"; str "dec"] ].

(** The loop that looks the month up: the first row one of whose names is a
    prefix of [monthText]; [None] stands for [monthIndex === -1]. *)
Fixpoint findMonthFrom (i : N) (rows : list (list jsstring)) (monthText : jsstring)
  : option N :=
  match rows with
  | [] => None
  | row :: rows' =>
      if existsb (startsWith monthText) row then Some i
      else findMonthFrom (i + 1) rows' monthText
  end.

Definition findMonth (monthText : jsstring) : option N :=
  findMonthFrom 0 monthNames monthText.

Definition az : re := Cls false isLower.

(** "/(?:([a-z]+)\.?\s+(\d{1,2})(?:[a-z]{0,2})?(?:,?\s+|\s+,\s+)(\d{2,4}))/i" *)
Definition textDateRegex : regex :=
  Regex true
    (Grp 1 (plus az) ·· opt (chr ".") ·· plus space
     ·· Grp 2 (rep 1 2 digit) ·· opt (upTo 2 az)
     ·· ((opt (chr ",") ·· plus space) ||| (plus space ·· chr "," ·· plus space))
     ·· Grp 3 (rep 2 4 digit)).

(** "/(\d{1,2})\s*\/\s*(\d{1,2})\s*\/\s*(\d{2,4})/" *)
Definition usDateRegex : regex :=
  Regex false
    (Grp 1 (rep 1 2 digit) ·· Star space ·· chr "/" ·· Star space
     ·· Grp 2 (rep 1 2 digit) ·· Star space ·· chr "/" ·· Star space
     ·· Grp 3 (rep 2 4 digit)).

(** "/(\d{1,2})[.-](\d{1,2})[.-](\d{2,4})/" *)
Definition euDateRegex : regex :=
  Regex false
    (Grp 1 (rep 1 2 digit) ·· Cls false (oneOf ".-")
     ·· Grp 2 (rep 1 2 digit) ·· Cls false (oneOf ".-")
     ·· Grp 3 (rep 2 4 digit)).

(** "/([a-z]+)\.?\s+(\d{2,4})/i", in the client's copy only. *)
Definition monthYearRegex : regex :=
  Regex true
    (Grp 1 (plus az) ·· opt (chr ".") ·· plus space ·· Grp 2 (rep 2 4 digit)).

(** The first attempt, "Month Day Year": the result when the pattern
    matches and the month is known, nothing otherwise. *)
Definition textDate (input : jsstring) : option jsstring :=
  match exec textDateRegex input with
  | Some textMatch =>
      let monthText := toLowerCase (grp 1 textMatch) in
      let day := parseInt (grp 2 textMatch) in
      let year := adjustYear (parseInt (grp 3 textMatch)) in
      match findMonth monthText with
      | Some monthIndex => Some (slashDate (Int (monthIndex + 1)) day year)
      | None => None
      end
  | None => None
  end.

(** The second attempt, month/day/year. *)
Definition usDate (input : jsstring) : option jsstring :=
  match exec usDateRegex input with
  | Some usMatch =>
      let month := parseInt (grp 1 usMatch) in
      let day := parseInt (grp 2 usMatch) in
      let year := adjustYear (parseInt (grp 3 usMatch)) in
      Some (slashDate month day year)
  | None => None
  end.

(** The third attempt, day.month.year or day-month-year. *)
Definition euDate (input : jsstring) : option jsstring :=
  match exec euDateRegex input with
  | Some euMatch =>
      let day := parseInt (grp 1 euMatch) in
      let month := parseInt (grp 2 euMatch) in
      let year := adjustYear (parseInt (grp 3 euMatch)) in
      if num_gtb day 12 && num_leb month 12
      then Some (slashDate month day year)
      else Some (slashDate day month year)
  | None => None
  end.

(** The client's fourth attempt, "Month Year", with the 15th as the day. *)
Definition monthYearDate (input : jsstring) : option jsstring :=
  match exec monthYearRegex input with
  | Some monthYearMatch =>
      let monthText := toLowerCase (grp 1 monthYearMatch) in
      let year := adjustYear (parseInt (grp 2 monthYearMatch)) in
      match findMonth monthText with
      | Some monthIndex =>
          Some (padStart2 (numToString (Int (monthIndex + 1))) ++ str "/15/"
                ++ numToString year)
      | None => None
      end
  | None => None
  end.

(** [input.trim().replace(/\s+/g, ' ')]. *)
Definition cleanInput (input : jsstring) : jsstring :=
  collapseWs false (trim input).

Definition firstOf (a : option jsstring) (b : jsstring) : jsstring :=
  match a with Some v => v | None => b end.

(** [formatDate] of the server module. *)
Definition formatDate (input : jsstring) : jsstring :=
  if negb (truthy input) || str_eqb (trim input) [] then []
  else
    let input := cleanInput input in
    firstOf (textDate input)
      (firstOf (usDate input)
         (firstOf (euDate input) input)).

Module Client.

(** [formatDate] of the client's utilities: the same three attempts, then
    "Month Year". *)
Definition formatDate (input : jsstring) : jsstring :=
  if negb (truthy input) || str_eqb (trim input) [] then []
  else
    let input := cleanInput input in
    firstOf (textDate input)
      (firstOf (usDate input)
         (firstOf (euDate input)
            (firstOf (monthYearDate input) input))).

End Client.

(** ** Initials *)

Definition suffixes : list jsstring :=
  [str "jr"; str "sr"; str "ii"; str "iii"; str "iv"; str "v"; str "vi"].

Definition isAlnumDot (c : N) : bool := isAlpha c || isDigit c || (c =? 46).

(** The callback of [parts.map]. *)
Definition initialOf (part : jsstring) : jsstring :=
  let normalizedPart := filter isAlnumDot part in
  if (length normalizedPart =? 0)%nat then []
  else if (length normalizedPart =? 1)%nat then normalizedPart ++ str "."
  else if existsb (str_eqb (toLowerCase normalizedPart)) suffixes
       then normalizedPart ++ str "."
  else if includes normalizedPart (str ".")
       then (if endsWith normalizedPart (str ".") then normalizedPart
             else normalizedPart ++ str ".")
  else firstn 1 normalizedPart ++ str ".".

(** [name.trim().split(/\s+/).filter(part => part.length > 0)]. *)
Definition nameParts (name : jsstring) : list jsstring :=
  filter truthy (splitWs false (trim name)).

(** [generateInitials]; the server's and the client's copies are the same
    text. *)
Definition generateInitials (name : jsstring) : jsstring :=
  if negb (truthy name) || str_eqb (trim name) [] then []
  else
    let parts := nameParts name in
    match parts with
    | [p] => if (length p =? 1)%nat then p ++ str "."
             else join [] (filter truthy (map initialOf parts))
    | [] => []
    | _ => join [] (filter truthy (map initialOf parts))
    end.

(** ** Floating-point numbers of the amount code

    [parseFloat], [/], [*], [+] and [toFixed] work on IEEE 754 binary64
    values, taken from the library's specification of floats. *)

Definition jsnumber := spec_float.
Definition prec : Z := 53.
Definition emax : Z := 1024.

Definition ofN (n : N) : jsnumber := binary_normalize prec emax (Z.of_N n) 0 false.

Fixpoint takeDigits (s : jsstring) : jsstring :=
  match s with
  | c :: s' => if isDigit c then c :: takeDigits s' else []
  | [] => []
  end.

(** [parseFloat(s)] on the strings that reach it, digits with an optional
    fraction: a group of the amount pattern, or a field written by
    [toFixed]. *)
Definition parseFloat (s : jsstring) : jsnumber :=
  let s := trimStart s in
  let ip := takeDigits s in
  let fp := match skipn (length ip) s with
            | c :: s' => if c =? 46 then takeDigits s' else []
            | [] => []
            end in
  match ip, fp with
  | [], [] => S754_nan
  | _, [] => ofN (digitsValue 0 ip)
  | _, _ => SFdiv prec emax (ofN (digitsValue 0 (ip ++ fp)))
                            (ofN (10 ^ N.of_nat (length fp)))
  end.

Definition padStart3 (s : jsstring) : jsstring :=
  repeat 48 (3 - length s) ++ s.

(** [x.toFixed(3)]: the integer [k] nearest to [1000 x], the larger one on
    a tie, written with three decimals.  Above [10^21] the engine prints
    the number as [toString] does. *)
Definition toFixed3 (toString : jsnumber -> jsstring) (x : jsnumber) : jsstring :=
  match x with
  | S754_nan => str "NaN"
  | S754_infinity s => if s then str "-Infinity" else str "Infinity"
  | S754_zero _ => str "0.000"
  | S754_finite s mant e =>
      let k : Z :=
        match e with
        | Zneg p => ((Zpos mant * 2000 + 2 ^ Zpos p) / (2 * 2 ^ Zpos p))%Z
        | _ => (Zpos mant * 2 ^ e * 1000)%Z
        end in
      if (10 ^ 24 <=? k)%Z then toString x
      else (if s then str "-" else [])
           ++ natToString (Z.to_N (k / 1000)) ++ str "."
           ++ padStart3 (natToString (Z.to_N (k mod 1000)))
  end.

(** ** The host's built-ins

    What [new Date(...)] makes of a string is left to the engine, and so is
    the shortest decimal form [Number.prototype.toString] prints; the record
    code is modelled over any engine. *)

Record jsdate : Type := MkDate { getMonth : N; getDate : N; getFullYear : Z }.

Record Host : Type := MkHost {
  (** [new Date(year, month - 1, day)], from [year], [month] and [day];
      [None] is an invalid date ([isNaN(date.getTime())]). *)
  newDateOfParts : num -> num -> num -> option jsdate;
  (** [new Date(dateString)]. *)
  newDateOfString : jsstring -> option jsdate;
  (** [x.toString()] on a number. *)
  numberToString : jsnumber -> jsstring
}.

Definition zToString (z : Z) : jsstring :=
  match z with
  | Zneg p => str "-" ++ natToString (Npos p)
  | _ => natToString (Z.to_N z)
  end.

(** ** The field table of a record *)

(** The object [fields]: its keys in insertion order, each with its value. *)
Definition fieldTable := list (string * jsstring).

(** [fields[key]]; a missing key reads as [undefined], which is as falsy as
    the empty string. *)
Fixpoint getField (key : string) (fields : fieldTable) : jsstring :=
  match fields with
  | [] => []
  | (k, v) :: fields' => if String.eqb key k then v else getField key fields'
  end.

(** [fields[key] = v]: the value of an existing key is replaced in place,
    a new key goes to the end. *)
Fixpoint setField (key : string) (v : jsstring) (fields : fieldTable) : fieldTable :=
  match fields with
  | [] => [(key, v)]
  | (k, w) :: fields' =>
      if String.eqb key k then (k, v) :: fields'
      else (k, w) :: setField key v fields'
  end.

(** [fields[key] = fields[key] || v]. *)
Definition fillField (fields : fieldTable) (kv : string * jsstring) : fieldTable :=
  setField (fst kv) (orElse (getField (fst kv) fields) (snd kv)) fields.

(** The keys of the literal that [parseFormRecord] starts from, in its
    order. *)
Definition fieldNames : list string :=
  [ "FORM NO"; "RECORD NO"; "SALES DATE"; "CUSTOMER NAME"; "INITIALS";
    "E-MAIL ADDRESS"; "DEALER NAME"; "CUSTOMER ADDRESS"; "CITY"; "STATE";
    "CUSTOMER PHONE"; "DEALER PHONE"; "DELIVERY TIME"; "INVOICE NO";
    "INSURANCE POLICY NO"; "CHESIS NO"; "BASIC AMOUNT"; "INSURANCE AMOUNT";
    "TOTAL AMOUNT"; "DISCOUNT"; "NET AMOUNT"; "EMPLOYER"; "CREDIT CARD NO";
    "REMARK" ]%string.

(** The literal itself: every key with the empty string. *)
Definition emptyFields : fieldTable := map (fun k => (k, [])) fieldNames.

(** ** The patterns of [parseFormRecord] *)

Definition alpha : re := Cls false isAlpha.
Definition upper : re := Cls false isUpper.
Definition lower : re := Cls false isLower.

(** "/^([A-Za-z]+\s+\d{1,2},?\s*\d{4}|[A-Za-z]+\s*\d{1,2}\s*[\d]{4})/i" *)
Definition salesDateRegex : regex :=
  Regex true
    (Bol ·· Grp 1
       ((plus alpha ·· plus space ·· rep 1 2 digit ·· opt (chr ",")
         ·· Star space ·· times 4 digit)
        ||| (plus alpha ·· Star space ·· rep 1 2 digit ·· Star space
             ·· times 4 digit))).

(** "/([a-zA-Z0-9._%+-]+@[a-zA-Z0-9.-]+\.[a-zA-Z]{2,})/i" *)
Definition emailRegex : regex :=
  Regex true
    (Grp 1
       (plus (Cls false (fun c => isAlpha c || isDigit c || oneOf "._%+-" c))
        ·· chr "@"
        ·· plus (Cls false (fun c => isAlpha c || isDigit c || oneOf ".-" c))
        ·· chr "." ·· atLeast 2 alpha)).

(** "/([A-Z][A-Za-z]*\.?\s+[A-Z][A-Za-z]*(?:\s+[A-Z][A-Za-z]*" followed by
    ")?)/": the third word is optional. *)
Definition nameRegex : regex :=
  Regex false
    (Grp 1
       (upper ·· Star alpha ·· opt (chr ".") ·· plus space ·· upper ·· Star alpha
        ·· opt (plus space ·· upper ·· Star alpha))).

(** "/(\d+[^,]+(?:St|Ave|Dr|Rd|Blvd|Lane|Trail|Ct|Road|Avenue|Drive|Street|Boulevard))/i" *)
Definition addressRegex : regex :=
  Regex true
    (Grp 1
       (plus digit ·· plus (Cls true (oneOf ","))
        ·· words [ "St"; "Ave"; "Dr"; "Rd"; "Blvd"; "Lane"; "Trail"; "Ct"; "Road";
                   "Avenue"; "Drive"; "Street"; "Boulevard" ]%string)).

(** "/([A-Za-z\s.']+)(?:\s+)([A-Z]{2})/" *)
Definition cityStateRegex : regex :=
  Regex false
    (Grp 1 (plus (Cls false (fun c => isAlpha c || isSpace c || oneOf ".'" c)))
     ·· plus space ·· Grp 2 (times 2 upper)).

(** "/^[\s]*([A-Za-z]+\s*[A-Za-z.]+)/" *)
Definition initialsRegex : regex :=
  Regex false
    (Bol ·· Star space
     ·· Grp 1 (plus alpha ·· Star space
               ·· plus (Cls false (fun c => isAlpha c || (c =? 46))))).

(** "/(\d{9,12})/" *)
Definition phoneRegex : regex := Regex false (Grp 1 (rep 9 12 digit)).

(** "/\b(Morning|Evening|Afternoon|Anytime)(?:\s+at\s+(?:Work|Home))?\b/i" *)
Definition deliveryRegex : regex :=
  Regex true
    (Wb ·· Grp 1 (words [ "Morning"; "Evening"; "Afternoon"; "Anytime" ]%string)
     ·· opt (plus space ·· lit "at" ·· plus space ·· words [ "Work"; "Home" ]%string)
     ·· Wb).

(** "/\b([A-Z]{1,3}\d{5,7})\b/" *)
Definition invoiceRegex : regex :=
  Regex false (Wb ·· Grp 1 (rep 1 3 upper ·· rep 5 7 digit) ·· Wb).

(** "/\b([A-Z]{2}\d{6,7})\b/" *)
Definition policyRegex : regex :=
  Regex false (Wb ·· Grp 1 (times 2 upper ·· rep 6 7 digit) ·· Wb).

(** "/\b(F[A-Z]\d{6,7}|V[A-Z]\d{6,7})\b/" *)
Definition chesisRegex : regex :=
  Regex false
    (Wb ·· Grp 1 ((chr "F" ·· upper ·· rep 6 7 digit)
                  ||| (chr "V" ·· upper ·· rep 6 7 digit)) ·· Wb).

(** "/\b(\d{1,4})\b\s+(\d{1,4})\b\s+(\d{1,4})\b/" *)
Definition amountRegex : regex :=
  Regex false
    (Wb ·· Grp 1 (rep 1 4 digit) ·· Wb ·· plus space
     ·· Grp 2 (rep 1 4 digit) ·· Wb ·· plus space
     ·· Grp 3 (rep 1 4 digit) ·· Wb).

(** "/\b(Self\s*Employed|SelfEmployed)\b/i" *)
Definition employerRegex : regex :=
  Regex true
    (Wb ·· Grp 1 ((lit "Self" ·· Star space ·· lit "Employed") ||| lit "SelfEmployed")
     ·· Wb).

(** "/(\d{10})\b/" *)
Definition creditCardRegex : regex := Regex false (Grp 1 (times 10 digit) ·· Wb).

(** "/\b(10\d{2})\b/" *)
Definition recordNoRegex : regex :=
  Regex false (Wb ·· Grp 1 (lit "10" ·· times 2 digit) ·· Wb).

(** "/\b(\d{5}_\d{6})\b/" *)
Definition formNoRegex : regex :=
  Regex false (Wb ·· Grp 1 (times 5 digit ·· chr "_" ·· times 6 digit) ·· Wb).

(** "/\b([A-Z][a-z]+\s+[A-Z][a-z]+|[A-Z]+\s+[A-Z]+)\b/g" *)
Definition possibleNamesRegex : regex :=
  Regex false
    (Wb ·· Grp 1 ((upper ·· plus lower ·· plus space ·· upper ·· plus lower)
                  ||| (plus upper ·· plus space ·· plus upper)) ·· Wb).

(** "/^[A-Za-z]+\s+\d{1,2},\s*\d{4}$/" *)
Definition monthDayYearRegex : regex :=
  Regex false
    (Bol ·· plus alpha ·· plus space ·· rep 1 2 digit ·· chr "," ·· Star space
     ·· times 4 digit ·· Eol).

(** "/(\d{1,2})\s*\/\s*(\d{1,2})\s*\/\s*(\d{4})/" *)
Definition usDate4Regex : regex :=
  Regex false
    (Grp 1 (rep 1 2 digit) ·· Star space ·· chr "/" ·· Star space
     ·· Grp 2 (rep 1 2 digit) ·· Star space ·· chr "/" ·· Star space
     ·· Grp 3 (times 4 digit)).

(** [s.match(re)] for a pattern with the [g] flag: the matched texts from
    left to right, each search starting where the last match ended (one
    further after an empty match); the empty list stands for [null]. *)
Fixpoint matchAllFrom (fuel : nat) (rx : regex) (p : option N) (s : jsstring)
  : list jsstring :=
  match fuel with
  | O => []
  | S fuel' =>
      match searchFrom (ignoreCase rx) (body rx) p s 0 with
      | None => []
      | Some mt =>
          let stop := (index mt + length (whole mt))%nat in
          match whole mt with
          | [] =>
              match skipn stop s with
              | [] => [[]]
              | c :: s' => [] :: matchAllFrom fuel' rx (Some c) s'
              end
          | _ :: _ =>
              whole mt
                :: matchAllFrom fuel' rx (Some (last (firstn stop s) 0))
                     (skipn stop s)
          end
      end
  end.

Definition matchAll (rx : regex) (s : jsstring) : list jsstring :=
  matchAllFrom (S (length s)) rx None s.

(** ** [formatDateToMonthDayYear] *)

Definition fullMonthNames : list jsstring :=
  [ str "January"; str "February"; str "March"; str "April"; str "May";
    str "June"; str "July"; str "August"; str "September"; str "October";
    str "November"; str "December" ].

Definition formatDateToMonthDayYear (host : Host) (dateString : jsstring)
  : jsstring :=
  if negb (truthy dateString) then []
  else if test monthDayYearRegex dateString then dateString
  else
    let date :=
      match exec usDate4Regex dateString with
      | Some usMatch =>
          newDateOfParts host (parseInt (grp 3 usMatch))
                         (parseInt (grp 1 usMatch)) (parseInt (grp 2 usMatch))
      | None => newDateOfString host dateString
      end in
    match date with
    | None => dateString
    | Some d =>
        nth (N.to_nat (getMonth d)) fullMonthNames (str "undefined")
        ++ str " " ++ natToString (getDate d) ++ str ", "
        ++ zToString (getFullYear d)
    end.

(** ** [parseFormRecord], block by block *)

(** [text.split('\n').map(line => line.trim()).filter(...)]: the cleaned
    lines, the same in [parseFormData] and [parseFormRecord]. *)
Definition cleanLines (text : jsstring) : list jsstring :=
  filter truthy (map trim (splitOn 10 text)).

(** The text after the first occurrence of [piece] in [line]. *)
Definition textAfter (line piece : jsstring) : jsstring :=
  substringFrom line (indexOf line piece + Z.of_nat (length piece)).

(** First line: date, e-mail, customer name, address, city and state,
    initials. *)
Definition firstLineFields (firstLine : jsstring) (fields : fieldTable)
  : fieldTable :=
  let dateMatch := exec salesDateRegex firstLine in
  let fields :=
    match dateMatch with
    | Some dm => setField "SALES DATE" (trim (grp 1 dm)) fields
    | None => fields
    end in
  let emailMatch := exec emailRegex firstLine in
  let fields :=
    match emailMatch with
    | Some em => setField "E-MAIL ADDRESS" (trim (grp 1 em)) fields
    | None => fields
    end in
  let fields :=
    match emailMatch with
    | Some em =>
        let afterEmail := textAfter firstLine (grp 1 em) in
        match exec nameRegex afterEmail with
        | Some nameMatch => setField "CUSTOMER NAME" (trim (grp 1 nameMatch)) fields
        | None => fields
        end
    | None => fields
    end in
  let fields :=
    let name := getField "CUSTOMER NAME" fields in
    if truthy name && (-1 <? indexOf firstLine name)%Z then
      let afterName := textAfter firstLine name in
      match exec addressRegex afterName with
      | Some addressMatch =>
          setField "CUSTOMER ADDRESS" (trim (grp 1 addressMatch)) fields
      | None => fields
      end
    else fields in
  let fields :=
    let address := getField "CUSTOMER ADDRESS" fields in
    if truthy address && (-1 <? indexOf firstLine address)%Z then
      let afterAddress := textAfter firstLine address in
      match exec cityStateRegex afterAddress with
      | Some cityStateMatch =>
          setField "STATE" (trim (grp 2 cityStateMatch))
            (setField "CITY" (trim (grp 1 cityStateMatch)) fields)
      | None => fields
      end
    else fields in
  match dateMatch with
  | Some dm =>
      if (-1 <? indexOf firstLine (grp 1 dm))%Z then
        let afterDate := textAfter firstLine (grp 1 dm) in
        match exec initialsRegex afterDate with
        | Some initialsMatch => setField "INITIALS" (trim (grp 1 initialsMatch)) fields
        | None => fields
        end
      else fields
  | None => fields
  end.

(** The table [numberPatterns] of the second line. *)
Definition numberPatterns : list (regex * string) :=
  [ (invoiceRegex, "INVOICE NO");
    (policyRegex, "INSURANCE POLICY NO");
    (chesisRegex, "CHESIS NO") ]%string.

(** Second line: phones, delivery time, invoice, policy and chesis
    numbers. *)
Definition secondLineFields (secondLine : jsstring) (fields : fieldTable)
  : fieldTable :=
  let fields :=
    match exec phoneRegex secondLine with
    | Some phoneMatch =>
        let fields := setField "CUSTOMER PHONE" (trim (grp 1 phoneMatch)) fields in
        let afterPhone := textAfter secondLine (grp 1 phoneMatch) in
        match exec phoneRegex afterPhone with
        | Some dealerPhoneMatch =>
            setField "DEALER PHONE" (trim (grp 1 dealerPhoneMatch)) fields
        | None => fields
        end
    | None => fields
    end in
  let fields :=
    match exec deliveryRegex secondLine with
    | Some deliveryMatch => setField "DELIVERY TIME" (trim (whole deliveryMatch)) fields
    | None => fields
    end in
  fold_left
    (fun fields pf =>
       match exec (fst pf) secondLine with
       | Some mt => setField (snd pf) (trim (grp 1 mt)) fields
       | None => fields
       end)
    numberPatterns fields.

(** Third line: the three amounts and the employer. *)
Definition thirdLineFields (host : Host) (thirdLine : jsstring)
  (fields : fieldTable) : fieldTable :=
  let fields :=
    match exec amountRegex thirdLine with
    | Some amountMatches =>
        let basicAmount :=
          SFdiv prec emax (parseFloat (grp 1 amountMatches)) (ofN 1000000) in
        setField "TOTAL AMOUNT" (trim (grp 3 amountMatches))
          (setField "INSURANCE AMOUNT" (trim (grp 2 amountMatches))
             (setField "BASIC AMOUNT"
                (toFixed3 (numberToString host) basicAmount) fields))
    | None => fields
    end in
  match exec employerRegex thirdLine with
  | Some _ => setField "EMPLOYER" (str "SelfEmployed") fields
  | None => fields
  end.

(** Fourth line: the credit card number. *)
Definition fourthLineFields (fourthLine : jsstring) (fields : fieldTable)
  : fieldTable :=
  match exec creditCardRegex fourthLine with
  | Some creditCardMatch =>
      setField "CREDIT CARD NO" (trim (grp 1 creditCardMatch)) fields
  | None => fields
  end.

(** [for (const line of lines) { ... if (match) { ...; break; } }]. *)
Fixpoint firstMatch (rx : regex) (lines : list jsstring) : option rmatch :=
  match lines with
  | [] => None
  | line :: lines' =>
      match exec rx line with
      | Some mt => Some mt
      | None => firstMatch rx lines'
      end
  end.

Definition scanFor (rx : regex) (key : string) (lines : list jsstring)
  (fields : fieldTable) : fieldTable :=
  match firstMatch rx lines with
  | Some mt => setField key (trim (grp 1 mt)) fields
  | None => fields
  end.

(** The four line blocks and the two scans over all lines. *)
Definition lineFields (host : Host) (lines : list jsstring) : fieldTable :=
  let fields := emptyFields in
  let fields :=
    match lines with
    | firstLine :: _ => firstLineFields firstLine fields
    | _ => fields
    end in
  let fields :=
    match lines with
    | _ :: secondLine :: _ => secondLineFields secondLine fields
    | _ => fields
    end in
  let fields :=
    match lines with
    | _ :: _ :: thirdLine :: _ => thirdLineFields host thirdLine fields
    | _ => fields
    end in
  let fields :=
    match lines with
    | _ :: _ :: _ :: fourthLine :: _ => fourthLineFields fourthLine fields
    | _ => fields
    end in
  let fields := scanFor recordNoRegex "RECORD NO" lines fields in
  scanFor formNoRegex "FORM NO" lines fields.

(** The computed fields: total from basic and insurance, initials from the
    customer name, the date in its display form. *)
Definition derivedFields (host : Host) (fields : fieldTable) : fieldTable :=
  let fields :=
    if truthy (getField "BASIC AMOUNT" fields)
       && truthy (getField "INSURANCE AMOUNT" fields)
       && negb (truthy (getField "TOTAL AMOUNT" fields))
    then
      let basicAmount :=
        SFmul prec emax (parseFloat (getField "BASIC AMOUNT" fields)) (ofN 1000000) in
      let insuranceAmount := parseFloat (getField "INSURANCE AMOUNT" fields) in
      setField "TOTAL AMOUNT"
        (numberToString host (SFadd prec emax basicAmount insuranceAmount)) fields
    else fields in
  let fields :=
    if truthy (getField "CUSTOMER NAME" fields)
       && negb (truthy (getField "INITIALS" fields))
    then setField "INITIALS" (generateInitials (getField "CUSTOMER NAME" fields)) fields
    else fields in
  if truthy (getField "SALES DATE" fields)
  then setField "SALES DATE"
         (formatDateToMonthDayYear host (getField "SALES DATE" fields)) fields
  else fields.

(** The known values of four record numbers: each row is one assignment
    [fields[key] = fields[key] || literal], in the order written. *)
Definition known1047 : list (string * jsstring) :=
  [ ("FORM NO", str "12428_000065");
    ("SALES DATE", str "January 8, 2021");
    ("CUSTOMER NAME", str "Caldwell Jesse");
    ("INITIALS", str "C.J.");
    ("E-MAIL ADDRESS", str "minett-perry@earthlimk.net");
    ("DEALER NAME", str "Michelle Jackeson");
    ("CUSTOMER ADDRESS", str "1128 27 Ave NW");
    ("CITY", str "Horsefly");
    ("STATE", str "BC");
    ("CUSTOMER PHONE", str "7804668694");
    ("DEALER PHONE", str "6642780842");
    ("DELIVERY TIME", str "Evening");
    ("INVOICE NO", str "RE826178");
    ("INSURANCE POLICY NO", str "CA865350");
    ("CHESIS NO", str "FF428916");
    ("BASIC AMOUNT", str "0.067");
    ("INSURANCE AMOUNT", str "6700");
    ("TOTAL AMOUNT", str "73700");
    ("DISCOUNT", str "9.2");
    ("NET AMOUNT", str "67656.6");
    ("EMPLOYER", str "SelfEmployed");
    ("CREDIT CARD NO", str "5342704018") ]%string.

Definition known1048 : list (string * jsstring) :=
  [ ("FORM NO", str "12428_000065");
    ("SALES DATE", str "February 7, 2021");
    ("CUSTOMER NAME", str "Cooper BJ");
    ("INITIALS", str "C.B.J.");
    ("E-MAIL ADDRESS", str "milewicz@alltel.net");
    ("DEALER NAME", str "Carl Unbehaun");
    ("CUSTOMER ADDRESS", str "1152 Fort Garry Rd");
    ("CITY", str "Rosetown");
    ("STATE", str "SK");
    ("CUSTOMER PHONE", str "7057563700");
    ("DEALER PHONE", str "8672726162");
    ("DELIVERY TIME", str "Anytime");
    ("INVOICE NO", str "Q740984");
    ("INSURANCE POLICY NO", str "KY769266");
    ("CHESIS NO", str "FF224266");
    ("BASIC AMOUNT", str "0.022");
    ("INSURANCE AMOUNT", str "880");
    ("TOTAL AMOUNT", str "22880");
    ("DISCOUNT", str "7.2");
    ("NET AMOUNT", str "21232.64");
    ("EMPLOYER", str "SelfEmployed");
    ("CREDIT CARD NO", str "8662706388") ]%string.

Definition known1049 : list (string * jsstring) :=
  [ ("FORM NO", str "12428_000065");
    ("SALES DATE", str "May 5, 2021");
    ("CUSTOMER NAME", str "Reid Ronald E");
    ("INITIALS", str "R.R.E.");
    ("E-MAIL ADDRESS", str "chattykathy42@hotmail.com");
    ("DEALER NAME", str "Donna Brito");
    ("CUSTOMER ADDRESS", str "1178 Huron St");
    ("CITY", str "Montreal");
    ("STATE", str "QC");
    ("CUSTOMER PHONE", str "7057486160");
    ("DEALER PHONE", str "4982411271");
    ("DELIVERY TIME", str "Anytime");
    ("INVOICE NO", str "CI441535");
    ("INSURANCE POLICY NO", str "FL762116");
    ("CHESIS NO", str "DF707364");
    ("BASIC AMOUNT", str "0.078");
    ("INSURANCE AMOUNT", str "3120");
    ("TOTAL AMOUNT", str "81120");
    ("DISCOUNT", str "9.7");
    ("NET AMOUNT", str "73251.36");
    ("EMPLOYER", str "SelfEmployed");
    ("CREDIT CARD NO", str "5056779734") ]%string.

Definition known1056 : list (string * jsstring) :=
  [ ("FORM NO", str "12428_000065");
    ("SALES DATE", str "May 5, 2021");
    ("CUSTOMER NAME", str "Karlene Peeren");
    ("INITIALS", str "K.P.");
    ("E-MAIL ADDRESS", str "oRlenlSM@AOLCOM");
    ("DEALER NAME", str "Cooper K.");
    ("CUSTOMER ADDRESS", str "40 Paeilge View");
    ("CITY", str "North York");
    ("STATE", str "ON");
    ("CUSTOMER PHONE", str "6494148427");
    ("DEALER PHONE", []);
    ("DELIVERY TIME", str "Evening");
    ("INVOICE NO", str "CI694566");
    ("INSURANCE POLICY NO", str "FL6S9165");
    ("CHESIS NO", str "DIE6OT5");
    ("BASIC AMOUNT", str "0.022");
    ("INSURANCE AMOUNT", []);
    ("TOTAL AMOUNT", []);
    ("DISCOUNT", []);
    ("NET AMOUNT", []);
    ("EMPLOYER", str "SelfEmployed");
    ("CREDIT CARD NO", str "6627829921") ]%string.

Definition applyKnown (table : list (string * jsstring)) (fields : fieldTable)
  : fieldTable :=
  fold_left fillField table fields.

(** The ladder [if (fields['RECORD NO'] === '1047') ... else if ...]. *)
Definition knownValues (fields : fieldTable) : fieldTable :=
  let recordNo := getField "RECORD NO" fields in
  if str_eqb recordNo (str "1047") then applyKnown known1047 fields
  else if str_eqb recordNo (str "1048") then applyKnown known1048 fields
  else if str_eqb recordNo (str "1049") then applyKnown known1049 fields
  else if str_eqb recordNo (str "1056") then applyKnown known1056 fields
  else fields.

(** The loop that looks for a dealer name on any line. *)
Fixpoint dealerScan (lines : list jsstring) (fields : fieldTable) : fieldTable :=
  match lines with
  | [] => fields
  | line :: lines' =>
      match matchAll possibleNamesRegex line with
      | [] => dealerScan lines' fields
      | possibleNames =>
          let fields :=
            match find (fun name =>
                          negb (str_eqb name (getField "CUSTOMER NAME" fields))
                          && negb (includes line (str "Self")))
                       possibleNames with
            | Some name => setField "DEALER NAME" (trim name) fields
            | None => fields
            end in
          if truthy (getField "DEALER NAME" fields) then fields
          else dealerScan lines' fields
      end
  end.

Definition dealerName (lines : list jsstring) (fields : fieldTable) : fieldTable :=
  if negb (truthy (getField "DEALER NAME" fields))
     && truthy (getField "CUSTOMER NAME" fields)
  then dealerScan lines fields
  else fields.

(** [if (!fields['FORM NO']) fields['FORM NO'] = '12428_000065']. *)
Definition defaultFormNo (fields : fieldTable) : fieldTable :=
  if negb (truthy (getField "FORM NO" fields))
  then setField "FORM NO" (str "12428_000065") fields
  else fields.

(** The placeholder of a key, for the seven keys that have one. *)
Definition placeholderOf (key : string) : option jsstring :=
  if String.eqb key "BASIC AMOUNT" then Some (str "0.022")
  else if String.eqb key "INSURANCE AMOUNT" then Some (str "880")
  else if String.eqb key "TOTAL AMOUNT" then Some (str "22880")
  else if String.eqb key "DISCOUNT" then Some (str "5.0")
  else if String.eqb key "NET AMOUNT" then Some (str "21736.00")
  else if String.eqb key "EMPLOYER" then Some (str "SelfEmployed")
  else if String.eqb key "DELIVERY TIME" then Some (str "Anytime")
  else None.

Definition placeholderStep (fields : fieldTable) (key : string) : fieldTable :=
  if truthy (getField key fields) then fields
  else match placeholderOf key with
       | Some v => setField key v fields
       | None => fields
       end.

(** [Object.keys(fields).forEach(key => { if (!fields[key]) ... })]. *)
Definition placeholders (fields : fieldTable) : fieldTable :=
  fold_left placeholderStep (map fst fields) fields.

(** The state of the table when the known-value ladder is reached. *)
Definition extractedFields (host : Host) (text : jsstring) : fieldTable :=
  derivedFields host (lineFields host (cleanLines text)).

Definition parseFormRecord (host : Host) (text : jsstring) : fieldTable :=
  placeholders
    (defaultFormNo
       (dealerName (cleanLines text)
          (knownValues (extractedFields host text)))).

(** ** The patterns of [parseFormData] *)

Definition formChars : re :=
  Cls false (fun c => isUpper c || isDigit c || oneOf "_-./" c).

Definition emailRest : re :=
  plus (Cls false (fun c => isAlpha c || isDigit c || oneOf "._%+-" c))
  ·· chr "@"
  ·· plus (Cls false (fun c => isAlpha c || isDigit c || oneOf ".-" c))
  ·· chr "." ·· atLeast 2 alpha.

(** The array [recordStartPatterns], in its order:
    "/^(January|February|March|April|May|June|July|August|September|October|November|December)\s*\d{1,2},\s*\d{4}/i",
    "/^(Jan|Feb|Mar|Apr|May|Jun|Jul|Aug|Sep|Sept|Oct|Nov|Dec)\s*\d{1,2},\s*\d{4}/i",
    "/^\d{1,2}\s*\/\s*\d{1,2}\s*\/\s*\d{4}/",
    "/^(FORM|Form)\s*(NO|No|Number|#):\s*[A-Z0-9_\-./]+/i",
    "/^[A-Z]{2}[0-9]{5,}/",
    "/^[A-Z0-9]{5,}_[0-9]{6}/",
    "/^(RECORD|Record)\s*(NO|No|Number|#):\s*[A-Z0-9_\-./]+/i",
    "/^(CUSTOMER|Client|Customer)\s*(NAME|Name):\s*[A-Za-z\s,.'-]+/i",
    "/^(EMAIL|E-mail|E-MAIL):\s*[a-zA-Z0-9._%+-]+@[a-zA-Z0-9.-]+\.[a-zA-Z]{2,}/i",
    "/^(\d+)[.\s]/". *)
Definition recordStartPatterns : list regex :=
  [ Regex true
      (Bol ·· Grp 1 (words [ "January"; "February"; "March"; "April"; "May"; "June";
                             "July"; "August"; "September"; "October"; "November";
                             "December" ]%string)
       ·· Star space ·· rep 1 2 digit ·· chr "," ·· Star space ·· times 4 digit);
    Regex true
      (Bol ·· Grp 1 (words [ "Jan"; "Feb"; "Mar"; "Apr"; "May"; "Jun"; "Jul"; "Aug";
                             "Sep"; "Sept"; "Oct"; "Nov"; "Dec" ]%string)
       ·· Star space ·· rep 1 2 digit ·· chr "," ·· Star space ·· times 4 digit);
    Regex false
      (Bol ·· rep 1 2 digit ·· Star space ·· chr "/" ·· Star space ·· rep 1 2 digit
       ·· Star space ·· chr "/" ·· Star space ·· times 4 digit);
    Regex true
      (Bol ·· Grp 1 (words [ "FORM"; "Form" ]%string) ·· Star space
       ·· Grp 2 (words [ "NO"; "No"; "Number"; "#" ]%string) ·· chr ":" ·· Star space
       ·· plus formChars);
    Regex false (Bol ·· times 2 upper ·· atLeast 5 digit);
    Regex false
      (Bol ·· atLeast 5 (Cls false (fun c => isUpper c || isDigit c)) ·· chr "_"
       ·· times 6 digit);
    Regex true
      (Bol ·· Grp 1 (words [ "RECORD"; "Record" ]%string) ·· Star space
       ·· Grp 2 (words [ "NO"; "No"; "Number"; "#" ]%string) ·· chr ":" ·· Star space
       ·· plus formChars);
    Regex true
      (Bol ·· Grp 1 (words [ "CUSTOMER"; "Client"; "Customer" ]%string) ·· Star space
       ·· Grp 2 (words [ "NAME"; "Name" ]%string) ·· chr ":" ·· Star space
       ·· plus (Cls false (fun c => isAlpha c || isSpace c || oneOf ",.'-" c)));
    Regex true
      (Bol ·· Grp 1 (words [ "EMAIL"; "E-mail"; "E-MAIL" ]%string) ·· chr ":"
       ·· Star space ·· emailRest);
    Regex false
      (Bol ·· Grp 1 (plus digit) ·· Cls false (fun c => (c =? 46) || isSpace c)) ].

Definition dashDotSpace : re :=
  Cls false (fun c => oneOf "-." c || isSpace c).

(** The array [secondaryPatterns]:
    "/^[A-Z][a-z]+\s+[A-Z][a-z]+\b/",
    "/^(\d{3}[-.\s]\d{3}[-.\s]\d{4}|\(\d{3}\)\s*\d{3}[-.\s]\d{4})/",
    "/^(BASIC|Basic|BASE|Insurance)\s+(AMOUNT|Amount):/i". *)
Definition secondaryPatterns : list regex :=
  [ Regex false
      (Bol ·· upper ·· plus lower ·· plus space ·· upper ·· plus lower ·· Wb);
    Regex false
      (Bol ·· Grp 1
         ((times 3 digit ·· dashDotSpace ·· times 3 digit ·· dashDotSpace
           ·· times 4 digit)
          ||| (chr "(" ·· times 3 digit ·· chr ")" ·· Star space ·· times 3 digit
               ·· dashDotSpace ·· times 4 digit)));
    Regex true
      (Bol ·· Grp 1 (words [ "BASIC"; "Basic"; "BASE"; "Insurance" ]%string)
       ·· plus space ·· Grp 2 (words [ "AMOUNT"; "Amount" ]%string) ·· chr ":") ].

(** "/^[-=_*]{3,}$/" *)
Definition separatorRegex : regex :=
  Regex false (Bol ·· atLeast 3 (Cls false (oneOf "-=_*")) ·· Eol).

Definition dotOrParen : re := Cls false (oneOf ".)").

(** "/^\d+[.)]\s/" *)
Definition numberedRegex : regex :=
  Regex false (Bol ·· plus digit ·· dotOrParen ·· space).

(** "/^[A-Z]\d+[.)]\s/" *)
Definition letterNumberedRegex : regex :=
  Regex false (Bol ·· upper ·· plus digit ·· dotOrParen ·· space).

(** "/^[1-9][.)]\s/" *)
Definition earlyNumberRegex : regex :=
  Regex false
    (Bol ·· Cls false (fun c => (49 <=? c) && (c <=? 57)) ·· dotOrParen ·· space).

(** "/\d{1,2}\/\d{1,2}\/\d{4}/" *)
Definition slashDateRegex : regex :=
  Regex false
    (rep 1 2 digit ·· chr "/" ·· rep 1 2 digit ·· chr "/" ·· times 4 digit).

(** ** Finding where records start *)

(** [lines.forEach((line, index) => ...)] over a running state. *)
Fixpoint forEachLine {A : Type} (f : A -> jsstring -> nat -> A)
  (lines : list jsstring) (index : nat) (acc : A) : A :=
  match lines with
  | [] => acc
  | line :: lines' => forEachLine f lines' (S index) (f acc line index)
  end.

(** [recordStartIndices.includes(index)]. *)
Definition hasIndex (recordStartIndices : list nat) (index : nat) : bool :=
  existsb (Nat.eqb index) recordStartIndices.

Definition lineAt (lines : list jsstring) (i : nat) : jsstring := nth i lines [].

(** First pass: the primary patterns. *)
Definition primaryStep (recordStartIndices : list nat) (line : jsstring)
  (index : nat) : list nat :=
  if existsb (fun pattern => test pattern line) recordStartPatterns
  then recordStartIndices ++ [index]
  else recordStartIndices.

(** Second pass: the secondary patterns after a blank or separator line. *)
Definition secondaryStep (lines : list jsstring) (recordStartIndices : list nat)
  (line : jsstring) (index : nat) : list nat :=
  if hasIndex recordStartIndices index then recordStartIndices
  else if (length line <? 10)%nat then recordStartIndices
  else
    let isSecondaryMatch :=
      existsb (fun pattern => test pattern line) secondaryPatterns in
    let prevLineEmpty :=
      (0 <? index)%nat
      && (str_eqb (trim (lineAt lines (index - 1))) []
          || test separatorRegex (lineAt lines (index - 1))) in
    if isSecondaryMatch && (prevLineEmpty || (index =? 0)%nat)
    then recordStartIndices ++ [index]
    else recordStartIndices.

(** Third pass: numbered lines and changes of content. *)
Definition aggressiveStep (lines : list jsstring) (recordStartIndices : list nat)
  (line : jsstring) (index : nat) : list nat :=
  if hasIndex recordStartIndices index then recordStartIndices
  else
    let recordStartIndices :=
      if test numberedRegex line || test letterNumberedRegex line then
        if (3 <? index)%nat && hasIndex recordStartIndices (index - 3)
        then recordStartIndices ++ [index]
        else if test earlyNumberRegex line then recordStartIndices ++ [index]
        else recordStartIndices
      else recordStartIndices in
    if (0 <? index)%nat then
      let prevLine := lineAt lines (index - 1) in
      let recordStartIndices :=
        if includes line (str "@") && negb (includes prevLine (str "@"))
           && negb (hasIndex recordStartIndices (index - 1))
        then recordStartIndices ++ [index]
        else recordStartIndices in
      if test slashDateRegex line && negb (test slashDateRegex prevLine)
         && negb (hasIndex recordStartIndices (index - 1))
      then recordStartIndices ++ [index]
      else recordStartIndices
    else recordStartIndices.

(** [array.sort((a, b) => a - b)]. *)
Fixpoint insertIndex (x : nat) (sorted : list nat) : list nat :=
  match sorted with
  | [] => [x]
  | y :: sorted' => if (x <? y)%nat then x :: sorted else y :: insertIndex x sorted'
  end.

Definition sortIndices (l : list nat) : list nat :=
  fold_left (fun sorted x => insertIndex x sorted) l [].

(** A candidate of the periodicity search. *)
Record candidate : Type := MkCandidate {
  startLine : nat;
  distance : nat;
  occurrences : nat
}.

(** [line.substring(0, Math.min(5, line.length))]. *)
Definition lineStart (line : jsstring) : jsstring := firstn 5 line.

(** The [while] loop over the lines [lineIndex], [lineIndex + distance], ...:
    whether the pattern held, and how often it was seen.  [fuel] bounds the
    number of rounds; the line count is enough, every distance being
    positive. *)
Fixpoint strideScan (fuel : nat) (lines : list jsstring) (dist lineIndex occ : nat)
  : bool * nat :=
  match fuel with
  | O => (true, occ)
  | S fuel' =>
      if (lineIndex <? length lines)%nat then
        let nextLineIndex := (lineIndex + dist)%nat in
        if (nextLineIndex <? length lines)%nat then
          if str_eqb (lineStart (lineAt lines lineIndex))
                     (lineStart (lineAt lines nextLineIndex))
          then strideScan fuel' lines dist nextLineIndex (S occ)
          else (false, occ)
        else strideScan fuel' lines dist nextLineIndex occ
      else (true, occ)
  end.

(** The [for] loop that collects [patternCandidates] for one distance. *)
Definition candidatesFor (lines : list jsstring) (dist : nat) : list candidate :=
  flat_map
    (fun i =>
       let '(potentialPattern, patternOccurrences) :=
         strideScan (length lines) lines dist i 0 in
       if potentialPattern && (3 <=? patternOccurrences)%nat
       then [MkCandidate i dist patternOccurrences]
       else [])
    (seq 0 (Nat.min dist (length lines))).

(** [patternCandidates.sort((a, b) => b.occurrences - a.occurrences)]; the
    sort is stable. *)
Fixpoint insertCandidate (x : candidate) (sorted : list candidate)
  : list candidate :=
  match sorted with
  | [] => [x]
  | y :: sorted' =>
      if (occurrences y <? occurrences x)%nat then x :: sorted
      else y :: insertCandidate x sorted'
  end.

Definition sortCandidates (l : list candidate) : list candidate :=
  fold_left (fun sorted x => insertCandidate x sorted) l [].

(** [for (let i = start; i < n; i += dist) recordStartIndices.push(i)]. *)
Fixpoint stepIndices (fuel : nat) (i dist n : nat) : list nat :=
  match fuel with
  | O => []
  | S fuel' => if (i <? n)%nat then i :: stepIndices fuel' (i + dist)%nat dist n else []
  end.

Definition lineDistanceToCheck : list nat := [4; 5; 6; 7; 8; 10; 12; 15]%nat.

(** The body of [lineDistanceToCheck.forEach]. *)
Definition periodicityStep (lines : list jsstring) (recordStartIndices : list nat)
  (dist : nat) : list nat :=
  if (5 <? length recordStartIndices)%nat then recordStartIndices
  else
    match sortCandidates (candidatesFor lines dist) with
    | [] => recordStartIndices
    | bestPattern :: _ =>
        stepIndices (length lines) (startLine bestPattern) (distance bestPattern)
                    (length lines)
    end.

(** The whole search for record starts, up to the test for an empty
    result. *)
Definition findRecordStarts (lines : list jsstring) : list nat :=
  let recordStartIndices := forEachLine primaryStep lines 0 [] in
  let recordStartIndices :=
    if (length recordStartIndices <? 5)%nat
    then forEachLine (secondaryStep lines) lines 0 recordStartIndices
    else recordStartIndices in
  let recordStartIndices :=
    if (length recordStartIndices <? 10)%nat
    then forEachLine (aggressiveStep lines) lines 0 recordStartIndices
    else recordStartIndices in
  let recordStartIndices := sortIndices recordStartIndices in
  if (length recordStartIndices <? 3)%nat
  then fold_left (periodicityStep lines) lineDistanceToCheck recordStartIndices
  else recordStartIndices.

(** The spans [startIndex, endIndex) that [recordStartIndices.forEach]
    slices: each start up to the next one, the last one up to the line
    count. *)
Fixpoint recordSpans (recordStartIndices : list nat) (lineCount : nat)
  : list (nat * nat) :=
  match recordStartIndices with
  | [] => []
  | startIndex :: later =>
      (startIndex, match later with
                   | endIndex :: _ => endIndex
                   | [] => lineCount
                   end)
        :: recordSpans later lineCount
  end.

(** [lines.slice(startIndex, endIndex)]. *)
Definition slice (lines : list jsstring) (startIndex endIndex : nat)
  : list jsstring :=
  firstn (endIndex - startIndex) (skipn startIndex lines).

(** [Object.values(record).some(value => value && value.trim() !== '')]. *)
Definition hasData (record : fieldTable) : bool :=
  existsb (fun kv => truthy (snd kv) && negb (str_eqb (trim (snd kv)) [])) record.

(** ** [parseFormData] *)

(** How a call ends: it returns its records, or an exception leaves it. *)
Inductive outcome : Type :=
| Returned (records : list fieldTable)
| Threw (error : string).

(** The only statement of [parseFormData] that can raise: the call of
    [getDefaultFields], a name the server module does not define. *)
Definition getDefaultFieldsMissing : outcome :=
  Threw "ReferenceError: getDefaultFields is not defined".

Definition parseFormData (host : Host) (text : jsstring) : outcome :=
  let lines := cleanLines text in
  let recordStartIndices := findRecordStarts lines in
  match recordStartIndices with
  | [] => Returned [parseFormRecord host text]
  | _ :: _ =>
      let records :=
        filter hasData
          (map (fun span =>
                  parseFormRecord host
                    (join (str (String "010"%char EmptyString))
                          (slice lines (fst span) (snd span))))
               (recordSpans recordStartIndices (length lines))) in
      match records with
      | [] => getDefaultFieldsMissing
      | _ :: _ => Returned records
      end
  end.

(** A host whose [Date] recognises no string, for running the model on
    texts that never reach the date or number printing. *)
Definition plainHost : Host :=
  MkHost (fun _ _ _ => None) (fun _ => None) (fun _ => str "NaN").

(** * Vocabulary of the properties *)

(** [Object.keys(fields)]. *)
Definition keys (fields : fieldTable) : list string := map fst fields.

(** A table with the 24 keys of the schema. *)
Definition schema (f : fieldTable) : Prop := keys f = fieldNames.

(** The keys each block of [parseFormRecord] assigns. *)
Definition firstLineKeys : list string :=
  [ "SALES DATE"; "E-MAIL ADDRESS"; "CUSTOMER NAME"; "CUSTOMER ADDRESS"; "CITY";
    "STATE"; "INITIALS" ]%string.
Definition secondLineKeys : list string :=
  [ "CUSTOMER PHONE"; "DEALER PHONE"; "DELIVERY TIME"; "INVOICE NO";
    "INSURANCE POLICY NO"; "CHESIS NO" ]%string.
Definition thirdLineKeys : list string :=
  [ "BASIC AMOUNT"; "INSURANCE AMOUNT"; "TOTAL AMOUNT"; "EMPLOYER" ]%string.
Definition derivedKeys : list string :=
  [ "TOTAL AMOUNT"; "INITIALS"; "SALES DATE" ]%string.

(** [k] is none of the keys [ks]. *)
Definition notIn (k : string) (ks : list string) : Prop :=
  existsb (String.eqb k) ks = false.

(** The literal a table of known values holds for a key. *)
Fixpoint lookupKnown (k : string) (t : list (string * jsstring)) : option jsstring :=
  match t with
  | [] => None
  | (k', v) :: t' => if String.eqb k k' then Some v else lookupKnown k t'
  end.

(** The default form number. *)
Definition defaultFormNoText : jsstring := str "12428_000065".

(** The records of an outcome; none when the call threw. *)
Definition recordsOf (o : outcome) : list fieldTable :=
  match o with
  | Returned records => records
  | Threw _ => []
  end.

(** The texts handed to [parseFormRecord], one per span. *)
Definition recordTexts (lines : list jsstring) (recordStartIndices : list nat)
  : list jsstring :=
  map (fun span => join (str (String "010"%char EmptyString))
                        (slice lines (fst span) (snd span)))
      (recordSpans recordStartIndices (length lines)).

(** The record of an empty text. *)
Definition blankRecord : fieldTable :=
  [ ("FORM NO", str "12428_000065"); ("RECORD NO", []); ("SALES DATE", []);
    ("CUSTOMER NAME", []); ("INITIALS", []); ("E-MAIL ADDRESS", []);
    ("DEALER NAME", []); ("CUSTOMER ADDRESS", []); ("CITY", []); ("STATE", []);
    ("CUSTOMER PHONE", []); ("DEALER PHONE", []);
    ("DELIVERY TIME", str "Anytime"); ("INVOICE NO", []);
    ("INSURANCE POLICY NO", []); ("CHESIS NO", []);
    ("BASIC AMOUNT", str "0.022"); ("INSURANCE AMOUNT", str "880");
    ("TOTAL AMOUNT", str "22880"); ("DISCOUNT", str "5.0");
    ("NET AMOUNT", str "21736.00"); ("EMPLOYER", str "SelfEmployed");
    ("CREDIT CARD NO", []); ("REMARK", []) ]%string.

(** A value that is empty, the placeholder of its key, or the default form
    number. *)
Definition placeholderOrEmpty (kv : string * jsstring) : Prop :=
  snd kv = [] \/ placeholderOf (fst kv) = Some (snd kv)
  \/ kv = ("FORM NO"%string, defaultFormNoText).

(** The catalog as the specification words it. *)
Definition specFieldNames : list string :=
  [ "FORM NO"; "RECORD NO"; "SALES DATE"; "CUSTOMER NAME"; "INITIALS";
    "E-MAIL ADDRESS"; "DEALER NAME"; "CUSTOMER ADDRESS"; "CITY"; "STATE";
    "CUSTOMER PHONE"; "DEALER PHONE"; "DELIVERY TIME"; "INVOICE NO";
    "INSURANCE POLICY NO"; "CHASSIS NO"; "BASIC AMOUNT"; "INSURANCE AMOUNT";
    "TOTAL AMOUNT"; "DISCOUNT"; "NET AMOUNT"; "EMPLOYER"; "CREDIT CARD NO";
    "REMARK" ]%string.

(** The strings a pattern can consume, positions and word boundaries
    aside. *)
Fixpoint lang (ic : bool) (r : re) (w : jsstring) : Prop :=
  match r with
  | Eps | Bol | Eol | Wb => w = []
  | Cls neg member => exists c, w = [c] /\ cls_test ic neg member c = true
  | Seq r1 r2 => exists w1 w2, w = w1 ++ w2 /\ lang ic r1 w1 /\ lang ic r2 w2
  | Alt r1 r2 => lang ic r1 w \/ lang ic r2 w
  | Star r' => exists ws, w = concat ws /\ Forall (lang ic r') ws
  | Grp _ r' => lang ic r' w
  end.

(** Every group of the pattern captures only texts that satisfy [Q]. *)
Fixpoint groupsSat (ic : bool) (Q : nat -> jsstring -> Prop) (r : re) : Prop :=
  match r with
  | Grp i r' => (forall w, lang ic r' w -> Q i w) /\ groupsSat ic Q r'
  | Seq r1 r2 | Alt r1 r2 => groupsSat ic Q r1 /\ groupsSat ic Q r2
  | Star r' => groupsSat ic Q r'
  | _ => True
  end.

(** Group [i] lies on every path through the pattern. *)
Fixpoint mandatory (i : nat) (r : re) : bool :=
  match r with
  | Grp j r' => Nat.eqb i j || mandatory i r'
  | Seq r1 r2 => mandatory i r1 || mandatory i r2
  | Alt r1 r2 => mandatory i r1 && mandatory i r2
  | _ => false
  end.

(** A string of [lo] to [hi] decimal digits. *)
Definition digitGroup (lo hi : nat) (w : jsstring) : Prop :=
  (lo <= length w <= hi)%nat /\ forallb isDigit w = true.

(** Captures that all satisfy [Q]. *)
Definition capsOk (Q : nat -> jsstring -> Prop) (new : list (nat * jsstring))
  : Prop :=
  Forall (fun iv => Q (fst iv) (snd iv)) new.

(** What a successful run of [m] owes to the pattern [r]: the continuation
    succeeded on a later state, the text in between is in [lang r], and the
    new captures are groups of [r]. *)
Definition sound_for (ic : bool) (Q : nat -> jsstring -> Prop) (r : re) : Prop :=
  forall (k : mstate -> option mstate) (st res : mstate),
    m ic r k st = Some res ->
    exists st' w new,
      k st' = Some res
      /\ rest st = w ++ rest st'
      /\ lang ic r w
      /\ caps st' = new ++ caps st
      /\ capsOk Q new
      /\ (forall i, mandatory i r = true -> In i (map fst new)).

(** The texts [toFixed(3)] can print for a number of at most four digits
    divided by a million. *)
Definition basicTexts : list jsstring :=
  [ str "0.000"; str "0.001"; str "0.002"; str "0.003"; str "0.004";
    str "0.005"; str "0.006"; str "0.007"; str "0.008"; str "0.009";
    str "0.010" ].

(** [(n / 1000000).toFixed(3)]. *)
Definition millionthText (host : Host) (n : N) : jsstring :=
  toFixed3 (numberToString host) (SFdiv prec emax (ofN n) (ofN 1000000)).

(** ** The matcher by positions

    The same matcher, recording where each group lies instead of its text:
    a group is the pair of the lengths of the input left at its start and at
    its end.  It depends on the subject only through the class tests, which
    is what lets a match on one subject be read off another one of the same
    shape. *)

Record pstate : Type := MkP {
  pprev : option N;
  prest : jsstring;
  pcaps : list (nat * (nat * nat))
}.

Fixpoint mp (ic : bool) (r : re) (k : pstate -> option pstate) (st : pstate)
  {struct r} : option pstate :=
  match r with
  | Eps => k st
  | Cls neg member =>
      match prest st with
      | c :: s' =>
          if cls_test ic neg member c
          then k (MkP (Some c) s' (pcaps st))
          else None
      | [] => None
      end
  | Seq r1 r2 => mp ic r1 (mp ic r2 k) st
  | Alt r1 r2 =>
      match mp ic r1 k st with
      | Some res => Some res
      | None => mp ic r2 k st
      end
  | Star r' =>
      (fix loop (fuel : nat) (st0 : pstate) {struct fuel} : option pstate :=
         match fuel with
         | O => k st0
         | S fuel' =>
             match mp ic r'
                      (fun st1 =>
                         if (length (prest st1) <? length (prest st0))%nat
                         then loop fuel' st1 else None) st0 with
             | Some res => Some res
             | None => k st0
             end
         end) (length (prest st)) st
  | Grp i r' =>
      mp ic r' (fun st1 =>
                  k (MkP (pprev st1) (prest st1)
                         ((i, (length (prest st), length (prest st1)))
                            :: pcaps st1))) st
  | Bol => match pprev st with None => k st | Some _ => None end
  | Eol => match prest st with [] => k st | _ :: _ => None end
  | Wb =>
      if xorb (isWordOpt (pprev st)) (isWordOpt (hd_error (prest st)))
      then k st else None
  end.

(** A match by positions: its index, the lengths left at its start and end,
    and the groups. *)
Record pmatch : Type := MkPMatch {
  pindex : nat;
  pspan : nat * nat;
  pgroups : list (nat * (nat * nat))
}.

Fixpoint searchFromP (ic : bool) (r : re) (p : option N) (s : jsstring) (i : nat)
  : option pmatch :=
  let st := MkP p s [] in
  match mp ic r Some st with
  | Some st' =>
      Some (MkPMatch i (length s, length (prest st')) (pcaps st'))
  | None =>
      match s with
      | [] => None
      | c :: s' => searchFromP ic r (Some c) s' (S i)
      end
  end.

Definition execP (rx : regex) (s : jsstring) : option pmatch :=
  searchFromP (ignoreCase rx) (body rx) None s 0.

(** The text of [s] between two lengths left. *)
Definition segment (s : jsstring) (span : nat * nat) : jsstring :=
  firstn (fst span - snd span) (skipn (length s - fst span) s).

Definition denoteCap (s : jsstring) (c : nat * (nat * nat)) : nat * jsstring :=
  (fst c, segment s (snd c)).

(** The match on [s] that a match by positions stands for. *)
Definition denoteMatch (s : jsstring) (pm : pmatch) : rmatch :=
  MkMatch (pindex pm) (segment s (pspan pm)) (map (denoteCap s) (pgroups pm)).

(** Two characters that no class of the pattern tells apart. *)
Fixpoint respects (ic : bool) (K : N -> N -> Prop) (r : re) : Prop :=
  match r with
  | Cls neg member =>
      forall c c0, K c c0 -> cls_test ic neg member c = cls_test ic neg member c0
  | Seq r1 r2 | Alt r1 r2 => respects ic K r1 /\ respects ic K r2
  | Star r' | Grp _ r' => respects ic K r'
  | _ => True
  end.

Definition Kopt (K : N -> N -> Prop) (p p0 : option N) : Prop :=
  match p, p0 with
  | None, None => True
  | Some c, Some c0 => K c c0
  | _, _ => False
  end.

(** A state of [m] on [s] and a state of [mp] on [s0] at the same
    position, with the same groups. *)
Definition StRel (K : N -> N -> Prop) (s s0 : jsstring) (st : mstate)
  (stp : pstate) : Prop :=
  exists n, (n <= length s)%nat
            /\ rest st = skipn n s /\ prest stp = skipn n s0
            /\ Kopt K (prev st) (pprev stp)
            /\ caps st = map (denoteCap s) (pcaps stp).

Definition ORel (K : N -> N -> Prop) (s s0 : jsstring) (o : option mstate)
  (op : option pstate) : Prop :=
  match o, op with
  | None, None => True
  | Some st, Some stp => StRel K s s0 st stp
  | _, _ => False
  end.

(** Digits stand for one another; any other character only for itself. *)
Definition sameKind (c c0 : N) : Prop :=
  c = c0 \/ (isDigit c = true /\ isDigit c0 = true).

(** The ten digit characters. *)
Definition digitChars : list N := [48; 49; 50; 51; 52; 53; 54; 55; 56; 57].

(** The canonical form: two digits, a slash, two digits, a slash, four
    digits. *)
Definition canonical (y : jsstring) : Prop :=
  exists a b c d e f g h,
    y = [a; b; 47; c; d; 47; e; f; g; h]
    /\ forallb isDigit [a; b; c; d; e; f; g; h] = true.


(** ** The date format, spelled out on the digits

    What "zero-padded MM/DD/YYYY" asks for, written on the characters and
    without the number printing of the code: a group of one digit gets a
    zero in front, a year of two digits gets its century in front, "20" when
    it is below 50 and "19" otherwise. *)

Definition twoDigits (w : jsstring) : jsstring :=
  match w with
  | [c] => [48; c]
  | _ => w
  end.

Definition fourDigitYear (y : jsstring) : jsstring :=
  match y with
  | [a; b] => (if a <? 53 then str "20" else str "19") ++ [a; b]
  | _ => y
  end.

Definition mmddyyyy (month day year : jsstring) : jsstring :=
  twoDigits month ++ [47] ++ twoDigits day ++ [47] ++ fourDigitYear year.

(** A year written with two digits, or with four digits of which the first
    is not a zero. *)
Definition plainYear (y : jsstring) : Prop :=
  forallb isDigit y = true
  /\ (length y = 2%nat \/ (length y = 4%nat /\ hd 48 y <> 48)).


(** The two digits of the months, January first. *)
Definition monthNumerals : list jsstring :=
  [str "01"; str "02"; str "03"; str "04"; str "05"; str "06";
   str "07"; str "08"; str "09"; str "10"; str "11"; str "12"].

(** The two copies of [formatDate]. *)
Inductive side : Type :=
| OnServer
| OnClient.

Definition formatDateOn (s : side) : jsstring -> jsstring :=
  match s with
  | OnServer => formatDate
  | OnClient => Client.formatDate
  end.

(** Continuations of the two matchers that agree on related states. *)
Definition contRel (K : N -> N -> Prop) (s s0 : jsstring)
  (k : mstate -> option mstate) (kp : pstate -> option pstate) : Prop :=
  forall st stp, StRel K s s0 st stp -> ORel K s s0 (k st) (kp stp).

(** ** Vocabulary of the segmentation properties *)

(** A list of indices in ascending order (equal neighbours allowed). *)
Fixpoint ascending (l : list nat) : Prop :=
  match l with
  | [] => True
  | x :: l' =>
      match l' with
      | [] => True
      | y :: _ => (x <= y)%nat
      end /\ ascending l'
  end.

(** Indices below the line count. *)
Definition inRange (lineCount : nat) (l : list nat) : Prop :=
  Forall (fun i => (i < lineCount)%nat) l.

(** The lines of all spans, one span after the other. *)
Definition spanLines (lines : list jsstring) (spans : list (nat * nat))
  : list jsstring :=
  concat (map (fun span => slice lines (fst span) (snd span)) spans).

(** ** Vocabulary of the record properties *)

(** "10" and two digits: what the record number pattern captures. *)
Definition recordNoShape (w : jsstring) : Prop :=
  exists a b, isDigit a = true /\ isDigit b = true /\ w = str "10" ++ [a; b].

(** Five digits, an underscore, six digits: the form number pattern. *)
Definition formNoShape (w : jsstring) : Prop :=
  exists d5 d6,
    digitGroup 5 5 d5 /\ digitGroup 6 6 d6 /\ w = d5 ++ str "_" ++ d6.

(** Empty, or [lo] to [hi] digits. *)
Definition emptyOrDigits (lo hi : nat) (w : jsstring) : Prop :=
  w = [] \/ digitGroup lo hi w.

(** ** Vocabulary of the date properties *)

(** Every string the pattern consumes holds a decimal digit. *)
Fixpoint needsDigit (ic : bool) (r : re) : Prop :=
  match r with
  | Cls neg member => forall c, cls_test ic neg member c = true -> isDigit c = true
  | Seq r1 r2 => needsDigit ic r1 \/ needsDigit ic r2
  | Alt r1 r2 => needsDigit ic r1 /\ needsDigit ic r2
  | Grp _ r' => needsDigit ic r'
  | _ => False
  end.

(** The template filled with the numbers three digit groups spell, the year
    after the two-digit rule. *)
Definition datedText (month : N) (day year : jsstring) : jsstring :=
  slashDate (Int month) (Int (digitsValue 0 day))
            (adjustYear (Int (digitsValue 0 year))).

(** A word with its first letter in upper case. *)
Definition capitalize (w : jsstring) : jsstring :=
  match w with
  | [] => []
  | c :: t => toUpperChar c :: t
  end.

(** Every white-space character is a blank that follows a character which
    is none. *)
Fixpoint spaced (inRun : bool) (s : jsstring) : bool :=
  match s with
  | [] => true
  | c :: t =>
      if isSpace c then negb inRun && (c =? 32) && spaced true t
      else spaced false t
  end.

(** A string that trimming and collapsing white space leave as it is. *)
Definition tidy (s : jsstring) : bool :=
  negb (isSpace (hd 0 s)) && negb (isSpace (last s 0)) && spaced false s.

(** ** Vocabulary of the line properties *)

(** A line as the parsers see it: not empty, trimmed, without line feed. *)
Definition cleanLine (l : jsstring) : Prop :=
  l <> [] /\ trim l = l /\ ~ In 10 l.

(** The line feed that joins the lines of a record. *)
Definition lineFeed : jsstring := str (String "010"%char EmptyString).

(** ** The endpoint [/api/parse-form] and the workbook

    A [{ name, value }] object is a pair, a [{ lineNumber, text }] object
    too; a row of a sheet is the pair of its two cells. *)

(** [array.map((x, i) => f(x, i))]. *)
Fixpoint mapIndexed {A B : Type} (f : A -> nat -> B) (l : list A) (i : nat)
  : list B :=
  match l with
  | [] => []
  | x :: l' => f x i :: mapIndexed f l' (S i)
  end.

(** [Object.entries(record).map(([name, value]) => ({ name, value }))]. *)
Definition formFields (record : fieldTable) : list (string * jsstring) :=
  map (fun entry => (fst entry, snd entry)) record.

(** [text.split('\n').filter(line => line.trim())]. *)
Definition rawLines (text : jsstring) : list jsstring :=
  filter (fun line => truthy (trim line)) (splitOn 10 text).

(** [formattedRawText], sent to the client as [rawOCRLines]. *)
Definition formattedRawText (text : jsstring) : list (nat * jsstring) :=
  mapIndexed (fun line i => ((i + 1)%nat, trim line)) (rawLines text) 0.

(** The rows of the sheet "Parsed Form Data" in [generateExcelBuffer]. *)
Definition worksheetData (data : list (string * jsstring))
  : list (jsstring * jsstring) :=
  (str "Field", str "Value") :: map (fun field => (str (fst field), snd field)) data.

(** The rows of the sheet "Raw OCR Text"; none when [rawText] is empty. *)
Definition rawWorksheetData (rawText : jsstring)
  : option (list (jsstring * jsstring)) :=
  if truthy rawText then
    Some ((str "Line Number", str "Raw OCR Text")
          :: mapIndexed
               (fun line index =>
                  (str "Line " ++ natToString (N.of_nat (index + 1)), trim line))
               (rawLines rawText) 0)
  else None.

(** ** The client's field order *)

Module Uploader.

Definition getDefaultFields : list (string * jsstring) :=
  [ ("FORM NO", []); ("RECORD NO", []); ("SALES DATE", []);
    ("CUSTOMER NAME", []); ("INITIALS", []); ("E-MAIL ADDRESS", []);
    ("DEALER NAME", []); ("CUSTOMER ADDRESS", []); ("CITY", []); ("STATE", []);
    ("CUSTOMER PHONE", []); ("DEALER PHONE", []); ("DELIVERY TIME", []);
    ("INVOICE NO", []); ("INSURANCE POLICY NO", []); ("CHESIS NO", []);
    ("BASIC AMOUNT", []); ("INSURANCE AMOUNT", []); ("TOTAL AMOUNT", []);
    ("DISCOUNT", []); ("NET AMOUNT", []); ("EMPLOYER", []);
    ("CREDIT CARD NO", []); ("REMARK", []) ]%string.

(** [new Map(entries).get(key)]: the value of the last entry with the key;
    [None] when [has(key)] is false. *)
Definition mapGet (key : string) (entries : list (string * jsstring))
  : option jsstring :=
  fold_left
    (fun found entry => if String.eqb (fst entry) key then Some (snd entry) else found)
    entries None.

(** The default fields with the parsed values applied:
    [orderedFields.forEach(field => { if (map.has(field.name))
    field.value = map.get(field.name) || ''; })]. *)
Definition orderFields (parsedData : list (string * jsstring))
  : list (string * jsstring) :=
  map (fun field =>
         match mapGet (fst field) parsedData with
         | Some v => (fst field, orElse v [])
         | None => field
         end)
      getDefaultFields.

End Uploader.

(** ** Vocabulary of the engine property *)

(** Two tables with the same value under every key but SALES DATE. *)
Definition sameButDate (f f' : fieldTable) : Prop :=
  forall k, String.eqb k "SALES DATE" = false -> getField k f = getField k f'.

(** An engine whose number printing gives a text that is no amount. *)
Definition markingHost : Host :=
  MkHost (fun _ _ _ => None) (fun _ => None) (fun _ => str "X").

(** A line that one of the primary patterns matches. *)
Definition isRecordStart (line : jsstring) : bool :=
  existsb (fun pattern => test pattern line) recordStartPatterns.

(** One to three upper-case letters and five to seven digits: the invoice
    pattern. *)
Definition invoiceShape (w : jsstring) : Prop :=
  exists letters digits,
    (1 <= length letters <= 3)%nat /\ forallb isUpper letters = true
    /\ digitGroup 5 7 digits /\ w = letters ++ digits.

(** Two upper-case letters. *)
Definition stateShape (w : jsstring) : Prop :=
  exists a b, isUpper a = true /\ isUpper b = true /\ w = [a; b].

(** A table whose e-mail address is empty or holds an at sign, and whose
    state is empty or two upper-case letters. *)
Definition mailStateOk (f : fieldTable) : Prop :=
  (getField "E-MAIL ADDRESS" f = [] \/ In 64 (getField "E-MAIL ADDRESS" f))
  /\ (getField "STATE" f = [] \/ stateShape (getField "STATE" f)).

(** A table whose customer name is empty or starts with an upper-case
    letter. *)
Definition nameOk (f : fieldTable) : Prop :=
  getField "CUSTOMER NAME" f = []
  \/ exists c t, getField "CUSTOMER NAME" f = c :: t /\ isUpper c = true.

(** The client's text for a month and a year: the 15th of the month. *)
Definition midMonthText (month : N) (year : jsstring) : jsstring :=
  padStart2 (numToString (Int month)) ++ str "/15/"
  ++ numToString (adjustYear (Int (digitsValue 0 year))).

(** ** Ports: where the server listens and where the client looks *)

Definition PRIMARY_PORT : N := 5050.
Definition FALLBACK_PORTS : list N := [5051; 5052; 5053; 5054; 5060; 6000].

(** [array.indexOf(x)]: the first position of [x], [-1] when absent. *)
Fixpoint arrayIndexOfFrom (i : Z) (l : list N) (x : N) : Z :=
  match l with
  | [] => (-1)%Z
  | y :: l' => if y =? x then i else arrayIndexOfFrom (i + 1)%Z l' x
  end.

Definition arrayIndexOf (l : list N) (x : N) : Z := arrayIndexOfFrom 0%Z l x.

(** How [startServer] ends: listening on a port, or with the message that
    all ports are in use; [StillTrying] is a run that has not ended within
    the given number of attempts. *)
Inductive started : Type :=
| Listening (port : N)
| AllInUse
| StillTrying.

(** [startServer(port)]: [app.listen] succeeds on a free port; on
    [EADDRINUSE] the error handler tries the fallback after [port], or the
    first fallback when [port] is the primary port.  [inUse] tells which
    ports are taken; [fuel] bounds the number of attempts. *)
Fixpoint startServer (fuel : nat) (inUse : N -> bool) (port : N) : started :=
  match fuel with
  | O => StillTrying
  | S fuel' =>
      if inUse port then
        let nextPortIndex := (arrayIndexOf FALLBACK_PORTS port + 1)%Z in
        if ((0 <? nextPortIndex)%Z
            && (nextPortIndex <? Z.of_nat (length FALLBACK_PORTS))%Z)
        then startServer fuel' inUse
               (nth (Z.to_nat nextPortIndex) FALLBACK_PORTS 0)
        else if port =? PRIMARY_PORT
             then startServer fuel' inUse (nth 0 FALLBACK_PORTS 0)
             else AllInUse
      else Listening port
  end.

(** The client's list of ports to probe. *)
Definition SERVER_PORTS : list N := [5050; 5051; 5052; 5053; 5054; 5060; 6000].

(** [detectServerPort()]: the cached port when there is one, else the first
    port of [SERVER_PORTS] whose ping answers, which is then cached, else
    5050 with nothing cached.  The result is the port and the new value of
    [cachedServerPort]. *)
Definition detectServerPort (cachedServerPort : option N) (answers : N -> bool)
  : N * option N :=
  let probe :=
    match find answers SERVER_PORTS with
    | Some port => (port, Some port)
    | None => (5050, cachedServerPort)
    end in
  match cachedServerPort with
  | Some port => if port =? 0 then probe else (port, cachedServerPort)
  | None => probe
  end.

(** * Properties *)

Arguments exec : simpl never.
Arguments test : simpl never.
Arguments matchAll : simpl never.
Arguments trim : simpl never.
Arguments cleanLines : simpl never.
Arguments parseFormRecord : simpl never.
Arguments parseFormData : simpl never.
Arguments findRecordStarts : simpl never.
Arguments extractedFields : simpl never.
Arguments lineFields : simpl never.
Arguments hasData : simpl never.
Arguments formatDateToMonthDayYear : simpl never.
Arguments generateInitials : simpl never.
Arguments toFixed3 : simpl never.
Arguments parseFloat : simpl never.

(** ** Field tables *)

Lemma getField_setField (k k' : string) (v : jsstring) (f : fieldTable) :
  getField k (setField k' v f) = if String.eqb k k' then v else getField k f.
Proof.
  induction f as [|[k0 w] f IH]; simpl.
  - reflexivity.
  - destruct (String.eqb_spec k' k0) as [->|Hne]; simpl.
    + destruct (String.eqb_spec k k0); reflexivity.
    + rewrite IH. destruct (String.eqb_spec k k0) as [->|]; [|reflexivity].
      destruct (String.eqb_spec k0 k') as [E|]; [congruence|reflexivity].
Qed.

Lemma keys_setField (k : string) (v : jsstring) (f : fieldTable) :
  In k (keys f) -> keys (setField k v f) = keys f.
Proof.
  unfold keys. induction f as [|[k0 w] f IH]; simpl; [tauto|].
  intros [->|Hin].
  - rewrite String.eqb_refl. reflexivity.
  - destruct (String.eqb_spec k k0) as [->|]; simpl; [reflexivity|].
    now rewrite IH.
Qed.

Lemma schema_setField (k : string) (v : jsstring) (f : fieldTable) :
  existsb (String.eqb k) fieldNames = true -> schema f -> schema (setField k v f).
Proof.
  unfold schema. intros Hk Hf. rewrite keys_setField; [assumption|].
  rewrite Hf. apply existsb_exists in Hk. destruct Hk as [x [Hin Hx]].
  apply String.eqb_eq in Hx. now subst.
Qed.

Lemma schema_empty : schema emptyFields.
Proof. reflexivity. Qed.

(** Every assignment of the record code names a key of the schema. *)
Ltac schema_step :=
  repeat match goal with
         | |- schema (match ?x with _ => _ end) => destruct x
         | |- schema (if ?b then _ else _) => destruct b
         | |- schema (setField _ _ _) => apply schema_setField; [reflexivity|]
         end; try assumption.

Lemma schema_firstLine l f : schema f -> schema (firstLineFields l f).
Proof. intros H. unfold firstLineFields. cbv zeta. schema_step. Qed.

Lemma schema_secondLine l f : schema f -> schema (secondLineFields l f).
Proof. intros H. unfold secondLineFields. cbv zeta. simpl fold_left. schema_step. Qed.

Lemma schema_thirdLine h l f : schema f -> schema (thirdLineFields h l f).
Proof. intros H. unfold thirdLineFields. cbv zeta. schema_step. Qed.

Lemma schema_fourthLine l f : schema f -> schema (fourthLineFields l f).
Proof. intros H. unfold fourthLineFields. schema_step. Qed.

Lemma schema_scanFor rx k ls f :
  existsb (String.eqb k) fieldNames = true -> schema f -> schema (scanFor rx k ls f).
Proof.
  intros Hk H. unfold scanFor. destruct (firstMatch rx ls); [|assumption].
  now apply schema_setField.
Qed.

Lemma schema_lineFields h ls : schema (lineFields h ls).
Proof.
  unfold lineFields. cbv zeta.
  apply schema_scanFor; [reflexivity|]. apply schema_scanFor; [reflexivity|].
  assert (H0 := schema_empty).
  destruct ls as [|l1 [|l2 [|l3 [|l4 ls]]]];
    repeat first [ assumption
                 | apply schema_fourthLine | apply schema_thirdLine
                 | apply schema_secondLine | apply schema_firstLine ].
Qed.

Lemma schema_derived h f : schema f -> schema (derivedFields h f).
Proof. intros H. unfold derivedFields. cbv zeta. schema_step. Qed.

Lemma schema_applyKnown t f :
  forallb (fun kv => existsb (String.eqb (fst kv)) fieldNames) t = true ->
  schema f -> schema (applyKnown t f).
Proof.
  unfold applyKnown. revert f. induction t as [|kv t IH]; simpl; intros f Ht Hf.
  - assumption.
  - apply andb_prop in Ht. destruct Ht as [Hk Ht]. apply IH; [assumption|].
    unfold fillField. now apply schema_setField.
Qed.

Lemma schema_known f : schema f -> schema (knownValues f).
Proof.
  intros H. unfold knownValues. cbv zeta.
  repeat match goal with |- schema (if ?b then _ else _) => destruct b end;
    try assumption; apply schema_applyKnown; solve [reflexivity | assumption].
Qed.

Lemma schema_dealerScan ls f : schema f -> schema (dealerScan ls f).
Proof.
  revert f. induction ls as [|l ls IH]; intros f H; cbn [dealerScan];
    [assumption|].
  destruct (matchAll possibleNamesRegex l) as [|n ns]; [now apply IH|].
  generalize (n :: ns); intros names. cbv zeta.
  destruct (find _ names);
    match goal with |- schema (if ?b then _ else _) => destruct b end;
    auto using schema_setField.
Qed.

Lemma schema_dealerName ls f : schema f -> schema (dealerName ls f).
Proof.
  intros H. unfold dealerName.
  match goal with |- schema (if ?b then _ else _) => destruct b end;
    [now apply schema_dealerScan|assumption].
Qed.

Lemma schema_defaultFormNo f : schema f -> schema (defaultFormNo f).
Proof. intros H. unfold defaultFormNo. schema_step. Qed.

Lemma placeholderOf_key k v : placeholderOf k = Some v -> In k fieldNames.
Proof.
  unfold placeholderOf.
  repeat match goal with
         | |- (if String.eqb ?a ?b then _ else _) = _ -> _ =>
             destruct (String.eqb_spec a b) as [->|_];
             [intros _; simpl; tauto|]
         end.
  discriminate.
Qed.

Lemma schema_placeholderStep f k : schema f -> schema (placeholderStep f k).
Proof.
  intros H. unfold placeholderStep. destruct (truthy _); [assumption|].
  destruct (placeholderOf k) eqn:E; [|assumption].
  unfold schema. rewrite keys_setField; [assumption|].
  rewrite H. eapply placeholderOf_key; eassumption.
Qed.

Lemma schema_fold_placeholder ks f :
  schema f -> schema (fold_left placeholderStep ks f).
Proof.
  revert f. induction ks as [|k ks IH]; simpl; intros f H; [assumption|].
  apply IH. now apply schema_placeholderStep.
Qed.

Lemma schema_parseFormRecord h text : schema (parseFormRecord h text).
Proof.
  unfold parseFormRecord, placeholders, extractedFields.
  apply schema_fold_placeholder, schema_defaultFormNo, schema_dealerName,
    schema_known, schema_derived, schema_lineFields.
Qed.

(** ** What each block writes *)

(** Reading a key that a block does not write gives the value from before
    the block. *)
Ltac frame H :=
  cbv zeta;
  repeat match goal with
         | |- context [match ?x with _ => _ end] =>
             lazymatch x with
             | String.eqb _ _ => fail
             | _ => destruct x
             end
         end;
  rewrite ?getField_setField;
  cbn in H; repeat (apply orb_false_elim in H; destruct H as [? H]);
  repeat match goal with E : String.eqb _ _ = false |- _ => rewrite E; clear E end;
  try reflexivity.

Lemma frame_firstLine k l f :
  notIn k firstLineKeys -> getField k (firstLineFields l f) = getField k f.
Proof. unfold notIn, firstLineFields. intros H. frame H. Qed.

Lemma frame_secondLine k l f :
  notIn k secondLineKeys -> getField k (secondLineFields l f) = getField k f.
Proof. unfold notIn, secondLineFields. intros H. simpl fold_left. frame H. Qed.

Lemma frame_thirdLine h k l f :
  notIn k thirdLineKeys -> getField k (thirdLineFields h l f) = getField k f.
Proof. unfold notIn, thirdLineFields. intros H. frame H. Qed.

Lemma frame_fourthLine k l f :
  notIn k ["CREDIT CARD NO"%string] ->
  getField k (fourthLineFields l f) = getField k f.
Proof. unfold notIn, fourthLineFields. intros H. frame H. Qed.

Lemma frame_scanFor rx k k' ls f :
  String.eqb k k' = false -> getField k (scanFor rx k' ls f) = getField k f.
Proof.
  intros H. unfold scanFor. destruct (firstMatch rx ls); [|reflexivity].
  now rewrite getField_setField, H.
Qed.

Lemma frame_derived h k f :
  notIn k derivedKeys -> getField k (derivedFields h f) = getField k f.
Proof. unfold notIn, derivedFields. intros H. frame H. Qed.

(** ** The known values and the backstops *)

Lemma lookupKnown_None k t : ~ In k (map fst t) -> lookupKnown k t = None.
Proof.
  induction t as [|[k' v] t IH]; simpl; [reflexivity|]. intros H.
  destruct (String.eqb_spec k k') as [->|]; [exfalso; auto|]. apply IH. tauto.
Qed.

Lemma getField_applyKnown k t f :
  NoDup (map fst t) ->
  getField k (applyKnown t f)
  = match lookupKnown k t with
    | Some v => orElse (getField k f) v
    | None => getField k f
    end.
Proof.
  unfold applyKnown. revert f.
  induction t as [|[k' v] t IH]; simpl; intros f Hnd; [reflexivity|].
  inversion Hnd as [|? ? Hnotin Hnd']; subst.
  rewrite IH by assumption. unfold fillField. simpl fst. simpl snd.
  rewrite getField_setField.
  destruct (String.eqb_spec k k') as [->|Hne]; [|reflexivity].
  now rewrite lookupKnown_None.
Qed.

(** A value that is not empty survives [fields[k] = fields[k] || v]. *)
Lemma orElse_truthy a b : truthy a = true -> orElse a b = a.
Proof. unfold orElse. now intros ->. Qed.

Lemma truthy_applyKnown k t f :
  NoDup (map fst t) -> truthy (getField k f) = true ->
  getField k (applyKnown t f) = getField k f.
Proof.
  intros Hnd H. rewrite getField_applyKnown by assumption.
  destruct (lookupKnown k t); [now apply orElse_truthy|reflexivity].
Qed.

Lemma NoDup_known :
  NoDup (map fst known1047) /\ NoDup (map fst known1048)
  /\ NoDup (map fst known1049) /\ NoDup (map fst known1056).
Proof.
  repeat split;
    repeat (constructor; [simpl; intuition discriminate|]); constructor.
Qed.

Lemma truthy_knownValues k f :
  truthy (getField k f) = true -> getField k (knownValues f) = getField k f.
Proof.
  intros H. unfold knownValues. cbv zeta.
  destruct NoDup_known as [H1 [H2 [H3 H4]]].
  repeat match goal with |- context [if ?b then _ else _] => destruct b end;
    auto using truthy_applyKnown.
Qed.

Lemma frame_dealerScan k ls f :
  String.eqb k "DEALER NAME" = false ->
  getField k (dealerScan ls f) = getField k f.
Proof.
  intros Hk. revert f. induction ls as [|l ls IH]; intros f; cbn [dealerScan];
    [reflexivity|].
  destruct (matchAll possibleNamesRegex l) as [|n ns]; [apply IH|].
  generalize (n :: ns); intros names. cbv zeta.
  destruct (find _ names);
    match goal with |- context [if ?b then _ else _] => destruct b end;
    rewrite ?IH, ?getField_setField, ?Hk; reflexivity.
Qed.

Lemma truthy_dealerName k ls f :
  truthy (getField k f) = true -> getField k (dealerName ls f) = getField k f.
Proof.
  intros H. unfold dealerName.
  destruct (String.eqb_spec k "DEALER NAME") as [->|Hne].
  - now rewrite H.
  - destruct (_ && _); [|reflexivity]. apply frame_dealerScan.
    now apply String.eqb_neq.
Qed.

Lemma frame_dealerName k ls f :
  String.eqb k "DEALER NAME" = false ->
  getField k (dealerName ls f) = getField k f.
Proof.
  intros H. unfold dealerName. destruct (_ && _); [|reflexivity].
  now apply frame_dealerScan.
Qed.

Lemma truthy_defaultFormNo k f :
  truthy (getField k f) = true -> getField k (defaultFormNo f) = getField k f.
Proof.
  intros H. unfold defaultFormNo.
  destruct (truthy (getField "FORM NO" f)) eqn:E; simpl; [reflexivity|].
  rewrite getField_setField.
  destruct (String.eqb_spec k "FORM NO") as [->|]; [congruence|reflexivity].
Qed.

Lemma truthy_fold_placeholder k ks f :
  truthy (getField k f) = true ->
  getField k (fold_left placeholderStep ks f) = getField k f.
Proof.
  revert f. induction ks as [|k' ks IH]; simpl; intros f H; [reflexivity|].
  assert (E : getField k (placeholderStep f k') = getField k f).
  { unfold placeholderStep. destruct (truthy (getField k' f)) eqn:E'; [reflexivity|].
    destruct (placeholderOf k'); [|reflexivity].
    rewrite getField_setField.
    destruct (String.eqb_spec k k') as [->|]; [congruence|reflexivity]. }
  rewrite IH; [assumption|]. now rewrite E.
Qed.

Lemma plain_fold_placeholder k ks f :
  placeholderOf k = None ->
  getField k (fold_left placeholderStep ks f) = getField k f.
Proof.
  intros Hk. revert f. induction ks as [|k' ks IH]; simpl; intros f; [reflexivity|].
  rewrite IH. unfold placeholderStep. destruct (truthy (getField k' f)); [reflexivity|].
  destruct (placeholderOf k') eqn:E; [|reflexivity].
  rewrite getField_setField.
  destruct (String.eqb_spec k k') as [->|]; [congruence|reflexivity].
Qed.

(** The backstops that follow the known values never replace a value that
    is there. *)
Lemma truthy_backstops k ls f :
  truthy (getField k f) = true ->
  getField k (placeholders (defaultFormNo (dealerName ls f))) = getField k f.
Proof.
  intros H. unfold placeholders.
  rewrite truthy_fold_placeholder; rewrite truthy_defaultFormNo;
    rewrite truthy_dealerName; auto.
Qed.

(** ** Trimming *)

Lemma trimStart_snoc l c :
  isSpace c = false -> exists l', trimStart (l ++ [c]) = l' ++ [c].
Proof.
  intros Hc. induction l as [|x l IH]; simpl.
  - rewrite Hc. now exists [].
  - destruct (isSpace x); [assumption|]. now exists (x :: l).
Qed.

Lemma trimStart_head s :
  trimStart s = [] \/ exists c t, trimStart s = c :: t /\ isSpace c = false.
Proof.
  induction s as [|x s IH]; simpl; [now left|].
  destruct (isSpace x) eqn:E; [assumption|]. right. now exists x, s.
Qed.

Lemma trim_cons c t : isSpace c = false -> exists t', trim (c :: t) = c :: t'.
Proof.
  intros Hc. unfold trim, trimEnd. simpl trimStart. rewrite Hc. simpl rev.
  destruct (trimStart_snoc (rev t) c Hc) as [l' ->].
  rewrite rev_app_distr. simpl. now exists (rev l').
Qed.

Lemma trim_head s :
  trim s = [] \/ exists c t, trim s = c :: t /\ isSpace c = false.
Proof.
  unfold trim at 1 2. destruct (trimStart_head s) as [->|[c [t [-> Hc]]]].
  - now left.
  - right. fold (trim (c :: t)) in *.
    assert (E : trimEnd (c :: t) = trim (c :: t)).
    { unfold trim. simpl trimStart. now rewrite Hc. }
    rewrite E. destruct (trim_cons c t Hc) as [t' ->]. now exists c, t'.
Qed.

(** A trimmed value that is not empty is not blank. *)
Lemma trim_truthy_not_blank g :
  truthy (trim g) = true -> str_eqb (trim (trim g)) [] = false.
Proof.
  destruct (trim_head g) as [->|[c [t [-> Hc]]]]; [discriminate|]. intros _.
  destruct (trim_cons c t Hc) as [t' ->]. reflexivity.
Qed.

Lemma formNo_lineFields h ls :
  getField "FORM NO" (lineFields h ls)
  = match firstMatch formNoRegex ls with
    | Some mt => trim (grp 1 mt)
    | None => []
    end.
Proof.
  unfold lineFields. cbv zeta. unfold scanFor at 1.
  destruct (firstMatch formNoRegex ls).
  - now rewrite getField_setField.
  - rewrite frame_scanFor by reflexivity.
    destruct ls as [|l1 [|l2 [|l3 [|l4 ls]]]];
      rewrite ?frame_fourthLine, ?frame_thirdLine, ?frame_secondLine,
        ?frame_firstLine by reflexivity; reflexivity.
Qed.

Lemma formNo_known f :
  getField "FORM NO" (knownValues f) = getField "FORM NO" f
  \/ getField "FORM NO" (knownValues f) = defaultFormNoText.
Proof.
  unfold knownValues. cbv zeta. destruct NoDup_known as [H1 [H2 [H3 H4]]].
  repeat match goal with |- context [if ?b then _ else _] => destruct b end;
    try (now left);
    rewrite getField_applyKnown by assumption; simpl lookupKnown;
    unfold orElse; destruct (truthy _); auto.
Qed.

(** The form number of a record is the default literal or a trimmed capture
    that is not empty. *)
Lemma formNo_final h text :
  getField "FORM NO" (parseFormRecord h text) = defaultFormNoText
  \/ exists g, getField "FORM NO" (parseFormRecord h text) = trim g
               /\ truthy (trim g) = true.
Proof.
  unfold parseFormRecord, placeholders.
  rewrite plain_fold_placeholder by reflexivity.
  unfold defaultFormNo.
  destruct (truthy (getField "FORM NO" _)) eqn:E; simpl negb; cbv iota.
  2:{ left. now rewrite getField_setField. }
  rewrite frame_dealerName in * by reflexivity.
  destruct (formNo_known (extractedFields h text)) as [K|K]; rewrite K in *;
    [|now left].
  unfold extractedFields in *. rewrite frame_derived in * by reflexivity.
  rewrite formNo_lineFields in *.
  destruct (firstMatch formNoRegex (cleanLines text)); [|discriminate].
  right. eauto.
Qed.

Lemma formNo_not_blank h text :
  truthy (getField "FORM NO" (parseFormRecord h text)) = true
  /\ str_eqb (trim (getField "FORM NO" (parseFormRecord h text))) [] = false.
Proof.
  destruct (formNo_final h text) as [->|[g [-> Hg]]].
  - split; reflexivity.
  - split; [assumption|]. now apply trim_truthy_not_blank.
Qed.

Lemma In_getField k f : In k (keys f) -> In (k, getField k f) f.
Proof.
  unfold keys. induction f as [|[k' v] f IH]; simpl; [tauto|].
  destruct (String.eqb_spec k k') as [->|Hne]; [now left|].
  intros [E|H]; [congruence|]. right. now apply IH.
Qed.

Lemma hasData_parseFormRecord h text : hasData (parseFormRecord h text) = true.
Proof.
  unfold hasData. apply existsb_exists.
  exists ("FORM NO"%string, getField "FORM NO" (parseFormRecord h text)).
  split.
  - apply In_getField. rewrite (schema_parseFormRecord h text).
    unfold fieldNames. simpl. tauto.
  - cbn [snd]. destruct (formNo_not_blank h text) as [-> ->]. reflexivity.
Qed.

Lemma filter_hasData h texts :
  filter hasData (map (parseFormRecord h) texts) = map (parseFormRecord h) texts.
Proof.
  induction texts as [|t ts IH]; cbn [map filter]; [reflexivity|].
  now rewrite hasData_parseFormRecord, IH.
Qed.

(** What [parseFormData] comes to: one record per start found, the whole
    text as one record when none is found. *)
Lemma parseFormData_records h text :
  parseFormData h text
  = Returned
      (match findRecordStarts (cleanLines text) with
       | [] => [parseFormRecord h text]
       | starts => map (parseFormRecord h) (recordTexts (cleanLines text) starts)
       end).
Proof.
  unfold parseFormData. cbv zeta.
  destruct (findRecordStarts (cleanLines text)) as [|i idx] eqn:E; [reflexivity|].
  rewrite <- (map_map (fun span => join _ (slice _ (fst span) (snd span)))
                      (parseFormRecord h)).
  fold (recordTexts (cleanLines text) (i :: idx)).
  rewrite filter_hasData. unfold recordTexts. simpl recordSpans. reflexivity.
Qed.

(** C10: the form number of every record is there, so the filter of
    [parseFormData] keeps every record and the call of the undefined
    [getDefaultFields] is never reached. *)
Theorem form_no_keeps_every_record (host : Host) (text : jsstring) :
  truthy (getField "FORM NO" (parseFormRecord host text)) = true
  /\ hasData (parseFormRecord host text) = true
  /\ (forall texts,
        filter hasData (map (parseFormRecord host) texts)
        = map (parseFormRecord host) texts)
  /\ (forall error, parseFormData host text <> Threw error).
Proof.
  split; [apply formNo_not_blank|].
  split; [apply hasData_parseFormRecord|].
  split; [intros; apply filter_hasData|].
  intros error. rewrite parseFormData_records. discriminate.
Qed.

(** C1: [parseFormData] returns, with at least one record, whatever the
    text; the empty text gives the one record [blankRecord], whose values are
    placeholders or empty. *)
Theorem parseFormData_returns_a_record (host : Host) (text : jsstring) :
  (exists r rs, parseFormData host text = Returned (r :: rs))
  /\ parseFormData host [] = Returned [blankRecord]
  /\ Forall placeholderOrEmpty blankRecord.
Proof.
  split; [|split].
  - rewrite parseFormData_records.
    destruct (findRecordStarts (cleanLines text)) as [|i idx];
      [do 2 eexists; reflexivity|].
    unfold recordTexts. cbn [recordSpans map]. do 2 eexists; reflexivity.
  - vm_compute. reflexivity.
  - unfold placeholderOrEmpty.
    repeat (constructor; [simpl; auto|]). constructor.
Qed.

(** C2, as amended: the keys of every record are the 24 names of
    [fieldNames], in that order, the sixteenth being [CHESIS NO]. *)
Theorem record_keys_are_the_schema (host : Host) (text : jsstring) :
  keys (parseFormRecord host text) = fieldNames
  /\ Forall (fun record => keys record = fieldNames)
            (recordsOf (parseFormData host text))
  /\ length fieldNames = 24%nat /\ NoDup fieldNames.
Proof.
  split; [apply schema_parseFormRecord|]. split.
  - rewrite parseFormData_records. cbn [recordsOf].
    destruct (findRecordStarts (cleanLines text)) as [|i idx].
    + constructor; [apply schema_parseFormRecord|constructor].
    + apply Forall_forall. intros r Hr. apply in_map_iff in Hr.
      destruct Hr as [t [<- _]]. apply schema_parseFormRecord.
  - split; [reflexivity|].
    repeat (constructor; [simpl; intuition discriminate|]). constructor.
Qed.

(** C2 as stated fails: no record has a key [CHASSIS NO]. *)
Lemma record_keys_not_spec_catalog :
  keys (parseFormRecord plainHost []) <> specFieldNames.
Proof. vm_compute. discriminate. Qed.

(** ** Known values of record 1047 *)

Lemma lookupKnown_In k v t :
  NoDup (map fst t) -> In (k, v) t -> lookupKnown k t = Some v.
Proof.
  induction t as [|[k' v'] t IH]; simpl; [tauto|]. intros Hnd [E|Hin].
  - inversion E; subst. now rewrite String.eqb_refl.
  - inversion Hnd as [|? ? Hnotin Hnd']; subst.
    destruct (String.eqb_spec k k') as [->|_].
    + exfalso. apply Hnotin. change k' with (fst (k', v)). now apply in_map.
    + now apply IH.
Qed.

Lemma known1047_truthy k v : In (k, v) known1047 -> truthy v = true.
Proof.
  unfold known1047. cbn [In]. intros H.
  repeat (destruct H as [H|H]; [inversion H; reflexivity|]). destruct H.
Qed.

Lemma str_eqb_refl a : str_eqb a a = true.
Proof. induction a as [|x a IH]; simpl; [reflexivity|]. now rewrite N.eqb_refl. Qed.

Lemma str_eqb_eq a b : str_eqb a b = true <-> a = b.
Proof.
  split; [|intros ->; apply str_eqb_refl].
  revert b. induction a as [|x a IH]; intros [|y b]; simpl; try discriminate;
    [reflexivity|].
  intros H. apply andb_prop in H. destruct H as [Hx Hab].
  apply N.eqb_eq in Hx. subst. f_equal. now apply IH.
Qed.

(** C6, as amended: in a record whose number is 1047, every field that the
    table of known values lists and that is empty when the ladder is reached
    ends as the literal of the table. *)
Theorem known_1047_fills_listed_fields (host : Host) (text : jsstring)
  (k : string) (v : jsstring) :
  getField "RECORD NO" (extractedFields host text) = str "1047" ->
  In (k, v) known1047 ->
  getField k (extractedFields host text) = [] ->
  getField k (parseFormRecord host text) = v.
Proof.
  intros Hno Hin Hempty. unfold parseFormRecord.
  assert (K : getField k (knownValues (extractedFields host text)) = v).
  { unfold knownValues. cbv zeta. rewrite Hno.
    replace (str_eqb (str "1047") (str "1047")) with true by reflexivity.
    destruct NoDup_known as [H1 _].
    rewrite getField_applyKnown by assumption.
    rewrite (lookupKnown_In k v known1047 H1 Hin), Hempty. reflexivity. }
  rewrite truthy_backstops; rewrite K; [reflexivity|].
  eapply known1047_truthy; eassumption.
Qed.

Lemma known_1047_customer_name :
  getField "RECORD NO" (extractedFields plainHost (str "1047")) = str "1047"
  /\ In ("CUSTOMER NAME"%string, str "Caldwell Jesse") known1047
  /\ getField "CUSTOMER NAME" (extractedFields plainHost (str "1047")) = []
  /\ getField "CUSTOMER NAME" (parseFormRecord plainHost (str "1047"))
     = str "Caldwell Jesse".
Proof.
  assert (H1 : getField "RECORD NO" (extractedFields plainHost (str "1047"))
               = str "1047") by (vm_compute; reflexivity).
  assert (H2 : In ("CUSTOMER NAME"%string, str "Caldwell Jesse") known1047)
    by (do 2 right; left; reflexivity).
  assert (H3 : getField "CUSTOMER NAME" (extractedFields plainHost (str "1047"))
               = []) by (vm_compute; reflexivity).
  split; [exact H1|]. split; [exact H2|]. split; [exact H3|].
  exact (known_1047_fills_listed_fields plainHost (str "1047") "CUSTOMER NAME"
           (str "Caldwell Jesse") H1 H2 H3).
Defined.

(** C6 as stated fails for [REMARK]: it is empty in record 1047, the table
    holds no literal for it, and it stays empty. *)
Lemma remark_has_no_known_value :
  getField "RECORD NO" (extractedFields plainHost (str "1047")) = str "1047"
  /\ ~ (forall k, In k fieldNames ->
          getField k (extractedFields plainHost (str "1047")) = [] ->
          exists v, In (k, v) known1047
                    /\ getField k (parseFormRecord plainHost (str "1047")) = v).
Proof.
  split; [vm_compute; reflexivity|]. intros H.
  destruct (H "REMARK"%string) as [v [Hin _]].
  - unfold fieldNames. cbn [In]. tauto.
  - vm_compute. reflexivity.
  - unfold known1047 in Hin. cbn [In] in Hin.
    repeat (destruct Hin as [Hin|Hin]; [discriminate Hin|]). destruct Hin.
Qed.

(** ** Initials *)

Lemma join_nil_concat (l : list jsstring) : join [] l = concat l.
Proof.
  induction l as [|p l IH]; [reflexivity|].
  destruct l as [|q l]; [simpl; now rewrite app_nil_r|].
  change (join [] (p :: q :: l)) with (p ++ [] ++ join [] (q :: l)).
  rewrite IH. reflexivity.
Qed.

Lemma concat_filter_truthy (l : list jsstring) :
  concat (filter truthy l) = concat l.
Proof.
  induction l as [|p l IH]; [reflexivity|].
  destruct p; simpl; now rewrite IH.
Qed.

Lemma toLowerChar_lower_alpha x :
  isLower (toLowerChar x) = true -> isAlnumDot x = true.
Proof.
  unfold isAlnumDot, isAlpha, toLowerChar.
  destruct (isUpper x) eqn:E; simpl; [reflexivity|]. now intros ->.
Qed.

Lemma filter_isAlnumDot_letters t :
  forallb isLower (toLowerCase t) = true -> filter isAlnumDot t = t.
Proof.
  induction t as [|x t IH]; simpl; [reflexivity|]. intros H.
  apply andb_prop in H. destruct H as [Hx Ht].
  rewrite (toLowerChar_lower_alpha x Hx). f_equal. now apply IH.
Qed.

Lemma suffixes_lower s : In s suffixes -> forallb isLower s = true.
Proof.
  unfold suffixes. cbn [In]. intros H.
  repeat (destruct H as [H|H]; [subst; reflexivity|]). destruct H.
Qed.

(** A part that is one of the suffixes, whatever its case, is kept whole. *)
Lemma initialOf_suffix t :
  In (toLowerCase t) suffixes -> initialOf t = t ++ str ".".
Proof.
  intros H. unfold initialOf. cbv zeta.
  rewrite (filter_isAlnumDot_letters t (suffixes_lower _ H)).
  destruct (length t =? 0)%nat eqn:E0.
  { apply Nat.eqb_eq in E0. destruct t; [|discriminate].
    exfalso. revert H. unfold suffixes. cbn [In toLowerCase map].
    intuition discriminate. }
  destruct (length t =? 1)%nat; [reflexivity|].
  replace (existsb (str_eqb (toLowerCase t)) suffixes) with true; [reflexivity|].
  symmetry. apply existsb_exists. exists (toLowerCase t). split; [assumption|].
  apply str_eqb_refl.
Qed.

Lemma nameParts_not_blank name :
  nameParts name <> [] ->
  negb (truthy name) || str_eqb (trim name) [] = false.
Proof.
  intros H. destruct name as [|c name]; [exfalso; apply H; reflexivity|].
  simpl. destruct (str_eqb (trim (c :: name)) []) eqn:E; [|reflexivity].
  apply str_eqb_eq in E. exfalso. apply H. unfold nameParts. now rewrite E.
Qed.

Lemma generateInitials_concat name :
  nameParts name <> [] ->
  generateInitials name = concat (map initialOf (nameParts name))
  \/ exists c, nameParts name = [[c]] /\ generateInitials name = [c] ++ str ".".
Proof.
  intros H. unfold generateInitials. rewrite (nameParts_not_blank name H).
  cbv zeta. destruct (nameParts name) as [|p [|q ps]] eqn:E; [congruence| |].
  - destruct (length p =? 1)%nat eqn:L.
    + right. apply Nat.eqb_eq in L. destruct p as [|c [|d p]]; try discriminate.
      exists c. split; reflexivity.
    + left. now rewrite join_nil_concat, concat_filter_truthy.
  - left. now rewrite join_nil_concat, concat_filter_truthy.
Qed.

(** C7: "John Stuart" gives "J.S."; a part that is one of the generational
    suffixes, in any case, appears whole with its period, between the
    initials of the parts before and after it, nothing in between. *)
Theorem initials_keep_suffix (name : jsstring) (pre post : list jsstring)
  (t : jsstring) :
  nameParts name = pre ++ t :: post ->
  In (toLowerCase t) suffixes ->
  generateInitials (str "John Stuart") = str "J.S."
  /\ generateInitials name
     = concat (map initialOf pre) ++ (t ++ str ".") ++ concat (map initialOf post).
Proof.
  intros Hparts Hsuf. split; [vm_compute; reflexivity|].
  assert (Hne : nameParts name <> []) by (rewrite Hparts; now destruct pre).
  destruct (generateInitials_concat name Hne) as [->|[c [E ->]]].
  - rewrite Hparts, map_app, concat_app. cbn [map concat].
    now rewrite (initialOf_suffix t Hsuf).
  - rewrite Hparts in E. destruct pre as [|p [|p' pre]]; try discriminate.
    inversion E; subst. now rewrite app_nil_r.
Qed.

Lemma initials_keep_suffix_jr :
  nameParts (str "Robert Jr Smith") = [str "Robert"] ++ str "Jr" :: [str "Smith"]
  /\ In (toLowerCase (str "Jr")) suffixes
  /\ generateInitials (str "John Stuart") = str "J.S."
  /\ generateInitials (str "Robert Jr Smith")
     = concat (map initialOf [str "Robert"]) ++ (str "Jr" ++ str ".")
       ++ concat (map initialOf [str "Smith"]).
Proof.
  assert (H1 : nameParts (str "Robert Jr Smith")
               = [str "Robert"] ++ str "Jr" :: [str "Smith"])
    by (vm_compute; reflexivity).
  assert (H2 : In (toLowerCase (str "Jr")) suffixes) by (left; reflexivity).
  split; [exact H1|]. split; [exact H2|].
  exact (initials_keep_suffix (str "Robert Jr Smith") [str "Robert"] [str "Smith"]
           (str "Jr") H1 H2).
Defined.

(** ** Dates that match no form *)

Lemma blank_cleanInput input :
  negb (truthy input) || str_eqb (trim input) [] = true -> cleanInput input = [].
Proof.
  intros H. unfold cleanInput. apply orb_prop in H. destruct H as [H|H].
  - destruct input; [reflexivity|discriminate].
  - apply str_eqb_eq in H. now rewrite H.
Qed.

(** C8, as amended: when none of the three forms applies, [formatDate] gives
    the input back trimmed and with every run of white space collapsed to one
    blank; the client's copy does the same unless "Month Year" applies. *)
Theorem unmatched_date_is_cleaned (input : jsstring) :
  textDate (cleanInput input) = None ->
  exec usDateRegex (cleanInput input) = None ->
  exec euDateRegex (cleanInput input) = None ->
  formatDate input = cleanInput input
  /\ (monthYearDate (cleanInput input) = None ->
      Client.formatDate input = cleanInput input).
Proof.
  intros Ht Hu He. unfold formatDate, Client.formatDate.
  destruct (negb (truthy input) || str_eqb (trim input) []) eqn:B.
  - rewrite (blank_cleanInput input B). split; reflexivity.
  - cbv zeta. unfold usDate, euDate. rewrite Ht, Hu, He. cbn [firstOf].
    split; [reflexivity|]. now intros ->.
Qed.

Lemma unmatched_date_hello_world :
  textDate (cleanInput (str "hello   world")) = None
  /\ exec usDateRegex (cleanInput (str "hello   world")) = None
  /\ exec euDateRegex (cleanInput (str "hello   world")) = None
  /\ formatDate (str "hello   world") = cleanInput (str "hello   world")
  /\ (monthYearDate (cleanInput (str "hello   world")) = None ->
      Client.formatDate (str "hello   world") = cleanInput (str "hello   world")).
Proof.
  assert (H1 : textDate (cleanInput (str "hello   world")) = None)
    by (vm_compute; reflexivity).
  assert (H2 : exec usDateRegex (cleanInput (str "hello   world")) = None)
    by (vm_compute; reflexivity).
  assert (H3 : exec euDateRegex (cleanInput (str "hello   world")) = None)
    by (vm_compute; reflexivity).
  split; [exact H1|]. split; [exact H2|]. split; [exact H3|].
  exact (unmatched_date_is_cleaned (str "hello   world") H1 H2 H3).
Defined.

(** C8 as stated fails: an input that matches none of the forms comes back
    with its white space collapsed, not unchanged. *)
Lemma unmatched_date_not_unchanged :
  str "hello   world" <> []
  /\ exec textDateRegex (cleanInput (str "hello   world")) = None
  /\ exec usDateRegex (cleanInput (str "hello   world")) = None
  /\ exec euDateRegex (cleanInput (str "hello   world")) = None
  /\ formatDate (str "hello   world") = str "hello world"
  /\ formatDate (str "hello   world") <> str "hello   world".
Proof. vm_compute. repeat split; discriminate. Qed.

(** ** The matcher only reports what the pattern allows *)

Lemma consumed_app w st st' :
  rest st = w ++ rest st' -> consumed st st' = w.
Proof.
  intros E. unfold consumed. rewrite E, length_app.
  replace (length w + length (rest st') - length (rest st'))%nat with (length w) by lia.
  rewrite firstn_app, firstn_all, Nat.sub_diag. simpl. apply app_nil_r.
Qed.

Section Soundness.

Variable ic : bool.
Variable Q : nat -> jsstring -> Prop.

Lemma sound_here r (k : mstate -> option mstate) (st res : mstate) :
  k st = Some res -> lang ic r [] -> (forall i, mandatory i r = false) ->
  exists st' w new,
    k st' = Some res /\ rest st = w ++ rest st' /\ lang ic r w
    /\ caps st' = new ++ caps st /\ capsOk Q new
    /\ (forall i, mandatory i r = true -> In i (map fst new)).
Proof.
  intros Hk Hl Hm. exists st, [], []. repeat split; auto.
  - constructor.
  - intros i Hi. rewrite Hm in Hi. discriminate.
Qed.

Lemma sound_star r' :
  sound_for ic Q r' ->
  forall (k : mstate -> option mstate) fuel (st res : mstate),
    (fix loop (fuel : nat) (st0 : mstate) {struct fuel} : option mstate :=
       match fuel with
       | O => k st0
       | S fuel' =>
           match m ic r'
                   (fun st1 =>
                      if (length (rest st1) <? length (rest st0))%nat
                      then loop fuel' st1 else None) st0 with
           | Some res => Some res
           | None => k st0
           end
       end) fuel st = Some res ->
    exists st' w new,
      k st' = Some res /\ rest st = w ++ rest st' /\ lang ic (Star r') w
      /\ caps st' = new ++ caps st /\ capsOk Q new.
Proof.
  intros IH k. induction fuel as [|fuel IHf]; intros st res H.
  - exists st, [], []. repeat split; auto; try constructor.
    exists []. split; [reflexivity|constructor].
  - match type of H with
    | match ?x with _ => _ end = _ => destruct x as [res'|] eqn:E
    end.
    + inversion H; subst res'. clear H.
      apply IH in E. destruct E as [st1 [w1 [new1 [Hk [Hr [Hl [Hc [Hq _]]]]]]]].
      destruct (length (rest st1) <? length (rest st))%nat; [|discriminate].
      apply IHf in Hk.
      destruct Hk as [st2 [w2 [new2 [Hk2 [Hr2 [[ws [Hw Hws]] [Hc2 Hq2]]]]]]].
      exists st2, (w1 ++ w2), (new2 ++ new1). repeat split.
      * assumption.
      * rewrite Hr, Hr2. now rewrite app_assoc.
      * exists (w1 :: ws). split; [simpl; now rewrite Hw|now constructor].
      * rewrite Hc2, Hc. now rewrite app_assoc.
      * apply Forall_app. split; assumption.
    + exists st, [], []. repeat split; auto; try constructor.
      exists []. split; [reflexivity|constructor].
Qed.

Lemma m_sound r : groupsSat ic Q r -> sound_for ic Q r.
Proof.
  induction r as [|neg member|r1 IH1 r2 IH2|r1 IH1 r2 IH2|r' IH|i r' IH| | |];
    intros HQ k st res H; cbn [m] in H.
  - apply sound_here; auto. reflexivity.
  - destruct (rest st) as [|c s'] eqn:E; [discriminate|].
    destruct (cls_test ic neg member c) eqn:T; [|discriminate].
    exists (MkState (Some c) s' (caps st)), [c], []. repeat split; auto.
    + exists c. auto.
    + constructor.
    + intros i Hi. discriminate.
  - destruct HQ as [HQ1 HQ2].
    apply (IH1 HQ1) in H. destruct H as [st1 [w1 [n1 [H [Hr1 [Hl1 [Hc1 [Hq1 Hm1]]]]]]]].
    apply (IH2 HQ2) in H. destruct H as [st2 [w2 [n2 [H [Hr2 [Hl2 [Hc2 [Hq2 Hm2]]]]]]]].
    exists st2, (w1 ++ w2), (n2 ++ n1). repeat split.
    + assumption.
    + rewrite Hr1, Hr2. now rewrite app_assoc.
    + exists w1, w2. auto.
    + rewrite Hc2, Hc1. now rewrite app_assoc.
    + apply Forall_app. split; assumption.
    + intros i Hi. cbn [mandatory] in Hi. rewrite map_app. apply in_or_app.
      apply orb_prop in Hi. destruct Hi; [right|left]; auto.
  - destruct HQ as [HQ1 HQ2].
    destruct (m ic r1 k st) as [res'|] eqn:E.
    + inversion H; subst res'.
      apply (IH1 HQ1) in E. destruct E as [st1 [w1 [n1 [H' [Hr1 [Hl1 [Hc1 [Hq1 Hm1]]]]]]]].
      exists st1, w1, n1. repeat split; auto.
      * now left.
      * intros i Hi. cbn [mandatory] in Hi. apply andb_prop in Hi. apply Hm1, Hi.
    + apply (IH2 HQ2) in H. destruct H as [st1 [w1 [n1 [H' [Hr1 [Hl1 [Hc1 [Hq1 Hm1]]]]]]]].
      exists st1, w1, n1. repeat split; auto.
      * now right.
      * intros i Hi. cbn [mandatory] in Hi. apply andb_prop in Hi. apply Hm1, Hi.
  - apply (sound_star r' (IH HQ)) in H.
    destruct H as [st1 [w1 [n1 [H' [Hr1 [Hl1 [Hc1 Hq1]]]]]]].
    exists st1, w1, n1. repeat split; auto. intros i Hi. discriminate.
  - destruct HQ as [HQi HQ].
    apply (IH HQ) in H. destruct H as [st1 [w1 [n1 [H' [Hr1 [Hl1 [Hc1 [Hq1 Hm1]]]]]]]].
    rewrite (consumed_app w1 st st1 Hr1) in H'.
    eexists _, w1, ((i, w1) :: n1). repeat split.
    + exact H'.
    + exact Hr1.
    + exact Hl1.
    + cbn [caps]. now rewrite Hc1.
    + constructor; [apply HQi, Hl1|assumption].
    + intros j Hj. cbn [mandatory] in Hj. apply orb_prop in Hj.
      destruct Hj as [Hj|Hj]; [left; symmetry; now apply Nat.eqb_eq|right; auto].
  - destruct (prev st); [discriminate|]. apply sound_here; auto. reflexivity.
  - assert (Hk : k st = Some res) by (destruct (rest st); [exact H|discriminate]).
    apply sound_here; auto. reflexivity.
  - destruct (xorb _ _); [|discriminate]. apply sound_here; auto. reflexivity.
Qed.

Lemma searchFrom_sound r :
  groupsSat ic Q r ->
  forall s p i mt,
    searchFrom ic r p s i = Some mt ->
    exists before after,
      s = before ++ whole mt ++ after
      /\ index mt = (i + length before)%nat
      /\ lang ic r (whole mt)
      /\ capsOk Q (groups mt)
      /\ (forall j, mandatory j r = true -> In j (map fst (groups mt))).
Proof.
  intros HQ. induction s as [|c s IH]; intros p i mt H; cbn [searchFrom] in H.
  - destruct (m ic r Some (MkState p [] [])) as [st'|] eqn:E; [|discriminate].
    inversion H; subst mt; clear H. cbn [whole groups index].
    apply (m_sound r HQ) in E.
    destruct E as [st1 [w [new [Hk [Hr [Hl [Hc [Hq Hm]]]]]]]].
    inversion Hk; subst st1. cbn [rest caps] in *.
    rewrite (consumed_app w (MkState p [] []) st' Hr). rewrite app_nil_r in Hc.
    exists [], (rest st'). cbn [app length]. rewrite Hc, Nat.add_0_r. auto.
  - destruct (m ic r Some (MkState p (c :: s) [])) as [st'|] eqn:E.
    + inversion H; subst mt; clear H. cbn [whole groups index].
      apply (m_sound r HQ) in E.
      destruct E as [st1 [w [new [Hk [Hr [Hl [Hc [Hq Hm]]]]]]]].
      inversion Hk; subst st1. cbn [rest caps] in *.
      rewrite (consumed_app w (MkState p (c :: s) []) st' Hr).
      rewrite app_nil_r in Hc.
      exists [], (rest st'). cbn [app length]. rewrite Hc, Nat.add_0_r. auto.
    + apply IH in H. destruct H as [b [a [Hs [Hi rest]]]].
      exists (c :: b), a. cbn [app length]. rewrite Hs. split; [reflexivity|].
      split; [lia|exact rest].
Qed.

End Soundness.

Lemma lookupGroup_In Q i (l : list (nat * jsstring)) :
  capsOk Q l -> In i (map fst l) -> exists v, lookupGroup i l = Some v /\ Q i v.
Proof.
  induction l as [|[j v] l IH]; cbn [map In lookupGroup fst]; [tauto|].
  intros Hq Hin. inversion Hq as [|? ? Hv Hl]; subst. cbn [fst snd] in Hv.
  destruct (Nat.eqb_spec i j) as [->|Hne]; [now exists v|].
  destruct Hin as [E|Hin]; [congruence|]. now apply IH.
Qed.

(** A match of a pattern lies in the subject, its text is in the language of
    the pattern, and every group on the mandatory path holds a text that its
    sub-pattern allows. *)
Lemma exec_sound (Q : nat -> jsstring -> Prop) rx s mt :
  groupsSat (ignoreCase rx) Q (body rx) ->
  exec rx s = Some mt ->
  (exists before after,
      s = before ++ whole mt ++ after /\ index mt = length before)
  /\ lang (ignoreCase rx) (body rx) (whole mt)
  /\ (forall i, mandatory i (body rx) = true ->
        exists v, lookupGroup i (groups mt) = Some v /\ Q i v).
Proof.
  intros HQ H. unfold exec in H.
  apply (searchFrom_sound _ Q _ HQ) in H.
  destruct H as [b [a [Hs [Hi [Hl [Hq Hm]]]]]].
  split; [exists b, a; auto|]. split; [assumption|].
  intros i Hi'. apply lookupGroup_In; auto.
Qed.

Lemma grp_sound (Q : nat -> jsstring -> Prop) rx s mt i :
  groupsSat (ignoreCase rx) Q (body rx) ->
  mandatory i (body rx) = true ->
  exec rx s = Some mt -> Q i (grp i mt).
Proof.
  intros HQ Hm H. destruct (exec_sound Q rx s mt HQ H) as [_ [_ Hg]].
  destruct (Hg i Hm) as [v [E Hv]]. unfold grp. now rewrite E.
Qed.

(** ** Digit groups *)

Lemma digit_range c : isDigit c = true <-> 48 <= c <= 57.
Proof.
  unfold isDigit. rewrite andb_true_iff, !N.leb_le. tauto.
Qed.

Lemma digit_not_space c : isDigit c = true -> isSpace c = false.
Proof.
  intros H. apply digit_range in H. unfold isSpace.
  repeat (apply orb_false_intro);
    first [ apply N.eqb_neq; lia
          | apply andb_false_iff; rewrite !N.leb_gt; lia ].
Qed.

Lemma digits_no_space w :
  forallb isDigit w = true -> forallb (fun c => negb (isSpace c)) w = true.
Proof.
  induction w as [|c w IH]; cbn [forallb]; [reflexivity|]. intros H.
  apply andb_prop in H. destruct H as [Hc Hw].
  now rewrite (digit_not_space c Hc), IH.
Qed.

Lemma trimStart_no_space w :
  forallb (fun c => negb (isSpace c)) w = true -> trimStart w = w.
Proof.
  destruct w as [|c w]; cbn [forallb trimStart]; [reflexivity|]. intros H.
  apply andb_prop in H. destruct H as [Hc _].
  now destruct (isSpace c).
Qed.

Lemma forallb_rev {A} (p : A -> bool) l : forallb p (rev l) = forallb p l.
Proof.
  induction l as [|x l IH]; [reflexivity|]. cbn [rev forallb].
  rewrite forallb_app, IH. cbn [forallb]. rewrite andb_true_r. apply andb_comm.
Qed.

(** A text without white space is its own [trim]. *)
Lemma trim_no_space w :
  forallb (fun c => negb (isSpace c)) w = true -> trim w = w.
Proof.
  intros H. unfold trim, trimEnd. rewrite (trimStart_no_space w H).
  rewrite trimStart_no_space by now rewrite forallb_rev.
  apply rev_involutive.
Qed.

Lemma takeDigits_all w : forallb isDigit w = true -> takeDigits w = w.
Proof.
  induction w as [|c w IH]; cbn [forallb takeDigits]; [reflexivity|]. intros H.
  apply andb_prop in H. destruct H as [-> Hw]. now rewrite IH.
Qed.

Lemma digitGroup_truthy lo hi w : digitGroup (S lo) hi w -> truthy w = true.
Proof. intros [[H _] _]. destruct w; [simpl in H; lia|reflexivity]. Qed.

Lemma digitGroup_trim lo hi w : digitGroup lo hi w -> trim w = w.
Proof. intros [_ H]. now apply trim_no_space, digits_no_space. Qed.

(** [parseFloat] of a digit group is the number the digits spell. *)
Lemma parseFloat_digits lo hi w :
  digitGroup (S lo) hi w -> parseFloat w = ofN (digitsValue 0 w).
Proof.
  intros [[Hlen _] Hd]. unfold parseFloat. cbv zeta.
  rewrite (trimStart_no_space w (digits_no_space w Hd)).
  rewrite (takeDigits_all w Hd), skipn_all.
  destruct w; [simpl in Hlen; lia|reflexivity].
Qed.

Lemma digitsValue_step acc c w :
  isDigit c = true -> digitsValue acc (c :: w) = digitsValue (10 * acc + (c - 48)) w.
Proof. cbn [digitsValue]. now intros ->. Qed.

Lemma digitsValue_four w :
  digitGroup 1 4 w -> digitsValue 0 w <= 9999.
Proof.
  intros [[Hlo Hhi] Hd].
  destruct w as [|a [|b [|c [|d [|e w]]]]]; cbn [length] in *; try lia;
    cbn [forallb] in Hd;
    repeat match goal with
           | H : _ && _ = true |- _ => apply andb_prop in H; destruct H
           end;
    repeat (rewrite digitsValue_step by assumption); cbn [digitsValue];
    repeat match goal with
           | H : isDigit _ = true |- _ => apply digit_range in H
           end; lia.
Qed.

(** ** The basic amount *)

Lemma millionth_table (host : Host) :
  forallb (fun n => existsb (str_eqb (millionthText host n)) basicTexts)
          (map N.of_nat (seq 0 (N.to_nat 10000))) = true.
Proof. vm_compute. reflexivity. Qed.

(** Whatever the digits, the text is one of "0.000" to "0.010". *)
Lemma millionth_small (host : Host) n :
  n <= 9999 -> In (millionthText host n) basicTexts.
Proof.
  intros Hn. pose proof (millionth_table host) as T.
  rewrite forallb_forall in T.
  assert (Hin : In n (map N.of_nat (seq 0 (N.to_nat 10000)))).
  { apply in_map_iff. exists (N.to_nat n). split; [apply N2Nat.id|].
    apply in_seq. lia. }
  apply T in Hin. apply existsb_exists in Hin. destruct Hin as [t [Ht E]].
  apply str_eqb_eq in E. now rewrite E.
Qed.

Lemma basicTexts_truthy t : In t basicTexts -> truthy t = true.
Proof.
  unfold basicTexts. cbn [In]. intros H.
  repeat (destruct H as [H|H]; [subst; reflexivity|]). destruct H.
Qed.

(** ** The amounts of the third line *)

(** Taking a statement [lang ic r w] apart, for a pattern without a star. *)
Ltac lang_inv :=
  repeat match goal with
         | H : lang _ _ _ |- _ => cbn [lang] in H
         | H : exists _, _ |- _ => destruct H
         | H : _ /\ _ |- _ => destruct H
         | H : _ \/ _ |- _ => destruct H
         end;
  subst.

Lemma digit_test c : cls_test false false isDigit c = true -> isDigit c = true.
Proof. unfold cls_test. now destruct (isDigit c). Qed.

Ltac digit_group :=
  repeat match goal with
         | H : cls_test false false isDigit _ = true |- _ => apply digit_test in H
         end;
  split; [cbn [length app]; lia|];
  cbn [forallb app];
  repeat match goal with H : isDigit _ = true |- _ => rewrite H; clear H end;
  reflexivity.

Lemma lang_four_digits ic w : lang ic (rep 1 4 digit) w -> digitGroup 1 4 w.
Proof.
  destruct ic.
  { (* the amount pattern has no [i] flag; both cases for completeness *)
    cbv [rep times upTo opt digit Nat.sub]. intros H.
    assert (Hd : forall c, cls_test true false isDigit c = true -> isDigit c = true).
    { intros c. unfold cls_test, isDigit, toLowerChar, toUpperChar, isUpper, isLower.
      cbn [xorb]. intros T.
      destruct (65 <=? c) eqn:A1; destruct (c <=? 90) eqn:A2;
        destruct (97 <=? c) eqn:B1; destruct (c <=? 122) eqn:B2;
        cbn [andb] in T; rewrite ?orb_diag in T;
        try exact T;
        apply orb_prop in T; destruct T as [T|T];
        apply andb_prop in T; destruct T as [T1 T2];
        apply N.leb_le in T1, T2;
        rewrite ?N.leb_le, ?N.leb_gt in *; lia. }
    lang_inv;
      repeat match goal with
             | H : cls_test true false isDigit _ = true |- _ => apply Hd in H
             end;
      digit_group. }
  cbv [rep times upTo opt digit Nat.sub]. intros H. lang_inv; digit_group.
Qed.

Lemma amountRegex_groups :
  groupsSat false (fun _ w => digitGroup 1 4 w) (body amountRegex).
Proof.
  unfold amountRegex. cbn [body groupsSat plus].
  repeat match goal with |- _ /\ _ => split end; try exact I;
    first [ intros x; apply lang_four_digits
          | cbv [rep times upTo opt digit Nat.sub groupsSat]; tauto ].
Qed.

(** The three groups of a match of the amount pattern are digit groups. *)
Lemma amount_groups l mt i :
  exec amountRegex l = Some mt -> (i = 1 \/ i = 2 \/ i = 3)%nat ->
  digitGroup 1 4 (grp i mt).
Proof.
  intros H Hi.
  apply (grp_sound (fun _ w => digitGroup 1 4 w) amountRegex l mt i
           amountRegex_groups); [|assumption].
  destruct Hi as [ -> | [ -> | -> ] ]; reflexivity.
Qed.

Lemma amounts_thirdLine h l f mt :
  exec amountRegex l = Some mt ->
  getField "BASIC AMOUNT" (thirdLineFields h l f)
  = millionthText h (digitsValue 0 (grp 1 mt))
  /\ getField "INSURANCE AMOUNT" (thirdLineFields h l f) = grp 2 mt
  /\ getField "TOTAL AMOUNT" (thirdLineFields h l f) = grp 3 mt.
Proof.
  intros H. unfold thirdLineFields. cbv zeta. rewrite H.
  pose proof (amount_groups l mt 1%nat H (or_introl eq_refl)) as G1.
  pose proof (amount_groups l mt 2%nat H (or_intror (or_introl eq_refl))) as G2.
  pose proof (amount_groups l mt 3%nat H (or_intror (or_intror eq_refl))) as G3.
  rewrite (parseFloat_digits _ _ _ G1).
  rewrite (digitGroup_trim _ _ _ G2), (digitGroup_trim _ _ _ G3).
  destruct (exec employerRegex l); rewrite !getField_setField;
    repeat split; reflexivity.
Qed.

Lemma amounts_lineFields h l1 l2 l3 more mt :
  exec amountRegex l3 = Some mt ->
  getField "BASIC AMOUNT" (lineFields h (l1 :: l2 :: l3 :: more))
  = millionthText h (digitsValue 0 (grp 1 mt))
  /\ getField "INSURANCE AMOUNT" (lineFields h (l1 :: l2 :: l3 :: more)) = grp 2 mt
  /\ getField "TOTAL AMOUNT" (lineFields h (l1 :: l2 :: l3 :: more)) = grp 3 mt.
Proof.
  intros H. unfold lineFields. cbv zeta.
  rewrite !frame_scanFor by reflexivity.
  destruct more as [|l4 more]; cbv beta iota;
    rewrite ?frame_fourthLine by reflexivity;
    apply amounts_thirdLine; assumption.
Qed.

Lemma truthy_derived_total h f :
  truthy (getField "TOTAL AMOUNT" f) = true ->
  getField "TOTAL AMOUNT" (derivedFields h f) = getField "TOTAL AMOUNT" f.
Proof.
  intros H. unfold derivedFields. cbv zeta. rewrite H.
  rewrite andb_false_r.
  repeat match goal with
         | |- context [if ?b then _ else _] => destruct b
         end; rewrite ?getField_setField; reflexivity.
Qed.

(** A field that holds a value when the known-value ladder is reached keeps
    it to the end. *)
Lemma truthy_after_extraction h text k :
  truthy (getField k (extractedFields h text)) = true ->
  getField k (parseFormRecord h text) = getField k (extractedFields h text).
Proof.
  intros H. unfold parseFormRecord.
  rewrite truthy_backstops; rewrite truthy_knownValues; auto.
Qed.

(** X29: what the code does with a third line that its amount pattern
    matches: the three groups are one to four digits each; BASIC AMOUNT is
    the first number over a million printed with three decimals (one of
    "0.000" to "0.010", and "0.000" for 45), INSURANCE AMOUNT is the second
    group and TOTAL AMOUNT the third. *)
Theorem amounts_of_third_line (host : Host) (text l1 l2 l3 : jsstring)
  (more : list jsstring) (mt : rmatch) :
  cleanLines text = l1 :: l2 :: l3 :: more ->
  exec amountRegex l3 = Some mt ->
  (digitGroup 1 4 (grp 1 mt) /\ digitGroup 1 4 (grp 2 mt)
   /\ digitGroup 1 4 (grp 3 mt))
  /\ getField "BASIC AMOUNT" (parseFormRecord host text)
     = millionthText host (digitsValue 0 (grp 1 mt))
  /\ In (getField "BASIC AMOUNT" (parseFormRecord host text)) basicTexts
  /\ millionthText host 45 = str "0.000"
  /\ getField "INSURANCE AMOUNT" (parseFormRecord host text) = grp 2 mt
  /\ getField "TOTAL AMOUNT" (parseFormRecord host text) = grp 3 mt.
Proof.
  intros Hlines H.
  pose proof (amount_groups l3 mt 1%nat H (or_introl eq_refl)) as G1.
  pose proof (amount_groups l3 mt 2%nat H (or_intror (or_introl eq_refl))) as G2.
  pose proof (amount_groups l3 mt 3%nat H (or_intror (or_intror eq_refl))) as G3.
  destruct (amounts_lineFields host l1 l2 l3 more mt H) as [B [I T]].
  pose proof (millionth_small host _ (digitsValue_four _ G1)) as Hsmall.
  assert (EB : getField "BASIC AMOUNT" (extractedFields host text)
               = millionthText host (digitsValue 0 (grp 1 mt))).
  { unfold extractedFields. rewrite Hlines, frame_derived by reflexivity. exact B. }
  assert (EI : getField "INSURANCE AMOUNT" (extractedFields host text) = grp 2 mt).
  { unfold extractedFields. rewrite Hlines, frame_derived by reflexivity. exact I. }
  assert (ET : getField "TOTAL AMOUNT" (extractedFields host text) = grp 3 mt).
  { unfold extractedFields. rewrite Hlines, truthy_derived_total; rewrite T;
      [reflexivity|]. eapply digitGroup_truthy; eassumption. }
  split; [auto|].
  rewrite !truthy_after_extraction; rewrite ?EB, ?EI, ?ET;
    try (eapply digitGroup_truthy; eassumption);
    try (now apply basicTexts_truthy).
  repeat split; auto.
Qed.

Lemma amounts_of_third_line_witness :
  cleanLines (str "a" ++ [10] ++ str "b" ++ [10] ++ str "45 4500 4950")
  = str "a" :: str "b" :: str "45 4500 4950" :: []
  /\ exec amountRegex (str "45 4500 4950")
     = Some (MkMatch 0 (str "45 4500 4950")
                     [(3%nat, str "4950"); (2%nat, str "4500"); (1%nat, str "45")])
  /\ getField "BASIC AMOUNT"
       (parseFormRecord plainHost
          (str "a" ++ [10] ++ str "b" ++ [10] ++ str "45 4500 4950"))
     = millionthText plainHost 45
  /\ getField "INSURANCE AMOUNT"
       (parseFormRecord plainHost
          (str "a" ++ [10] ++ str "b" ++ [10] ++ str "45 4500 4950"))
     = str "4500"
  /\ getField "TOTAL AMOUNT"
       (parseFormRecord plainHost
          (str "a" ++ [10] ++ str "b" ++ [10] ++ str "45 4500 4950"))
     = str "4950".
Proof.
  assert (H1 : cleanLines (str "a" ++ [10] ++ str "b" ++ [10] ++ str "45 4500 4950")
               = str "a" :: str "b" :: str "45 4500 4950" :: [])
    by (vm_compute; reflexivity).
  assert (H2 : exec amountRegex (str "45 4500 4950")
               = Some (MkMatch 0 (str "45 4500 4950")
                         [(3%nat, str "4950"); (2%nat, str "4500"); (1%nat, str "45")]))
    by (vm_compute; reflexivity).
  split; [exact H1|]. split; [exact H2|].
  pose proof (amounts_of_third_line plainHost _ _ _ _ _ _ H1 H2) as T.
  destruct T as [_ [B [_ [_ [I Tot]]]]].
  split; [exact B|]. split; [exact I|exact Tot].
Defined.

(** C3 fails on the code: the groups of the amount pattern take at most
    four digits, so on the third line "45 4500 49500" the pattern finds no
    match, nothing is extracted, and BASIC AMOUNT and TOTAL AMOUNT are the
    placeholders "0.022" and "22880"; the record does not hold "0.045",
    "4500" and "49500". *)
Lemma five_digit_total_is_not_extracted :
  nth 2 (cleanLines (str "a" ++ [10] ++ str "b" ++ [10] ++ str "45 4500 49500")) []
  = str "45 4500 49500"
  /\ exec amountRegex (str "45 4500 49500") = None
  /\ getField "BASIC AMOUNT"
       (parseFormRecord plainHost
          (str "a" ++ [10] ++ str "b" ++ [10] ++ str "45 4500 49500"))
     = str "0.022"
  /\ getField "TOTAL AMOUNT"
       (parseFormRecord plainHost
          (str "a" ++ [10] ++ str "b" ++ [10] ++ str "45 4500 49500"))
     = str "22880"
  /\ ~ (getField "BASIC AMOUNT"
          (parseFormRecord plainHost
             (str "a" ++ [10] ++ str "b" ++ [10] ++ str "45 4500 49500"))
        = str "0.045"
        /\ getField "INSURANCE AMOUNT"
             (parseFormRecord plainHost
                (str "a" ++ [10] ++ str "b" ++ [10] ++ str "45 4500 49500"))
           = str "4500"
        /\ getField "TOTAL AMOUNT"
             (parseFormRecord plainHost
                (str "a" ++ [10] ++ str "b" ++ [10] ++ str "45 4500 49500"))
           = str "49500").
Proof.
  vm_compute. repeat split. intros [H _]. discriminate H.
Qed.

(** ** Reading a match off a subject of the same shape *)

Lemma Forall2_skipn {A B} (R : A -> B -> Prop) n l l0 :
  Forall2 R l l0 -> Forall2 R (skipn n l) (skipn n l0).
Proof.
  revert l l0. induction n as [|n IH]; intros l l0 H; [exact H|].
  destruct H; cbn [skipn]; [constructor|now apply IH].
Qed.

Lemma Forall2_same_length {A B} (R : A -> B -> Prop) l l0 :
  Forall2 R l l0 -> length l = length l0.
Proof. induction 1; cbn [length]; congruence. Qed.

Lemma skipn_next {A} n (l : list A) c l' :
  skipn n l = c :: l' -> skipn (S n) l = l' /\ (S n <= length l)%nat.
Proof.
  revert l. induction n as [|n IH]; intros l H.
  - cbn [skipn] in H. subst. cbn [skipn length]. split; [reflexivity|lia].
  - destruct l as [|x l]; [discriminate|]. cbn [skipn] in H.
    destruct (IH l H) as [E L]. cbn [length]. split; [exact E|lia].
Qed.

Section Simulation.

Variable ic : bool.
Variable K : N -> N -> Prop.
Variable s s0 : jsstring.
Hypothesis HK : Forall2 K s s0.
Hypothesis Kword : forall c c0, K c c0 -> isWord c = isWord c0.

Lemma rel_lengths st stp :
  StRel K s s0 st stp -> length (rest st) = length (prest stp).
Proof.
  intros [n [Hn [Hr [Hp _]]]]. rewrite Hr, Hp.
  apply (Forall2_same_length K), Forall2_skipn, HK.
Qed.

Lemma rel_heads st stp :
  StRel K s s0 st stp -> Forall2 K (rest st) (prest stp).
Proof.
  intros [n [Hn [Hr [Hp _]]]]. rewrite Hr, Hp. apply Forall2_skipn, HK.
Qed.

Lemma rel_word_prev st stp :
  StRel K s s0 st stp -> isWordOpt (prev st) = isWordOpt (pprev stp).
Proof.
  intros [n [_ [_ [_ [Hk _]]]]].
  destruct (prev st), (pprev stp); cbn in *; try tauto. now apply Kword.
Qed.

Lemma rel_word_next st stp :
  StRel K s s0 st stp ->
  isWordOpt (hd_error (rest st)) = isWordOpt (hd_error (prest stp)).
Proof.
  intros H. apply rel_heads in H. destruct H; cbn; [reflexivity|].
  now apply Kword.
Qed.

Lemma sim_star r' :
  (forall k kp, contRel K s s0 k kp -> contRel K s s0 (m ic r' k) (mp ic r' kp)) ->
  forall k kp, contRel K s s0 k kp ->
  forall fuel,
    contRel K s s0
      ((fix loop (fuel : nat) (st0 : mstate) {struct fuel} : option mstate :=
          match fuel with
          | O => k st0
          | S fuel' =>
              match m ic r'
                      (fun st1 =>
                         if (length (rest st1) <? length (rest st0))%nat
                         then loop fuel' st1 else None) st0 with
              | Some res => Some res
              | None => k st0
              end
          end) fuel)
      ((fix loop (fuel : nat) (st0 : pstate) {struct fuel} : option pstate :=
          match fuel with
          | O => kp st0
          | S fuel' =>
              match mp ic r'
                       (fun st1 =>
                          if (length (prest st1) <? length (prest st0))%nat
                          then loop fuel' st1 else None) st0 with
              | Some res => Some res
              | None => kp st0
              end
          end) fuel).
Proof.
  intros IH k kp Hk. induction fuel as [|fuel IHf]; intros st stp Hst.
  - now apply Hk.
  - match goal with
    | |- ORel _ _ _ (match ?a with _ => _ end) (match ?b with _ => _ end) =>
        assert (H : ORel K s s0 a b)
    end.
    { apply IH; [|assumption]. intros st1 stp1 H1.
      rewrite (rel_lengths st1 stp1 H1), (rel_lengths st stp Hst).
      destruct (_ <? _)%nat; [now apply IHf|exact I]. }
    match type of H with
    | ORel _ _ _ ?a ?b => destruct a, b; cbn [ORel] in H; try tauto
    end.
    now apply Hk.
Qed.

Lemma sim r :
  respects ic K r ->
  forall k kp, contRel K s s0 k kp -> contRel K s s0 (m ic r k) (mp ic r kp).
Proof.
  induction r as [|neg member|r1 IH1 r2 IH2|r1 IH1 r2 IH2|r' IH|i r' IH| | |];
    intros HR k kp Hk st stp Hst; cbn [m mp].
  - now apply Hk.
  - pose proof (rel_heads st stp Hst) as Hh.
    destruct Hst as [n [Hn [Hr [Hp [Hpv Hc]]]]].
    inversion Hh as [Er Ep|c c0 t t0 Hcc Htt Er Ep]; [exact I|].
    cbn [respects] in HR. rewrite (HR c c0 Hcc).
    destruct (cls_test ic neg member c0); [|exact I].
    apply Hk. rewrite Hr in Er. rewrite Hp in Ep. symmetry in Er, Ep.
    destruct (skipn_next n s c t Er) as [E1 L1].
    destruct (skipn_next n s0 c0 t0 Ep) as [E2 _].
    exists (S n). cbn [rest prest prev pprev caps pcaps Kopt]. auto.
  - destruct HR as [HR1 HR2]. apply IH1; auto.
  - destruct HR as [HR1 HR2].
    pose proof (IH1 HR1 k kp Hk st stp Hst) as H1.
    destruct (m ic r1 k st), (mp ic r1 kp stp); cbn [ORel] in H1; try tauto.
    now apply IH2.
  - rewrite (rel_lengths st stp Hst).
    apply (sim_star r' (IH HR) k kp Hk); assumption.
  - apply IH; auto. intros st1 stp1 H1. apply Hk.
    pose proof (rel_lengths st stp Hst) as L.
    pose proof (rel_lengths st1 stp1 H1) as L1.
    destruct Hst as [n [Hn [Hr [Hp [Hpv Hc]]]]].
    destruct H1 as [n1 [Hn1 [Hr1 [Hp1 [Hpv1 Hc1]]]]].
    exists n1. cbn [rest prest prev pprev caps pcaps map]. repeat split; auto.
    rewrite Hc1. f_equal. unfold denoteCap, segment, consumed.
    cbn [fst snd]. rewrite <- L, <- L1. f_equal.
    rewrite Hr, length_skipn.
    replace (length s - (length s - n))%nat with n by lia. reflexivity.
  - destruct Hst as [n [Hn [Hr [Hp [Hpv Hc]]]]].
    destruct (prev st) eqn:E1, (pprev stp) eqn:E2; cbn [Kopt] in Hpv;
      try contradiction; [exact I|].
    apply Hk. exists n. rewrite E1, E2. cbn [Kopt]. auto.
  - pose proof (rel_heads st stp Hst) as Hh.
    inversion Hh; [now apply Hk|exact I].
  - rewrite (rel_word_prev st stp Hst), (rel_word_next st stp Hst).
    destruct (xorb _ _); [now apply Hk|exact I].
Qed.

Lemma sim_search r :
  respects ic K r ->
  forall n p p0 i,
    (n <= length s)%nat -> Kopt K p p0 ->
    searchFrom ic r p (skipn n s) i
    = option_map (denoteMatch s) (searchFromP ic r p0 (skipn n s0) i).
Proof.
  intros HR n. remember (length s - n)%nat as d eqn:Hd.
  revert n Hd. induction d as [|d IH]; intros n Hd p p0 i Hn Hp.
  - assert (E : n = length s) by lia. subst n.
    assert (E0 : skipn (length s) s0 = []).
    { rewrite (Forall2_same_length K s s0 HK). apply skipn_all. }
    rewrite skipn_all, E0. cbn [searchFrom searchFromP].
    assert (R0 : StRel K s s0 (MkState p [] []) (MkP p0 [] [])).
    { exists (length s). cbn [rest prest prev pprev caps pcaps map].
      rewrite skipn_all, E0. auto. }
    assert (Hsome : contRel K s s0 Some Some) by (intros a b Hab; exact Hab).
    pose proof (sim r HR Some Some Hsome _ _ R0) as H.
    destruct (m ic r Some (MkState p [] [])) as [st'|],
             (mp ic r Some (MkP p0 [] [])) as [stp'|];
      cbn [ORel] in H; try contradiction; [|reflexivity].
    cbn [option_map]. f_equal. unfold denoteMatch. cbn [pindex pspan pgroups].
    destruct H as [n' [Hn' [Hr' [Hp' [_ Hc']]]]].
    pose proof (Forall2_same_length K _ _ (Forall2_skipn K n' s s0 HK)) as L.
    rewrite <- Hr', <- Hp' in L.
    rewrite Hc'. f_equal.
  - assert (Hlt : (n < length s)%nat) by lia.
    pose proof (Forall2_skipn K n s s0 HK) as F.
    destruct (skipn n s) as [|c t] eqn:Es.
    { apply (f_equal (@length N)) in Es. rewrite length_skipn in Es.
      cbn [length] in Es. lia. }
    destruct (skipn n s0) as [|c0 t0] eqn:Es0; [inversion F|].
    inversion F as [|? ? ? ? Hcc Htt]; subst.
    cbn [searchFrom searchFromP].
    assert (R0 : StRel K s s0 (MkState p (c :: t) []) (MkP p0 (c0 :: t0) [])).
    { exists n. cbn [rest prest prev pprev caps pcaps map]. repeat split; auto; lia. }
    assert (Hsome : contRel K s s0 Some Some) by (intros a b Hab; exact Hab).
    pose proof (sim r HR Some Some Hsome _ _ R0) as H.
    destruct (m ic r Some (MkState p (c :: t) [])) as [st'|],
             (mp ic r Some (MkP p0 (c0 :: t0) [])) as [stp'|];
      cbn [ORel] in H; try contradiction.
    + cbn [option_map]. f_equal. unfold denoteMatch. cbn [pindex pspan pgroups].
      destruct H as [n' [Hn' [Hr' [Hp' [_ Hc']]]]].
      pose proof (Forall2_same_length K _ _ (Forall2_skipn K n' s s0 HK)) as L.
      rewrite <- Hr', <- Hp' in L.
      pose proof (Forall2_same_length K _ _ Htt) as Lt.
      rewrite Hc'. f_equal. unfold consumed, segment. cbn [rest fst snd].
      cbn [length]. rewrite <- L, <- Lt. f_equal.
      assert (El : length (c :: t) = (length s - n)%nat)
        by (rewrite <- Es; apply length_skipn).
      cbn [length] in El.
      replace (length s - S (length t))%nat with n by lia. now rewrite Es.
    + destruct (skipn_next n s c t Es) as [E1 L1].
      destruct (skipn_next n s0 c0 t0 Es0) as [E2 _].
      rewrite <- E1, <- E2. apply IH; auto; lia.
Qed.

End Simulation.

(** A match on [s] can be computed on any subject [s0] that the classes of
    the pattern do not tell from [s]. *)
Lemma exec_by_shape (K : N -> N -> Prop) rx s s0 :
  (forall c c0, K c c0 -> isWord c = isWord c0) ->
  respects (ignoreCase rx) K (body rx) ->
  Forall2 K s s0 ->
  exec rx s = option_map (denoteMatch s) (execP rx s0).
Proof.
  intros Kw HR HK. unfold exec, execP.
  apply (sim_search (ignoreCase rx) K s s0 HK Kw (body rx) HR 0%nat None None 0%nat);
    [lia|exact I].
Qed.

(** ** Numbers and their digits *)

Lemma digit_in c : isDigit c = true -> In c digitChars.
Proof.
  intros H. apply digit_range in H. unfold digitChars. cbn [In].
  assert (c = 48 \/ c = 49 \/ c = 50 \/ c = 51 \/ c = 52 \/ c = 53 \/ c = 54
          \/ c = 55 \/ c = 56 \/ c = 57) by lia.
  intuition auto.
Qed.

Lemma digitsValue_acc a l :
  forallb isDigit l = true ->
  digitsValue a l = a * 10 ^ N.of_nat (length l) + digitsValue 0 l.
Proof.
  revert a. induction l as [|c l IH]; intros a H.
  - cbn. lia.
  - cbn [forallb] in H. apply andb_prop in H. destruct H as [Hc Hl].
    cbn [digitsValue length]. rewrite Hc. rewrite (IH (10 * a + (c - 48)) Hl).
    rewrite (IH (10 * 0 + (c - 48)) Hl).
    rewrite Nat2N.inj_succ, N.pow_succ_r'. lia.
Qed.

Lemma mod10_digit n : isDigit (48 + n mod 10) = true.
Proof.
  apply digit_range.
  assert (H : n mod 10 < 10) by (apply N.mod_upper_bound; discriminate).
  revert H. generalize (n mod 10). intros r H. lia.
Qed.

Lemma digitsOf_digits fuel n acc :
  forallb isDigit acc = true -> forallb isDigit (digitsOf fuel n acc) = true.
Proof.
  revert n acc. induction fuel as [|fuel IH]; intros n acc H; [exact H|].
  cbn [digitsOf].
  assert (Hd : forallb isDigit ((48 + n mod 10) :: acc) = true)
    by (cbn [forallb]; now rewrite H, mod10_digit).
  destruct (n / 10 =? 0); [exact Hd|now apply IH].
Qed.

Lemma div10_bound n k : n < 2 * k -> n / 10 < k.
Proof.
  intros H. apply N.Div0.div_lt_upper_bound. lia.
Qed.

Lemma digitsValue_digitsOf fuel n acc :
  n < 2 ^ N.of_nat fuel -> forallb isDigit acc = true ->
  digitsValue 0 (digitsOf fuel n acc)
  = n * 10 ^ N.of_nat (length acc) + digitsValue 0 acc.
Proof.
  revert n acc. induction fuel as [|fuel IH]; intros n acc Hn Ha.
  - cbn in Hn. assert (n = 0) by lia. subst. cbn [digitsOf]. lia.
  - cbn [digitsOf].
    pose proof (mod10_digit n) as Hd.
    assert (Hacc : forallb isDigit ((48 + n mod 10) :: acc) = true)
      by (cbn [forallb]; now rewrite Hd, Ha).
    assert (E : digitsValue 0 ((48 + n mod 10) :: acc)
                = n mod 10 * 10 ^ N.of_nat (length acc) + digitsValue 0 acc).
    { cbn [digitsValue]. rewrite Hd. rewrite (digitsValue_acc _ acc Ha).
      f_equal. f_equal. generalize (n mod 10). intros r. lia. }
    pose proof (N.div_mod n 10 ltac:(discriminate)) as Hdiv.
    rewrite Nat2N.inj_succ, N.pow_succ_r' in Hn.
    pose proof (div10_bound n _ Hn) as Hq.
    destruct (N.eqb_spec (n / 10) 0) as [Z|NZ].
    + rewrite E. rewrite Z in Hdiv. f_equal. f_equal.
      revert Hdiv. generalize (n mod 10). intros r Hdiv. lia.
    + rewrite (IH (n / 10) _ Hq Hacc). rewrite E. cbn [length].
      rewrite Nat2N.inj_succ, N.pow_succ_r'.
      revert Hdiv. generalize (n mod 10) (n / 10)
        (10 ^ N.of_nat (length acc)) (digitsValue 0 acc).
      intros r q P v Hdiv. subst n. nia.
Qed.

Lemma natToString_fuel n : n < 2 ^ N.of_nat (S (N.to_nat (N.log2 n))).
Proof.
  rewrite Nat2N.inj_succ, N2Nat.id.
  destruct (N.eq_dec n 0) as [->|Hn]; [cbn; lia|].
  apply N.log2_spec. lia.
Qed.

(** The digits of a number are digits, and they spell the number. *)
Lemma natToString_digits n : forallb isDigit (natToString n) = true.
Proof. unfold natToString. now apply digitsOf_digits. Qed.

Lemma digitsValue_natToString n : digitsValue 0 (natToString n) = n.
Proof.
  unfold natToString. rewrite digitsValue_digitsOf;
    [cbn; lia|apply natToString_fuel|reflexivity].
Qed.

Lemma digitsOf_not_empty fuel n acc : acc <> [] -> digitsOf fuel n acc <> [].
Proof.
  revert n acc. induction fuel as [|fuel IH]; intros n acc H; [exact H|].
  cbn [digitsOf]. destruct (n / 10 =? 0); [discriminate|].
  apply IH. discriminate.
Qed.

Lemma natToString_not_empty n : natToString n <> [].
Proof.
  unfold natToString. cbn [digitsOf]. destruct (n / 10 =? 0); [discriminate|].
  apply digitsOf_not_empty. discriminate.
Qed.

Lemma parseInt_digits w :
  w <> [] -> forallb isDigit w = true -> parseInt w = Int (digitsValue 0 w).
Proof.
  intros Hne Hd. unfold parseInt.
  rewrite (trimStart_no_space w (digits_no_space w Hd)).
  destruct w as [|c w]; [congruence|]. cbn [forallb] in Hd.
  apply andb_prop in Hd. destruct Hd as [-> _]. reflexivity.
Qed.

(** Round trip: [parseInt] reads back what [toString] printed. *)
Lemma parseInt_natToString n : parseInt (natToString n) = Int n.
Proof.
  rewrite parseInt_digits;
    [now rewrite digitsValue_natToString
    |apply natToString_not_empty|apply natToString_digits].
Qed.

Lemma digitsValue_zeros k l :
  digitsValue 0 (repeat 48 k ++ l) = digitsValue 0 l.
Proof. induction k as [|k IH]; [reflexivity|]. cbn. exact IH. Qed.

Lemma digitsValue_padStart2 l : digitsValue 0 (padStart2 l) = digitsValue 0 l.
Proof. apply digitsValue_zeros. Qed.

Lemma padStart2_digits l :
  forallb isDigit l = true -> forallb isDigit (padStart2 l) = true.
Proof.
  intros H. unfold padStart2. rewrite forallb_app, H, andb_true_r.
  induction (2 - length l)%nat; [reflexivity|]. cbn. assumption.
Qed.

(** ** Classes that do not tell digits apart *)

Lemma sameKind_word c c0 : sameKind c c0 -> isWord c = isWord c0.
Proof.
  intros [->|[H H0]]; [reflexivity|]. unfold isWord. now rewrite H, H0, !orb_true_r.
Qed.

Lemma respects_cls ic neg member :
  forallb (fun d => Bool.eqb (cls_test ic neg member d) (cls_test ic neg member 48))
          digitChars = true ->
  forall c c0, sameKind c c0 -> cls_test ic neg member c = cls_test ic neg member c0.
Proof.
  intros H c c0 [->|[Hc Hc0]]; [reflexivity|].
  rewrite forallb_forall in H.
  pose proof (H c (digit_in c Hc)) as E. pose proof (H c0 (digit_in c0 Hc0)) as E0.
  apply Bool.eqb_prop in E, E0. congruence.
Qed.

Ltac respects_tac :=
  repeat match goal with |- _ /\ _ => split end;
  try exact I;
  apply respects_cls; vm_compute; reflexivity.

Lemma respects_textDate : respects true sameKind (body textDateRegex).
Proof.
  cbv [textDateRegex body respects plus opt rep upTo times chr digit space az Nat.sub].
  respects_tac.
Qed.

Lemma respects_usDate : respects false sameKind (body usDateRegex).
Proof.
  cbv [usDateRegex body respects plus opt rep upTo times chr digit space Nat.sub].
  respects_tac.
Qed.

Lemma respects_euDate : respects false sameKind (body euDateRegex).
Proof.
  cbv [euDateRegex body respects plus opt rep upTo times chr digit space Nat.sub].
  respects_tac.
Qed.

Lemma respects_monthYear : respects true sameKind (body monthYearRegex).
Proof.
  cbv [monthYearRegex body respects plus opt rep upTo times chr digit space az Nat.sub].
  respects_tac.
Qed.

(** ** Dates in canonical form *)

Ltac kind_list :=
  repeat (constructor;
          [first [ left; reflexivity
                 | right; split; [assumption|reflexivity] ]|]);
  constructor.

(** Computing [exec rx s] on the subject [s0], all of whose digits are
    zeros. *)
Ltac by_shape rx s s0 Hresp :=
  rewrite (exec_by_shape sameKind rx s s0 sameKind_word Hresp ltac:(kind_list));
  let v := eval vm_compute in (execP rx s0) in
  replace (execP rx s0) with v by (vm_compute; reflexivity);
  cbn [option_map denoteMatch denoteCap segment map firstn skipn length fst snd
       pindex pspan pgroups Nat.sub].

Lemma collapseWs_no_space b w :
  forallb (fun c => negb (isSpace c)) w = true -> collapseWs b w = w.
Proof.
  revert b. induction w as [|c w IH]; intros b H; [reflexivity|].
  cbn [forallb] in H. apply andb_prop in H. destruct H as [Hc Hw].
  cbn [collapseWs]. destruct (isSpace c); [discriminate|]. now rewrite IH.
Qed.

Lemma cleanInput_no_space w :
  forallb (fun c => negb (isSpace c)) w = true -> cleanInput w = w.
Proof.
  intros H. unfold cleanInput. rewrite (trim_no_space w H).
  now apply collapseWs_no_space.
Qed.

Lemma not_blank_no_space c w :
  forallb (fun c => negb (isSpace c)) (c :: w) = true ->
  negb (truthy (c :: w)) || str_eqb (trim (c :: w)) [] = false.
Proof. intros H. now rewrite (trim_no_space _ H). Qed.

Ltac digits_hyps H :=
  cbn [forallb] in H;
  repeat match type of H with
         | _ && _ = true =>
             let H1 := fresh "D" in
             apply andb_prop in H; destruct H as [H1 H]
         end.

Ltac all_digits :=
  cbn [forallb];
  repeat match goal with
         | D : isDigit ?c = true |- context [isDigit ?c] => rewrite D
         end;
  reflexivity.

Ltac no_space_tac :=
  cbn [forallb];
  repeat match goal with
         | D : isDigit ?c = true |- context [isSpace ?c] =>
             rewrite (digit_not_space c D)
         end;
  reflexivity.

(** A string in canonical form is read by the second attempt, as month, day
    and year, in either copy. *)
Lemma formatDateOn_canonical (sd : side) a b c d e f g h :
  forallb isDigit [a; b; c; d; e; f; g; h] = true ->
  formatDateOn sd [a; b; 47; c; d; 47; e; f; g; h]
  = slashDate (Int (digitsValue 0 [a; b])) (Int (digitsValue 0 [c; d]))
              (adjustYear (Int (digitsValue 0 [e; f; g; h])))
  /\ usDate [a; b; 47; c; d; 47; e; f; g; h] <> None.
Proof.
  intros H. digits_hyps H.
  assert (NS : forallb (fun c => negb (isSpace c))
                       [a; b; 47; c; d; 47; e; f; g; h] = true) by no_space_tac.
  assert (U : exec usDateRegex [a; b; 47; c; d; 47; e; f; g; h]
              = Some (MkMatch 0 [a; b; 47; c; d; 47; e; f; g; h]
                        [(3%nat, [e; f; g; h]); (2%nat, [c; d]); (1%nat, [a; b])])).
  { by_shape usDateRegex [a; b; 47; c; d; 47; e; f; g; h]
             [48; 48; 47; 48; 48; 47; 48; 48; 48; 48] respects_usDate.
    reflexivity. }
  assert (T : exec textDateRegex [a; b; 47; c; d; 47; e; f; g; h] = None).
  { by_shape textDateRegex [a; b; 47; c; d; 47; e; f; g; h]
             [48; 48; 47; 48; 48; 47; 48; 48; 48; 48] respects_textDate.
    reflexivity. }
  split.
  - destruct sd; unfold formatDateOn, formatDate, Client.formatDate;
      rewrite (not_blank_no_space _ _ NS); cbv zeta;
      rewrite (cleanInput_no_space _ NS); unfold textDate, usDate; rewrite T, U;
      cbn [firstOf]; unfold grp; cbn [groups lookupGroup Nat.eqb];
      rewrite !parseInt_digits by first [discriminate|all_digits];
      reflexivity.
  - unfold usDate. rewrite U. discriminate.
Qed.

(** What either copy of [formatDate] can return: nothing, the template
    filled in (the client's "Month Year" fills it with the day 15), or the
    cleaned input when the second attempt did not apply. *)
Lemma formatDateOn_cases (sd : side) x :
  formatDateOn sd x = []
  \/ (exists A B P, formatDateOn sd x = slashDate A B (adjustYear P))
  \/ (formatDateOn sd x = cleanInput x /\ usDate (cleanInput x) = None).
Proof.
  assert (S3 : forall tl,
             firstOf (textDate (cleanInput x))
               (firstOf (usDate (cleanInput x))
                  (firstOf (euDate (cleanInput x)) tl)) = tl
             /\ usDate (cleanInput x) = None
             \/ exists A B P,
                 firstOf (textDate (cleanInput x))
                   (firstOf (usDate (cleanInput x))
                      (firstOf (euDate (cleanInput x)) tl))
                 = slashDate A B (adjustYear P)).
  { intros tl.
    destruct (textDate (cleanInput x)) as [t|] eqn:T.
    { right. unfold textDate in T.
      destruct (exec textDateRegex (cleanInput x)); [|discriminate].
      destruct (findMonth _); [|discriminate].
      inversion T. cbn [firstOf]. eauto. }
    destruct (usDate (cleanInput x)) as [u|] eqn:U.
    { right. unfold usDate in U.
      destruct (exec usDateRegex (cleanInput x)); [|discriminate].
      inversion U. cbn [firstOf]. eauto. }
    destruct (euDate (cleanInput x)) as [v|] eqn:V.
    { right. unfold euDate in V.
      destruct (exec euDateRegex (cleanInput x)); [|discriminate].
      destruct (_ && _); inversion V; cbn [firstOf]; eauto. }
    left. cbn [firstOf]. auto. }
  destruct sd; unfold formatDateOn, formatDate, Client.formatDate;
    (destruct (negb (truthy x) || str_eqb (trim x) []); [now left|]); right;
    cbv zeta.
  - destruct (S3 (cleanInput x)) as [[E U]|E]; [right|left]; auto.
  - destruct (S3 (firstOf (monthYearDate (cleanInput x)) (cleanInput x)))
      as [[E U]|E]; [|left; exact E].
    rewrite E. destruct (monthYearDate (cleanInput x)) as [w|] eqn:M.
    + left. unfold monthYearDate in M.
      destruct (exec monthYearRegex (cleanInput x)) as [mm|]; [|discriminate].
      destruct (findMonth _) as [mi|]; [|discriminate].
      inversion M. cbn [firstOf].
      exists (Int (mi + 1)), (Int 15), (parseInt (grp 2 mm)). reflexivity.
    + right. cbn [firstOf]. auto.
Qed.

(** Digits, a slash, the rest: the split is unique. *)
Lemma split_at_slash ds ds' r r' :
  forallb isDigit ds = true -> forallb isDigit ds' = true ->
  ds ++ 47 :: r = ds' ++ 47 :: r' -> ds = ds' /\ r = r'.
Proof.
  revert ds'. induction ds as [|x ds IH]; intros [|x' ds'] H H' E;
    cbn [app forallb] in *.
  - inversion E. auto.
  - inversion E; subst. apply andb_prop in H'. destruct H' as [H' _]. discriminate.
  - inversion E; subst. apply andb_prop in H. destruct H as [H _]. discriminate.
  - inversion E; subst. apply andb_prop in H, H'.
    destruct H as [_ H], H' as [_ H'].
    destruct (IH ds' H H' ltac:(assumption)) as [-> ->]. auto.
Qed.

Lemma Int_inj a b : Int a = Int b -> a = b.
Proof. congruence. Qed.

Lemma adjustYear_large P n : adjustYear P = Int n -> 100 <= n.
Proof.
  destruct P as [|p]; unfold adjustYear; [discriminate|].
  destruct (N.ltb_spec p 100); [destruct (p <? 50)|]; intros E;
    apply Int_inj in E; lia.
Qed.

Lemma numToString_digits_Int A w :
  numToString A = w -> forallb isDigit w = true -> exists k, A = Int k.
Proof.
  destruct A as [|k]; [|eauto]. cbn [numToString]. intros <- H. discriminate.
Qed.

Lemma padStart2_numToString_digits A x y :
  padStart2 (numToString A) = [x; y] -> isDigit x = true ->
  exists k, A = Int k /\ digitsValue 0 [x; y] = k.
Proof.
  destruct A as [|k]; intros E Hx.
  - vm_compute in E. discriminate E.
  - exists k. split; [reflexivity|]. cbn [numToString] in E.
    now rewrite <- E, digitsValue_padStart2, digitsValue_natToString.
Qed.

Lemma pad_head_digit A x tl tl' :
  padStart2 (numToString A) ++ tl = x :: tl' -> isDigit x = true ->
  forallb isDigit (padStart2 (numToString A)) = true.
Proof.
  destruct A as [|k]; intros E Hx.
  - change (padStart2 (numToString NaN)) with [78; 97; 78] in E.
    cbn [app] in E. injection E as Ex _. subst x. discriminate Hx.
  - apply padStart2_digits, natToString_digits.
Qed.

(** The template filled in, when it comes out in canonical form, is read
    back to itself. *)
Lemma slashDate_reads_back A B P a b c d e f g h :
  forallb isDigit [a; b; c; d; e; f; g; h] = true ->
  slashDate A B (adjustYear P) = [a; b; 47; c; d; 47; e; f; g; h] ->
  slashDate (Int (digitsValue 0 [a; b])) (Int (digitsValue 0 [c; d]))
            (adjustYear (Int (digitsValue 0 [e; f; g; h])))
  = slashDate A B (adjustYear P).
Proof.
  intros Hd Ey. digits_hyps Hd.
  unfold slashDate in Ey.
  change [a; b; 47; c; d; 47; e; f; g; h]
    with ([a; b] ++ 47 :: [c; d] ++ 47 :: [e; f; g; h]) in Ey.
  change (str "/") with [47] in Ey. cbn [app] in Ey.
  change (padStart2 (numToString A) ++ 47 :: padStart2 (numToString B)
          ++ 47 :: numToString (adjustYear P)
          = [a; b] ++ 47 :: [c; d] ++ 47 :: [e; f; g; h]) in Ey.
  pose proof (pad_head_digit A a _ _ Ey D) as HA.
  apply split_at_slash in Ey; [|exact HA|all_digits].
  destruct Ey as [EA Ey].
  pose proof (pad_head_digit B c _ _ Ey D1) as HB.
  apply split_at_slash in Ey; [|exact HB|all_digits].
  destruct Ey as [EB EY].
  destruct (padStart2_numToString_digits A a b EA D) as [ka [-> Eka]].
  destruct (padStart2_numToString_digits B c d EB D1) as [kb [-> Ekb]].
  destruct (adjustYear P) as [|n] eqn:EP; [discriminate EY|].
  cbn [numToString] in EY.
  assert (En : digitsValue 0 [e; f; g; h] = n)
    by (rewrite <- EY; apply digitsValue_natToString).
  pose proof (adjustYear_large P n EP) as Ln.
  rewrite Eka, Ekb, En.
  assert (EA' : adjustYear (Int n) = Int n).
  { cbn [adjustYear]. destruct (N.ltb_spec n 100); [lia|reflexivity]. }
  rewrite EA'. reflexivity.
Qed.

(** C9: in the client's copy of [formatDate] and in the server's, when the
    result for [x] is in the canonical form, two digits, a slash, two
    digits, a slash and four digits, formatting that result again gives it
    back. *)
Theorem formatDate_idempotent_on_canonical (sd : side) (x : jsstring) :
  canonical (formatDateOn sd x) ->
  formatDateOn sd (formatDateOn sd x) = formatDateOn sd x.
Proof.
  intros [a [b [c [d [e [f [g [h [Ey Hd]]]]]]]]].
  destruct (formatDateOn_canonical sd a b c d e f g h Hd) as [F U].
  rewrite Ey at 1. rewrite F.
  destruct (formatDateOn_cases sd x) as [E|[[A [B [P E]]]|[E N]]].
  - rewrite E in Ey. discriminate.
  - rewrite E in *. now apply slashDate_reads_back.
  - exfalso. apply U. rewrite <- Ey, E. exact N.
Qed.

Lemma formatDate_idempotent_witness :
  (formatDateOn OnClient (str "June 2007") = str "06/15/2007"
   /\ formatDateOn OnClient (formatDateOn OnClient (str "June 2007"))
      = formatDateOn OnClient (str "June 2007"))
  /\ (formatDateOn OnServer (str "June 4 07") = str "06/04/2007"
      /\ formatDateOn OnServer (formatDateOn OnServer (str "June 4 07"))
         = formatDateOn OnServer (str "June 4 07")).
Proof.
  assert (E1 : formatDateOn OnClient (str "June 2007") = str "06/15/2007")
    by (vm_compute; reflexivity).
  assert (E2 : formatDateOn OnServer (str "June 4 07") = str "06/04/2007")
    by (vm_compute; reflexivity).
  assert (H1 : canonical (formatDateOn OnClient (str "June 2007"))).
  { exists 48, 54, 49, 53, 50, 48, 48, 55. split; [exact E1|reflexivity]. }
  assert (H2 : canonical (formatDateOn OnServer (str "June 4 07"))).
  { exists 48, 54, 48, 52, 50, 48, 48, 55. split; [exact E2|reflexivity]. }
  split; split; [exact E1| |exact E2|].
  - exact (formatDate_idempotent_on_canonical OnClient (str "June 2007") H1).
  - exact (formatDate_idempotent_on_canonical OnServer (str "June 4 07") H2).
Defined.

(** ** Numbers printed as they were written *)

Lemma digitsValue_snoc a s c :
  forallb isDigit s = true -> isDigit c = true ->
  digitsValue a (s ++ [c]) = 10 * digitsValue a s + (c - 48).
Proof.
  revert a. induction s as [|x s IH]; intros a Hs Hc.
  - cbn [app digitsValue]. rewrite Hc. reflexivity.
  - cbn [forallb] in Hs. apply andb_prop in Hs. destruct Hs as [Hx Hs].
    cbn [app digitsValue]. rewrite Hx. apply IH; assumption.
Qed.

Lemma digitsValue_positive c s :
  isDigit c = true -> c <> 48 -> forallb isDigit s = true ->
  0 < digitsValue 0 (c :: s).
Proof.
  intros Hc Hn Hs. cbn [digitsValue]. rewrite Hc.
  rewrite (digitsValue_acc _ s Hs). apply digit_range in Hc.
  assert (P : 0 < 10 ^ N.of_nat (length s))
    by (apply N.neq_0_lt_0, N.pow_nonzero; discriminate).
  revert P. generalize (10 ^ N.of_nat (length s)) (digitsValue 0 s).
  intros p v P. nia.
Qed.

Lemma digitsOf_step fuel q c acc :
  isDigit c = true ->
  digitsOf (S fuel) (10 * q + (c - 48)) acc
  = if q =? 0 then c :: acc else digitsOf fuel q (c :: acc).
Proof.
  intros Hc. apply digit_range in Hc. cbn [digitsOf].
  assert (R : c - 48 < 10) by lia.
  assert (Em : (10 * q + (c - 48)) mod 10 = c - 48).
  { rewrite N.add_comm, N.mul_comm, N.Div0.mod_add. now apply N.mod_small. }
  assert (Ed : (10 * q + (c - 48)) / 10 = q).
  { rewrite N.add_comm, N.mul_comm, N.div_add by discriminate.
    rewrite (N.div_small _ _ R). reflexivity. }
  rewrite Em, Ed. replace (48 + (c - 48)) with c by lia. reflexivity.
Qed.

Lemma digitsOf_written fuel s acc :
  s <> [] -> forallb isDigit s = true ->
  (hd 48 s <> 48 \/ length s = 1%nat) ->
  digitsValue 0 s < 2 ^ N.of_nat (S fuel) ->
  digitsOf (S fuel) (digitsValue 0 s) acc = s ++ acc.
Proof.
  revert s acc. induction fuel as [|fuel IH]; intros s acc Hne Hd Hz Hb.
  all: destruct (exists_last Hne) as [s' [c ->]].
  all: rewrite forallb_app in Hd; apply andb_prop in Hd;
    destruct Hd as [Hs' Hc]; cbn [forallb] in Hc; rewrite andb_true_r in Hc.
  all: rewrite (digitsValue_snoc 0 s' c Hs' Hc) in *.
  all: rewrite (digitsOf_step _ _ c acc Hc).
  all: destruct s' as [|x t]; [reflexivity|].
  all: cbn [forallb] in Hs'; apply andb_prop in Hs'; destruct Hs' as [Hx Ht].
  all: assert (Nx : x <> 48)
    by (destruct Hz as [Hz|Hz];
        [exact Hz|cbn [app length] in Hz; rewrite length_app in Hz;
                  cbn [length] in Hz; lia]).
  all: pose proof (digitsValue_positive x t Hx Nx Ht) as Pq.
  all: destruct (N.eqb_spec (digitsValue 0 (x :: t)) 0) as [Z|_];
    [rewrite Z in Pq; now apply N.lt_irrefl in Pq|].
  - change (2 ^ N.of_nat 1) with 2 in Hb. revert Hb Pq.
    generalize (digitsValue 0 (x :: t)). intros v Hb Pq. lia.
  - rewrite IH.
    + now rewrite <- app_assoc.
    + discriminate.
    + cbn [forallb]. now rewrite Hx, Ht.
    + left. exact Nx.
    + rewrite Nat2N.inj_succ, N.pow_succ_r' in Hb.
      revert Hb. generalize (2 ^ N.of_nat (S fuel)) (digitsValue 0 (x :: t)).
      intros p v Hb. lia.
Qed.

(** A number written without needless zeros is printed as it was written. *)
Lemma natToString_written s :
  s <> [] -> forallb isDigit s = true ->
  (hd 48 s <> 48 \/ length s = 1%nat) ->
  natToString (digitsValue 0 s) = s.
Proof.
  intros Hne Hd Hz. unfold natToString.
  rewrite (digitsOf_written _ s [] Hne Hd Hz (natToString_fuel _)).
  apply app_nil_r.
Qed.

(** The padded print of a group of one or two digits: the group, with a zero
    in front of a single digit. *)
Lemma padStart2_written w :
  digitGroup 1 2 w ->
  padStart2 (numToString (Int (digitsValue 0 w))) = twoDigits w.
Proof.
  intros [L F]. cbn [numToString].
  destruct w as [|a [|b [|? ?]]]; cbn [length] in L; try lia.
  - rewrite natToString_written; [reflexivity|discriminate|exact F|now right].
  - digits_hyps F. destruct (N.eq_dec a 48) as [->|Na].
    + change (digitsValue 0 [48; b]) with (digitsValue 0 [b]).
      rewrite natToString_written;
        [reflexivity|discriminate|all_digits|now right].
    + rewrite natToString_written;
        [reflexivity|discriminate|all_digits|now left].
Qed.

Lemma digitsValue_quad a b c d :
  forallb isDigit [a; b; c; d] = true ->
  digitsValue 0 [a; b; c; d]
  = 1000 * (a - 48) + 100 * (b - 48) + 10 * (c - 48) + (d - 48).
Proof.
  intros F. digits_hyps F. cbn [digitsValue]. rewrite D, D0, D1, D2. lia.
Qed.

(** The print of a year after the two-digit rule: four digits. *)
Lemma year_written y :
  plainYear y ->
  numToString (adjustYear (Int (digitsValue 0 y))) = fourDigitYear y.
Proof.
  intros [F [L|[L Nz]]].
  - destruct y as [|a [|b [|? ?]]]; try discriminate L. digits_hyps F.
    pose proof (proj1 (digit_range a) D) as Ra.
    pose proof (proj1 (digit_range b) D0) as Rb.
    assert (E : digitsValue 0 [a; b] = 10 * (a - 48) + (b - 48))
      by (cbn [digitsValue]; rewrite D, D0; lia).
    cbn [adjustYear fourDigitYear].
    destruct (N.ltb_spec (digitsValue 0 [a; b]) 100) as [_|C]; [|lia].
    destruct (N.ltb_spec (digitsValue 0 [a; b]) 50) as [V|V];
      destruct (N.ltb_spec a 53) as [A|A]; try lia; cbn [numToString];
      change (str "20") with [50; 48]; change (str "19") with [49; 57];
      cbn [app].
    + replace (2000 + digitsValue 0 [a; b]) with (digitsValue 0 [50; 48; a; b])
        by (rewrite digitsValue_quad, E by all_digits; lia).
      apply natToString_written;
        [discriminate|all_digits|left; discriminate].
    + replace (1900 + digitsValue 0 [a; b]) with (digitsValue 0 [49; 57; a; b])
        by (rewrite digitsValue_quad, E by all_digits; lia).
      apply natToString_written;
        [discriminate|all_digits|left; discriminate].
  - destruct y as [|a [|b [|c [|d [|? ?]]]]]; try discriminate L.
    cbn [hd] in Nz.
    assert (Hy : forallb isDigit [a; b; c; d] = true) by exact F.
    digits_hyps F.
    pose proof (proj1 (digit_range a) D) as Ra.
    pose proof (proj1 (digit_range b) D0) as Rb.
    pose proof (proj1 (digit_range c) D1) as Rc.
    pose proof (proj1 (digit_range d) D2) as Rd.
    pose proof (digitsValue_quad a b c d Hy) as E.
    cbn [adjustYear fourDigitYear].
    destruct (N.ltb_spec (digitsValue 0 [a; b; c; d]) 100) as [C|_]; [lia|].
    cbn [numToString].
    apply natToString_written; [discriminate|exact Hy|now left].
Qed.


Lemma twoDigits_shape w :
  digitGroup 1 2 w ->
  exists a b, twoDigits w = [a; b] /\ isDigit a = true /\ isDigit b = true.
Proof.
  intros [L F]. destruct w as [|a [|b [|? ?]]]; cbn [length] in L; try lia;
    digits_hyps F; cbn [twoDigits]; eauto 6.
Qed.

Lemma fourDigitYear_shape y :
  plainYear y ->
  exists a b c d, fourDigitYear y = [a; b; c; d]
                  /\ forallb isDigit [a; b; c; d] = true.
Proof.
  intros [F [L|[L _]]].
  - destruct y as [|a [|b [|? ?]]]; try discriminate L. digits_hyps F.
    cbn [fourDigitYear]. destruct (a <? 53); cbn [str app];
      do 4 eexists; (split; [reflexivity|]); cbn [forallb];
      rewrite D, D0; reflexivity.
  - destruct y as [|a [|b [|c [|d [|? ?]]]]]; try discriminate L.
    cbn [fourDigitYear]. eauto 6.
Qed.

(** The format spelled out is the canonical form. *)
Lemma mmddyyyy_canonical m d y :
  digitGroup 1 2 m -> digitGroup 1 2 d -> plainYear y ->
  canonical (mmddyyyy m d y).
Proof.
  intros Hm Hd Hy.
  destruct (twoDigits_shape m Hm) as [a [b [Em [Da Db]]]].
  destruct (twoDigits_shape d Hd) as [c [e [Ed [Dc De]]]].
  destruct (fourDigitYear_shape y Hy) as [f [g [h [i [Ey Dy]]]]].
  unfold mmddyyyy. rewrite Em, Ed, Ey. digits_hyps Dy.
  exists a, b, c, e, f, g, h, i. split; [reflexivity|all_digits].
Qed.

(** ** The European form *)

(** The subject with a zero for every digit that is a variable. *)
Ltac shape_of s :=
  lazymatch s with
  | @nil _ => constr:(@nil N)
  | ?c :: ?t =>
      let t0 := shape_of t in
      match c with
      | _ => let _ := match goal with _ => is_var c end in constr:(48 :: t0)
      | _ => constr:(c :: t0)
      end
  end.

Ltac split_group H :=
  let L := fresh "L" in
  let F := fresh "F" in
  destruct H as [L F]; cbn [length] in L; digits_hyps F.




Lemma plainYear_group y : plainYear y -> digitGroup 2 4 y.
Proof. intros [F [L|[L _]]]; (split; [lia|exact F]). Qed.





(** ** Record starts found twice *)

(** C4 fails on the code: in the third pass a line that brings both an "@"
    and a date is pushed once by each test, so its index is there twice, the
    first span is empty and a record of placeholders comes out of it. *)
Lemma record_start_pushed_twice :
  cleanLines (str "hello" ++ [10] ++ str "foo a@b 1/2/2000")
  = [str "hello"; str "foo a@b 1/2/2000"]
  /\ findRecordStarts [str "hello"; str "foo a@b 1/2/2000"] = [1; 1]%nat
  /\ ~ NoDup (findRecordStarts [str "hello"; str "foo a@b 1/2/2000"])
  /\ recordSpans [1; 1]%nat 2 = [(1, 1); (1, 2)]%nat
  /\ parseFormData plainHost (str "hello" ++ [10] ++ str "foo a@b 1/2/2000")
     = Returned [blankRecord; blankRecord].
Proof.
  assert (E : findRecordStarts [str "hello"; str "foo a@b 1/2/2000"] = [1; 1]%nat)
    by (vm_compute; reflexivity).
  split; [vm_compute; reflexivity|]. split; [exact E|]. split.
  - rewrite E. intros H. inversion H as [|? ? Hn _]; subst. apply Hn. now left.
  - split; vm_compute; reflexivity.
Qed.

(** * Further properties of the code *)

(** ** Where records start *)

Lemma inRange_push n l i : inRange n l -> (i < n)%nat -> inRange n (l ++ [i]).
Proof. intros H Hi. apply Forall_app. split; [exact H|]. now constructor. Qed.

Ltac range_tac :=
  repeat first
    [ assumption
    | apply inRange_push
    | match goal with |- inRange _ (if ?b then _ else _) => destruct b end ].

Lemma forEachLine_inRange n (f : list nat -> jsstring -> nat -> list nat) :
  (forall acc line index,
      (index < n)%nat -> inRange n acc -> inRange n (f acc line index)) ->
  forall ls start acc,
    (start + length ls <= n)%nat -> inRange n acc ->
    inRange n (forEachLine f ls start acc).
Proof.
  intros Hf. induction ls as [|l ls IH]; intros start acc Hs Ha; [exact Ha|].
  cbn [forEachLine]. cbn [length] in Hs. apply IH; [lia|].
  apply Hf; [lia|exact Ha].
Qed.

Lemma primaryStep_inRange n acc line index :
  (index < n)%nat -> inRange n acc -> inRange n (primaryStep acc line index).
Proof.
  intros Hi Ha. unfold primaryStep.
  destruct (existsb _ _); [now apply inRange_push|exact Ha].
Qed.

Lemma secondaryStep_inRange n lines acc line index :
  (index < n)%nat -> inRange n acc ->
  inRange n (secondaryStep lines acc line index).
Proof. intros Hi Ha. unfold secondaryStep. cbv zeta. range_tac. Qed.

Lemma aggressiveStep_inRange n lines acc line index :
  (index < n)%nat -> inRange n acc ->
  inRange n (aggressiveStep lines acc line index).
Proof. intros Hi Ha. unfold aggressiveStep. cbv zeta. range_tac. Qed.

Lemma insertIndex_inRange n x l :
  (x < n)%nat -> inRange n l -> inRange n (insertIndex x l).
Proof.
  unfold inRange. intros Hx. induction l as [|y l IH]; intros H; cbn [insertIndex].
  - now constructor.
  - inversion H as [|? ? Hy Hl]; subst. destruct (x <? y)%nat.
    + constructor; [exact Hx|exact H].
    + constructor; [exact Hy|exact (IH Hl)].
Qed.

Lemma sortIndices_inRange n l : inRange n l -> inRange n (sortIndices l).
Proof.
  unfold sortIndices. assert (H0 : inRange n []) by constructor.
  revert H0. generalize (@nil nat). induction l as [|x l IH]; intros acc Ha H.
  - exact Ha.
  - inversion H as [|? ? Hx Hl]; subst. cbn [fold_left]. apply IH; [|exact Hl].
    apply insertIndex_inRange; [exact Hx|exact Ha].
Qed.

Lemma stepIndices_inRange fuel i dist n : inRange n (stepIndices fuel i dist n).
Proof.
  unfold inRange. revert i. induction fuel as [|fuel IH]; intros i;
    cbn [stepIndices]; [constructor|].
  destruct (Nat.ltb_spec i n) as [Hi|Hi]; [|constructor].
  constructor; [exact Hi|apply IH].
Qed.

Lemma periodicityStep_inRange lines acc dist :
  inRange (length lines) acc ->
  inRange (length lines) (periodicityStep lines acc dist).
Proof.
  intros Ha. unfold periodicityStep.
  destruct (5 <? length acc)%nat; [exact Ha|].
  destruct (sortCandidates _); [exact Ha|apply stepIndices_inRange].
Qed.

Lemma findRecordStarts_inRange lines :
  inRange (length lines) (findRecordStarts lines).
Proof.
  unfold findRecordStarts. cbv zeta.
  assert (P : inRange (length lines) (forEachLine primaryStep lines 0 [])).
  { apply forEachLine_inRange;
      [intros; now apply primaryStep_inRange|cbn; lia|constructor]. }
  set (p := forEachLine primaryStep lines 0 []) in *.
  assert (S2 : inRange (length lines)
                 (if (length p <? 5)%nat
                  then forEachLine (secondaryStep lines) lines 0 p else p)).
  { destruct (length p <? 5)%nat; [|exact P].
    apply forEachLine_inRange;
      [intros; now apply secondaryStep_inRange|cbn; lia|exact P]. }
  set (q := if (length p <? 5)%nat then _ else p) in *.
  assert (S3 : inRange (length lines)
                 (if (length q <? 10)%nat
                  then forEachLine (aggressiveStep lines) lines 0 q else q)).
  { destruct (length q <? 10)%nat; [|exact S2].
    apply forEachLine_inRange;
      [intros; now apply aggressiveStep_inRange|cbn; lia|exact S2]. }
  set (r := if (length q <? 10)%nat then _ else q) in *.
  pose proof (sortIndices_inRange _ r S3) as S4.
  destruct (length (sortIndices r) <? 3)%nat; [|exact S4].
  revert S4. generalize (sortIndices r). generalize lineDistanceToCheck.
  intros ds. induction ds as [|d ds IH]; intros acc Ha; [exact Ha|].
  cbn [fold_left]. apply IH. now apply periodicityStep_inRange.
Qed.

(** X1: every record start is the index of a line. *)
Theorem record_starts_are_line_indices (lines : list jsstring) :
  Forall (fun i => (i < length lines)%nat) (findRecordStarts lines).
Proof. apply findRecordStarts_inRange. Qed.

Lemma ascending_insert x l : ascending l -> ascending (insertIndex x l).
Proof.
  induction l as [|y l IH]; intros H; cbn [insertIndex].
  - cbn. auto.
  - destruct (Nat.ltb_spec x y).
    + cbn [ascending]. split; [lia|exact H].
    + cbn [ascending] in H. destruct H as [Hy Hl]. specialize (IH Hl).
      destruct l as [|z l]; cbn [insertIndex] in *.
      * cbn. auto.
      * destruct (Nat.ltb_spec x z); cbn [ascending] in *; repeat split;
          try tauto; lia.
Qed.

Lemma ascending_sortIndices l : ascending (sortIndices l).
Proof.
  unfold sortIndices. assert (H0 : ascending []) by exact I.
  revert H0. generalize (@nil nat). induction l as [|x l IH]; intros acc Ha.
  - exact Ha.
  - cbn [fold_left]. apply IH. now apply ascending_insert.
Qed.

Lemma ascending_stepIndices fuel i dist n : ascending (stepIndices fuel i dist n).
Proof.
  revert i. induction fuel as [|fuel IH]; intros i; cbn [stepIndices]; [exact I|].
  destruct (i <? n)%nat; [|exact I].
  cbn [ascending]. split; [|apply IH].
  destruct fuel as [|fuel]; cbn [stepIndices]; [exact I|].
  destruct (i + dist <? n)%nat; [lia|exact I].
Qed.

Lemma findRecordStarts_ascending lines : ascending (findRecordStarts lines).
Proof.
  unfold findRecordStarts. cbv zeta.
  match goal with |- context [sortIndices ?r] => generalize r end. intros r.
  pose proof (ascending_sortIndices r) as S.
  destruct (length (sortIndices r) <? 3)%nat; [|exact S].
  revert S. generalize (sortIndices r). generalize lineDistanceToCheck.
  intros ds. induction ds as [|d ds IH]; intros acc Ha; [exact Ha|].
  cbn [fold_left]. apply IH. unfold periodicityStep.
  destruct (5 <? length acc)%nat; [exact Ha|].
  destruct (sortCandidates _); [exact Ha|apply ascending_stepIndices].
Qed.

(** X2: the record starts come out in ascending order. *)
Theorem record_starts_ascending (lines : list jsstring) :
  ascending (findRecordStarts lines).
Proof. apply findRecordStarts_ascending. Qed.

(** ** Spans *)

Lemma slice_concat_step (lines : list jsstring) a b :
  (a <= b)%nat -> slice lines a b ++ skipn b lines = skipn a lines.
Proof.
  intros H. unfold slice.
  replace (skipn b lines) with (skipn (b - a) (skipn a lines)).
  - apply firstn_skipn.
  - rewrite skipn_skipn. f_equal. lia.
Qed.

Lemma spans_cover (lines : list jsstring) starts :
  ascending starts -> Forall (fun i => (i < length lines)%nat) starts ->
  match starts with
  | [] => True
  | first :: _ =>
      spanLines lines (recordSpans starts (length lines)) = skipn first lines
  end
  /\ Forall (fun span => (fst span <= snd span <= length lines)%nat)
            (recordSpans starts (length lines)).
Proof.
  induction starts as [|s starts IH]; intros Ha Hr; [split; [exact I|constructor]|].
  cbn [ascending] in Ha. destruct Ha as [Hs Ha]. inversion Hr as [|? ? Hlt Hr']; subst.
  destruct (IH Ha Hr') as [Hc Hf]. cbn [recordSpans]. unfold spanLines in *.
  destruct starts as [|e later].
  - cbn [map concat fst snd recordSpans]. rewrite app_nil_r. split.
    + unfold slice. apply firstn_all2. rewrite length_skipn. lia.
    + constructor; [cbn; lia|constructor].
  - cbn [map concat fst snd]. split.
    + rewrite Hc. now apply slice_concat_step.
    + constructor; [|exact Hf]. inversion Hr'; subst. cbn [fst snd]. lia.
Qed.

(** X3: the spans of a text are well formed: each lies inside the lines, with
    its start not after its end, and together they hold the lines from the
    first record start to the last line, in order and once each; the lines
    before the first record start belong to no record. *)
Theorem spans_partition_the_tail (lines : list jsstring) :
  match findRecordStarts lines with
  | [] => True
  | first :: _ =>
      spanLines lines (recordSpans (findRecordStarts lines) (length lines))
      = skipn first lines
  end
  /\ Forall (fun span => (fst span <= snd span <= length lines)%nat)
            (recordSpans (findRecordStarts lines) (length lines)).
Proof.
  apply spans_cover;
    [apply findRecordStarts_ascending|apply findRecordStarts_inRange].
Qed.

Lemma length_recordSpans starts n : length (recordSpans starts n) = length starts.
Proof. induction starts as [|s starts IH]; cbn [recordSpans length]; congruence. Qed.

(** X4: one record comes back for each record start, and one for the whole text
    when no start is found: no record is dropped. *)
Theorem one_record_per_start (host : Host) (text : jsstring) :
  length (recordsOf (parseFormData host text))
  = Nat.max 1 (length (findRecordStarts (cleanLines text))).
Proof.
  rewrite parseFormData_records. cbn [recordsOf].
  destruct (findRecordStarts (cleanLines text)) as [|i idx] eqn:E; [reflexivity|].
  rewrite length_map. unfold recordTexts. rewrite length_map, length_recordSpans.
  cbn [length]. lia.
Qed.

(** ** What holds of every record *)

(** A property of every result of [parseFormRecord] holds of every record
    that [parseFormData] returns. *)
Lemma records_satisfy (P : fieldTable -> Prop) h text :
  (forall t, P (parseFormRecord h t)) ->
  Forall P (recordsOf (parseFormData h text)).
Proof.
  intros H. rewrite parseFormData_records. cbn [recordsOf].
  destruct (findRecordStarts (cleanLines text));
    [constructor; [apply H|constructor]|].
  apply Forall_forall. intros r Hr. apply in_map_iff in Hr.
  destruct Hr as [t [<- _]]. apply H.
Qed.

Ltac keq :=
  repeat match goal with
         | |- context [String.eqb ?a ?b] =>
             let v := eval vm_compute in (String.eqb a b) in
             change (String.eqb a b) with v
         end;
  cbv iota.

Lemma placeholder_truthy k v : placeholderOf k = Some v -> truthy v = true.
Proof.
  unfold placeholderOf.
  repeat match goal with
         | |- context [String.eqb ?a ?b] => destruct (String.eqb a b)
         end;
    intros E; inversion E; reflexivity.
Qed.

Lemma getField_fold_placeholder k v ks f :
  In k ks -> placeholderOf k = Some v ->
  getField k (fold_left placeholderStep ks f) = orElse (getField k f) v.
Proof.
  intros Hin Hv. destruct (truthy (getField k f)) eqn:T.
  - rewrite truthy_fold_placeholder by assumption. unfold orElse. now rewrite T.
  - unfold orElse. rewrite T. revert f T Hin.
    induction ks as [|k' ks IH]; intros f T Hin; [destruct Hin|].
    cbn [fold_left].
    assert (Hset : getField k (setField k v f) = v)
      by now rewrite getField_setField, String.eqb_refl.
    destruct (String.eqb_spec k k') as [<-|Hne].
    + assert (E : getField k (placeholderStep f k) = v)
        by (unfold placeholderStep; now rewrite T, Hv).
      rewrite truthy_fold_placeholder; [exact E|].
      rewrite E. now apply (placeholder_truthy k).
    + destruct Hin as [E|Hin]; [congruence|].
      assert (E : getField k (placeholderStep f k') = getField k f).
      { unfold placeholderStep. destruct (truthy (getField k' f)); [reflexivity|].
        destruct (placeholderOf k'); [|reflexivity]. rewrite getField_setField.
        destruct (String.eqb_spec k k'); [contradiction|reflexivity]. }
      apply IH; [now rewrite E|exact Hin].
Qed.

Lemma frame_defaultFormNo k f :
  String.eqb k "FORM NO" = false -> getField k (defaultFormNo f) = getField k f.
Proof.
  intros H. unfold defaultFormNo. destruct (negb _); [|reflexivity].
  now rewrite getField_setField, H.
Qed.

Lemma schema_before_placeholders h text :
  schema (defaultFormNo
            (dealerName (cleanLines text) (knownValues (extractedFields h text)))).
Proof.
  unfold extractedFields.
  apply schema_defaultFormNo, schema_dealerName, schema_known, schema_derived,
    schema_lineFields.
Qed.

Lemma get_placeholders k f :
  In k (keys f) ->
  getField k (placeholders f)
  = match placeholderOf k with
    | Some v => orElse (getField k f) v
    | None => getField k f
    end.
Proof.
  intros Hin. unfold placeholders. destruct (placeholderOf k) as [v|] eqn:E.
  - exact (getField_fold_placeholder k v _ _ Hin E).
  - exact (plain_fold_placeholder k _ _ E).
Qed.

(** A field other than the form number and the dealer name: what the
    placeholders make of the value the known-value ladder leaves. *)
Lemma get_parseFormRecord k h text :
  In k fieldNames ->
  String.eqb k "FORM NO" = false -> String.eqb k "DEALER NAME" = false ->
  getField k (parseFormRecord h text)
  = match placeholderOf k with
    | Some v => orElse (getField k (knownValues (extractedFields h text))) v
    | None => getField k (knownValues (extractedFields h text))
    end.
Proof.
  intros Hin Hf Hd. unfold parseFormRecord.
  rewrite get_placeholders
    by (rewrite (schema_before_placeholders h text); exact Hin).
  rewrite (frame_defaultFormNo k _ Hf), (frame_dealerName k _ _ Hd).
  reflexivity.
Qed.

Lemma getField_emptyFields k : getField k emptyFields = [].
Proof.
  unfold emptyFields. induction fieldNames as [|k' ks IH]; cbn [map getField];
    [reflexivity|]. now destruct (String.eqb k k').
Qed.

(** A key that no line block and no derived rule assigns is still empty
    after extraction. *)
Lemma untouched_extracted k h text :
  notIn k firstLineKeys -> notIn k secondLineKeys -> notIn k thirdLineKeys ->
  notIn k ["CREDIT CARD NO"%string] -> notIn k ["RECORD NO"; "FORM NO"]%string ->
  notIn k derivedKeys ->
  getField k (extractedFields h text) = [].
Proof.
  intros H1 H2 H3 H4 H5 H6. unfold extractedFields.
  rewrite frame_derived by assumption. unfold lineFields. cbv zeta.
  unfold notIn in H5. cbn [existsb] in H5.
  apply orb_false_elim in H5. destruct H5 as [Hr H5].
  apply orb_false_elim in H5. destruct H5 as [Hf _].
  rewrite !frame_scanFor by assumption.
  destruct (cleanLines text) as [|l1 [|l2 [|l3 [|l4 more]]]];
    rewrite ?frame_fourthLine, ?frame_thirdLine, ?frame_secondLine,
      ?frame_firstLine by assumption;
    apply getField_emptyFields.
Qed.

Lemma knownValues_cases f :
  knownValues f = f
  \/ exists t, In t [known1047; known1048; known1049; known1056]
               /\ knownValues f = applyKnown t f.
Proof.
  unfold knownValues. cbv zeta.
  repeat match goal with |- context [if ?b then _ else _] => destruct b end;
    [right; exists known1047|right; exists known1048|right; exists known1049
    |right; exists known1056|left; reflexivity];
    (split; [cbn [In]; tauto|reflexivity]).
Qed.

Lemma NoDup_known_in t :
  In t [known1047; known1048; known1049; known1056] -> NoDup (map fst t).
Proof.
  destruct NoDup_known as [H1 [H2 [H3 H4]]].
  intros [<-|[<-|[<-|[<-|[]]]]]; assumption.
Qed.

(** A key that the known-value tables do not list keeps its value. *)
Lemma frame_knownValues k f :
  (forall t, In t [known1047; known1048; known1049; known1056] ->
             lookupKnown k t = None) ->
  getField k (knownValues f) = getField k f.
Proof.
  intros H. destruct (knownValues_cases f) as [->|[t [Ht ->]]]; [reflexivity|].
  rewrite getField_applyKnown by now apply NoDup_known_in.
  now rewrite (H t Ht).
Qed.

Ltac each_table :=
  let t := fresh "t" in
  intros t [<-|[<-|[<-|[<-|[]]]]]; reflexivity.

(** *** Fields that do not depend on the text *)

Lemma employer_extracted h text :
  getField "EMPLOYER" (extractedFields h text) = []
  \/ getField "EMPLOYER" (extractedFields h text) = str "SelfEmployed".
Proof.
  unfold extractedFields. rewrite frame_derived by reflexivity.
  unfold lineFields. cbv zeta. rewrite !frame_scanFor by reflexivity.
  destruct (cleanLines text) as [|l1 [|l2 [|l3 [|l4 more]]]];
    rewrite ?frame_fourthLine by reflexivity;
    try (left;
         rewrite ?frame_secondLine, ?frame_firstLine by reflexivity;
         apply getField_emptyFields);
    unfold thirdLineFields; cbv zeta;
    (destruct (exec employerRegex l3);
     [right; rewrite getField_setField; reflexivity|]);
    left;
    (destruct (exec amountRegex l3);
     [rewrite !getField_setField; keq|]);
    rewrite frame_secondLine, frame_firstLine by reflexivity;
    apply getField_emptyFields.
Qed.

Lemma employer_known f :
  getField "EMPLOYER" f = [] \/ getField "EMPLOYER" f = str "SelfEmployed" ->
  getField "EMPLOYER" (knownValues f) = []
  \/ getField "EMPLOYER" (knownValues f) = str "SelfEmployed".
Proof.
  intros H. destruct (knownValues_cases f) as [->|[t [Ht ->]]]; [exact H|].
  rewrite getField_applyKnown by now apply NoDup_known_in.
  assert (E : lookupKnown "EMPLOYER" t = Some (str "SelfEmployed"))
    by (revert t Ht; each_table).
  rewrite E. destruct H as [->| ->]; right; reflexivity.
Qed.

(** X5: in every record EMPLOYER is "SelfEmployed" and REMARK is empty,
    whatever the text says. *)
Theorem employer_and_remark_are_constant (host : Host) (text : jsstring) :
  Forall (fun record =>
            getField "EMPLOYER" record = str "SelfEmployed"
            /\ getField "REMARK" record = [])
         (recordsOf (parseFormData host text)).
Proof.
  apply records_satisfy. intros t. split.
  - rewrite get_parseFormRecord; [|cbn; tauto|reflexivity|reflexivity].
    change (placeholderOf "EMPLOYER") with (Some (str "SelfEmployed")). cbv iota.
    destruct (employer_known _ (employer_extracted host t)) as [->| ->];
      reflexivity.
  - rewrite get_parseFormRecord; [|cbn; tauto|reflexivity|reflexivity].
    change (placeholderOf "REMARK") with (@None jsstring). cbv iota.
    rewrite frame_knownValues by each_table.
    apply untouched_extracted; reflexivity.
Qed.

Lemma recordNo_final h text :
  getField "RECORD NO" (parseFormRecord h text)
  = getField "RECORD NO" (extractedFields h text).
Proof.
  rewrite get_parseFormRecord; [|cbn; tauto|reflexivity|reflexivity].
  change (placeholderOf "RECORD NO") with (@None jsstring). cbv iota.
  apply frame_knownValues. each_table.
Qed.

Lemma filled_from_table k v w f t :
  In t [known1047; known1048; known1049; known1056] ->
  getField k f = [] -> lookupKnown k t = Some v ->
  placeholderOf k = Some w ->
  orElse (getField k (applyKnown t f)) w = orElse v w.
Proof.
  intros Ht Hf Hv Hw. rewrite getField_applyKnown by now apply NoDup_known_in.
  now rewrite Hv, Hf.
Qed.

(** X6: DISCOUNT and NET AMOUNT never come from the text: they are the table
    values of the record numbers 1047, 1048 and 1049, and the placeholders
    "5.0" and "21736.00" for every other record. *)
Theorem discount_follows_record_number (host : Host) (text : jsstring) :
  Forall (fun record =>
            (getField "DISCOUNT" record, getField "NET AMOUNT" record)
            = let recordNo := getField "RECORD NO" record in
              if str_eqb recordNo (str "1047") then (str "9.2", str "67656.6")
              else if str_eqb recordNo (str "1048") then (str "7.2", str "21232.64")
              else if str_eqb recordNo (str "1049") then (str "9.7", str "73251.36")
              else (str "5.0", str "21736.00"))
         (recordsOf (parseFormData host text)).
Proof.
  apply records_satisfy. intros t. cbv zeta. rewrite recordNo_final.
  rewrite !get_parseFormRecord; try reflexivity; try (cbn; tauto).
  change (placeholderOf "DISCOUNT") with (Some (str "5.0")).
  change (placeholderOf "NET AMOUNT") with (Some (str "21736.00")). cbv iota.
  assert (D : getField "DISCOUNT" (extractedFields host t) = [])
    by (apply untouched_extracted; reflexivity).
  assert (N : getField "NET AMOUNT" (extractedFields host t) = [])
    by (apply untouched_extracted; reflexivity).
  unfold knownValues. cbv zeta.
  destruct (str_eqb _ (str "1047")).
  { rewrite !getField_applyKnown by apply NoDup_known. rewrite D, N. reflexivity. }
  destruct (str_eqb _ (str "1048")).
  { rewrite !getField_applyKnown by apply NoDup_known. rewrite D, N. reflexivity. }
  destruct (str_eqb _ (str "1049")).
  { rewrite !getField_applyKnown by apply NoDup_known. rewrite D, N. reflexivity. }
  destruct (str_eqb _ (str "1056")).
  { rewrite !getField_applyKnown by apply NoDup_known. rewrite D, N. reflexivity. }
  rewrite D, N. reflexivity.
Qed.

(** *** Fields that are never empty *)

(** X7: FORM NO and the seven fields with a placeholder are non-empty in every
    record. *)
Theorem backstopped_fields_are_never_empty (host : Host) (text : jsstring) :
  Forall (fun record =>
            forallb (fun key => truthy (getField key record))
                    [ "FORM NO"; "BASIC AMOUNT"; "INSURANCE AMOUNT";
                      "TOTAL AMOUNT"; "DISCOUNT"; "NET AMOUNT"; "EMPLOYER";
                      "DELIVERY TIME" ]%string = true)
         (recordsOf (parseFormData host text)).
Proof.
  apply records_satisfy. intros t. apply forallb_forall. intros key Hk.
  cbn [In] in Hk.
  destruct Hk as [<-|Hk]; [apply formNo_not_blank|].
  assert (Hp : exists v, placeholderOf key = Some v)
    by (repeat (destruct Hk as [<-|Hk]; [eexists; reflexivity|]); destruct Hk).
  destruct Hp as [v Hv].
  assert (Hin : In key fieldNames)
    by (repeat (destruct Hk as [<-|Hk]; [cbn; tauto|]); destruct Hk).
  assert (Hf : String.eqb key "FORM NO" = false)
    by (repeat (destruct Hk as [<-|Hk]; [reflexivity|]); destruct Hk).
  assert (Hd : String.eqb key "DEALER NAME" = false)
    by (repeat (destruct Hk as [<-|Hk]; [reflexivity|]); destruct Hk).
  rewrite get_parseFormRecord by assumption. rewrite Hv.
  unfold orElse. destruct (truthy (getField key _)) eqn:T; [exact T|].
  now apply (placeholder_truthy key).
Qed.

(** X8: whatever the extraction found keeps its value: neither the known values
    nor the dealer scan, the default form number or the placeholders replace
    a non-empty field. *)
Theorem extracted_values_are_kept (host : Host) (text : jsstring) (key : string) :
  truthy (getField key (extractedFields host text)) = true ->
  getField key (parseFormRecord host text) = getField key (extractedFields host text).
Proof. apply truthy_after_extraction. Qed.

Lemma extracted_values_are_kept_total :
  truthy (getField "TOTAL AMOUNT"
            (extractedFields plainHost
               (str "a" ++ [10] ++ str "b" ++ [10] ++ str "45 4500 4950"))) = true
  /\ getField "TOTAL AMOUNT"
       (parseFormRecord plainHost
          (str "a" ++ [10] ++ str "b" ++ [10] ++ str "45 4500 4950"))
     = str "4950".
Proof.
  assert (H : truthy (getField "TOTAL AMOUNT"
                (extractedFields plainHost
                   (str "a" ++ [10] ++ str "b" ++ [10] ++ str "45 4500 4950")))
              = true) by (vm_compute; reflexivity).
  split; [exact H|].
  rewrite (extracted_values_are_kept plainHost _ "TOTAL AMOUNT" H).
  vm_compute. reflexivity.
Defined.

(** *** The shape of the numbers *)

Lemma firstMatch_exec rx ls mt :
  firstMatch rx ls = Some mt -> exists l, In l ls /\ exec rx l = Some mt.
Proof.
  induction ls as [|l ls IH]; cbn [firstMatch]; [discriminate|].
  destruct (exec rx l) eqn:E.
  - intros [= <-]. exists l. split; [now left|exact E].
  - intros H. destruct (IH H) as [l' [Hin He]]. exists l'. split; [now right|exact He].
Qed.

Lemma chr_test a c :
  cls_test false false (N.eqb (N_of_ascii a)) c = true -> c = N_of_ascii a.
Proof.
  unfold cls_test. destruct (N.eqb_spec (N_of_ascii a) c); [auto|discriminate].
Qed.

Lemma lang_seq ic r1 r2 w :
  lang ic (Seq r1 r2) w ->
  exists w1 w2, w = w1 ++ w2 /\ lang ic r1 w1 /\ lang ic r2 w2.
Proof. exact (fun H => H). Qed.

Lemma lang_times_digit n w :
  lang false (times n digit) w -> length w = n /\ forallb isDigit w = true.
Proof.
  revert w. induction n as [|n IH]; intros w H.
  - cbn in H. subst. split; reflexivity.
  - destruct n as [|n].
    + cbn in H. destruct H as [c [-> Hc]]. apply digit_test in Hc.
      cbn. now rewrite Hc.
    + change (times (S (S n)) digit) with (Seq digit (times (S n) digit)) in H.
      cbn [lang] in H. destruct H as [w1 [w2 [-> [H1 H2]]]].
      unfold digit in H1. cbn [lang] in H1. destruct H1 as [c [-> Hc]].
      apply digit_test in Hc. destruct (IH _ H2) as [Hl Hd].
      cbn [app length forallb]. rewrite Hc, Hd, Hl. split; reflexivity.
Qed.

Lemma lang_upTo_digit n w :
  lang false (upTo n digit) w -> (length w <= n)%nat /\ forallb isDigit w = true.
Proof.
  revert w. induction n as [|n IH]; intros w H.
  - cbn in H. subst. split; [cbn; lia|reflexivity].
  - cbn [upTo opt lang] in H. destruct H as [[w1 [w2 [-> [H1 H2]]]]| ->].
    + unfold digit in H1. cbn [lang] in H1. destruct H1 as [c [-> Hc]].
      apply digit_test in Hc. destruct (IH _ H2) as [Hl Hd].
      cbn [app length forallb]. rewrite Hc, Hd. split; [lia|reflexivity].
    + split; [cbn; lia|reflexivity].
Qed.

Lemma digitGroup_times n w : lang false (times n digit) w -> digitGroup n n w.
Proof. intros H. destruct (lang_times_digit n w H) as [Hl Hd]. split; [lia|exact Hd]. Qed.

Lemma lang_rep_digit lo d w :
  lang false (Seq (times lo digit) (upTo d digit)) w -> digitGroup lo (lo + d) w.
Proof.
  cbn [lang]. intros [w1 [w2 [-> [H1 H2]]]].
  destruct (lang_times_digit _ _ H1) as [L1 D1].
  destruct (lang_upTo_digit _ _ H2) as [L2 D2].
  split; [rewrite length_app; lia|]. rewrite forallb_app, D1, D2. reflexivity.
Qed.

Lemma phone_group s mt :
  exec phoneRegex s = Some mt -> digitGroup 9 12 (grp 1 mt).
Proof.
  apply (grp_sound (fun _ w => digitGroup 9 12 w) phoneRegex s mt 1%nat);
    [|reflexivity].
  cbn [body phoneRegex groupsSat]. split.
  - intros w. apply (lang_rep_digit 9 3).
  - cbv [rep times upTo opt digit Nat.sub groupsSat]. tauto.
Qed.

Lemma creditCard_group s mt :
  exec creditCardRegex s = Some mt -> digitGroup 10 10 (grp 1 mt).
Proof.
  apply (grp_sound (fun _ w => digitGroup 10 10 w) creditCardRegex s mt 1%nat);
    [|reflexivity].
  cbn [body creditCardRegex groupsSat].
  repeat match goal with |- _ /\ _ => split end; try exact I;
    try (cbv [times digit groupsSat]; tauto).
  intros w. apply (digitGroup_times 10).
Qed.

Lemma recordNo_group s mt :
  exec recordNoRegex s = Some mt -> recordNoShape (grp 1 mt).
Proof.
  apply (grp_sound (fun _ w => recordNoShape w) recordNoRegex s mt 1%nat);
    [|reflexivity].
  cbn [body recordNoRegex groupsSat].
  repeat match goal with |- _ /\ _ => split end; try exact I;
    try (cbv [lit lit_chars list_ascii_of_string times chr digit groupsSat];
         tauto).
  intros w H. cbv [lit lit_chars list_ascii_of_string times chr digit] in H.
  cbn [lang] in H.
  destruct H as [w1 [w2 [-> [[u1 [u2 [-> [[c1 [-> H1]] [c2 [-> H2]]]]]]
                               [v1 [v2 [-> [[a [-> Ha]] [b [-> Hb]]]]]]]]]].
  apply chr_test in H1, H2. apply digit_test in Ha, Hb. subst.
  exists a, b. repeat split; assumption.
Qed.

Lemma formNo_group s mt :
  exec formNoRegex s = Some mt -> formNoShape (grp 1 mt).
Proof.
  apply (grp_sound (fun _ w => formNoShape w) formNoRegex s mt 1%nat);
    [|reflexivity].
  cbn [body formNoRegex groupsSat].
  repeat match goal with |- _ /\ _ => split end; try exact I;
    try (cbv [times chr digit groupsSat]; tauto).
  intros w H.
  destruct (lang_seq _ _ _ _ H) as [w1 [d6 [-> [H1 H6]]]].
  destruct (lang_seq _ _ _ _ H1) as [d5 [u [-> [H5 [c [-> Hc]]]]]].
  apply chr_test in Hc. subst c.
  exists d5, d6. split; [apply (digitGroup_times 5); assumption|].
  split; [apply (digitGroup_times 6); assumption|].
  now rewrite <- app_assoc.
Qed.

Lemma recordNoShape_trim w : recordNoShape w -> trim w = w.
Proof.
  intros [a [b [Ha [Hb ->]]]]. apply trim_no_space, digits_no_space.
  cbn. now rewrite Ha, Hb.
Qed.

Lemma formNoShape_trim w : formNoShape w -> trim w = w.
Proof.
  intros [d5 [d6 [[_ H5] [[_ H6] ->]]]]. apply trim_no_space.
  rewrite !forallb_app. rewrite (digits_no_space _ H5), (digits_no_space _ H6).
  reflexivity.
Qed.

Lemma recordNo_lineFields h ls :
  getField "RECORD NO" (lineFields h ls)
  = match firstMatch recordNoRegex ls with
    | Some mt => trim (grp 1 mt)
    | None => []
    end.
Proof.
  unfold lineFields. cbv zeta. rewrite frame_scanFor by reflexivity.
  unfold scanFor. destruct (firstMatch recordNoRegex ls).
  - now rewrite getField_setField.
  - destruct ls as [|l1 [|l2 [|l3 [|l4 ls]]]];
      rewrite ?frame_fourthLine, ?frame_thirdLine, ?frame_secondLine,
        ?frame_firstLine by reflexivity; reflexivity.
Qed.

(** X9: in every record FORM NO is five digits, an underscore and six digits,
    and RECORD NO is empty or "10" followed by two digits. *)
Theorem identifiers_have_their_shape (host : Host) (text : jsstring) :
  Forall (fun record =>
            formNoShape (getField "FORM NO" record)
            /\ (getField "RECORD NO" record = []
                \/ recordNoShape (getField "RECORD NO" record)))
         (recordsOf (parseFormData host text)).
Proof.
  apply records_satisfy. intros t. split.
  - assert (Hdef : formNoShape defaultFormNoText).
    { exists (str "12428"), (str "000065"). repeat split; cbn; lia. }
    unfold parseFormRecord, placeholders.
    rewrite plain_fold_placeholder by reflexivity.
    unfold defaultFormNo.
    destruct (truthy (getField "FORM NO" _)) eqn:E; simpl negb; cbv iota.
    2:{ now rewrite getField_setField. }
    rewrite frame_dealerName in * by reflexivity.
    destruct (formNo_known (extractedFields host t)) as [K|K]; rewrite K in *;
      [|exact Hdef].
    unfold extractedFields in *. rewrite frame_derived in * by reflexivity.
    rewrite formNo_lineFields in *.
    destruct (firstMatch formNoRegex (cleanLines t)) as [mt|] eqn:F;
      [|discriminate].
    destruct (firstMatch_exec _ _ _ F) as [l [_ He]].
    pose proof (formNo_group l mt He) as S.
    now rewrite (formNoShape_trim _ S).
  - rewrite recordNo_final. unfold extractedFields.
    rewrite frame_derived by reflexivity. rewrite recordNo_lineFields.
    destruct (firstMatch recordNoRegex (cleanLines t)) as [mt|] eqn:F;
      [|now left].
    destruct (firstMatch_exec _ _ _ F) as [l [_ He]].
    pose proof (recordNo_group l mt He) as S.
    right. now rewrite (recordNoShape_trim _ S).
Qed.

Ltac split_exec :=
  repeat match goal with
         | |- context [match exec ?rx ?s with _ => _ end] =>
             let E := fresh "E" in destruct (exec rx s) eqn:E
         end.

Lemma phones_secondLine k l f :
  k = "CUSTOMER PHONE"%string \/ k = "DEALER PHONE"%string ->
  emptyOrDigits 9 12 (getField k f) ->
  emptyOrDigits 9 12 (getField k (secondLineFields l f)).
Proof.
  intros Hk Hf. unfold secondLineFields. cbv zeta. simpl fold_left.
  split_exec; rewrite ?getField_setField;
    destruct Hk as [-> | ->]; keq; try exact Hf;
    right;
    match goal with
    | E : exec phoneRegex _ = Some ?mt |- digitGroup 9 12 (trim (grp 1 ?mt)) =>
        rewrite (digitGroup_trim _ _ _ (phone_group _ _ E));
        exact (phone_group _ _ E)
    end.
Qed.

Lemma phones_extracted k h text :
  k = "CUSTOMER PHONE"%string \/ k = "DEALER PHONE"%string ->
  emptyOrDigits 9 12 (getField k (extractedFields h text)).
Proof.
  intros Hk. unfold extractedFields.
  assert (E0 : emptyOrDigits 9 12 (getField k emptyFields))
    by (left; apply getField_emptyFields).
  rewrite frame_derived by (destruct Hk as [-> | ->]; reflexivity).
  unfold lineFields. cbv zeta.
  rewrite !frame_scanFor by (destruct Hk as [-> | ->]; reflexivity).
  destruct (cleanLines text) as [|l1 [|l2 [|l3 [|l4 more]]]];
    rewrite ?frame_fourthLine, ?frame_thirdLine
      by (destruct Hk as [-> | ->]; reflexivity);
    try exact E0;
    try (rewrite frame_firstLine by (destruct Hk as [-> | ->]; reflexivity);
         exact E0);
    apply phones_secondLine; try exact Hk;
    rewrite frame_firstLine by (destruct Hk as [-> | ->]; reflexivity);
    exact E0.
Qed.

Lemma card_extracted h text :
  emptyOrDigits 10 10 (getField "CREDIT CARD NO" (extractedFields h text)).
Proof.
  unfold extractedFields.
  assert (E0 : emptyOrDigits 10 10 (getField "CREDIT CARD NO" emptyFields))
    by (left; apply getField_emptyFields).
  rewrite frame_derived by reflexivity.
  unfold lineFields. cbv zeta. rewrite !frame_scanFor by reflexivity.
  destruct (cleanLines text) as [|l1 [|l2 [|l3 [|l4 more]]]];
    try (rewrite ?frame_thirdLine, ?frame_secondLine, ?frame_firstLine
           by reflexivity; exact E0).
  unfold fourthLineFields. destruct (exec creditCardRegex l4) as [mt|] eqn:E.
  - rewrite getField_setField. keq. right.
    rewrite (digitGroup_trim _ _ _ (creditCard_group _ _ E)).
    exact (creditCard_group _ _ E).
  - rewrite frame_thirdLine, frame_secondLine, frame_firstLine by reflexivity.
    exact E0.
Qed.

Lemma digits_known lo hi k f :
  emptyOrDigits lo hi (getField k f) ->
  (forall t v, In t [known1047; known1048; known1049; known1056] ->
               lookupKnown k t = Some v -> emptyOrDigits lo hi v) ->
  emptyOrDigits lo hi (getField k (knownValues f)).
Proof.
  intros Hf Ht. destruct (knownValues_cases f) as [->|[t [Hin ->]]]; [exact Hf|].
  rewrite getField_applyKnown by now apply NoDup_known_in.
  destruct (lookupKnown k t) as [v|] eqn:E; [|exact Hf].
  unfold orElse. destruct (truthy (getField k f)); [exact Hf|].
  exact (Ht t v Hin E).
Qed.

Ltac known_digits :=
  let t := fresh "t" in
  let v := fresh "v" in
  intros t v [<-|[<-|[<-|[<-|[]]]]] [= <-];
  first [ left; reflexivity
        | right; split; [cbn; lia|reflexivity] ].

(** X10: the telephone numbers of a record are empty or 9 to 12 digits, and its
    credit card number is empty or 10 digits. *)
Theorem phones_and_card_are_digits (host : Host) (text : jsstring) :
  Forall (fun record =>
            emptyOrDigits 9 12 (getField "CUSTOMER PHONE" record)
            /\ emptyOrDigits 9 12 (getField "DEALER PHONE" record)
            /\ emptyOrDigits 10 10 (getField "CREDIT CARD NO" record))
         (recordsOf (parseFormData host text)).
Proof.
  apply records_satisfy. intros t.
  rewrite !get_parseFormRecord; try reflexivity; try (cbn; tauto).
  change (placeholderOf "CUSTOMER PHONE") with (@None jsstring).
  change (placeholderOf "DEALER PHONE") with (@None jsstring).
  change (placeholderOf "CREDIT CARD NO") with (@None jsstring). cbv iota.
  split; [|split].
  - apply digits_known; [apply phones_extracted; now left|known_digits].
  - apply digits_known; [apply phones_extracted; now right|known_digits].
  - apply digits_known; [apply card_extracted|known_digits].
Qed.

(** ** Dates *)

Lemma digit_test_any ic c : cls_test ic false isDigit c = true -> isDigit c = true.
Proof.
  destruct ic; [|apply digit_test].
  unfold cls_test, isDigit, toLowerChar, toUpperChar, isUpper, isLower.
  intros T.
  destruct (65 <=? c) eqn:A1; destruct (c <=? 90) eqn:A2;
    destruct (97 <=? c) eqn:A3; destruct (c <=? 122) eqn:A4;
    cbn [andb xorb orb] in T;
    repeat match goal with
           | H : (_ <=? _) = true |- _ => apply N.leb_le in H
           | H : (_ <=? _) = false |- _ => apply N.leb_gt in H
           end;
    try lia;
    try (apply orb_prop in T; destruct T as [T|T]; exact T);
    try (apply orb_prop in T; destruct T as [T|T];
         apply andb_prop in T; destruct T as [T1 T2];
         apply N.leb_le in T1, T2; lia).
Qed.

Lemma needsDigit_lang ic r w :
  needsDigit ic r -> lang ic r w -> exists c, In c w /\ isDigit c = true.
Proof.
  revert w. induction r as [|neg member|r1 IH1 r2 IH2|r1 IH1 r2 IH2|r IH|i r IH| | |];
    intros w N L; cbn [needsDigit] in N; try contradiction.
  - cbn [lang] in L. destruct L as [c [-> T]]. exists c. split; [now left|auto].
  - cbn [lang] in L. destruct L as [w1 [w2 [-> [L1 L2]]]]. destruct N as [N|N].
    + destruct (IH1 _ N L1) as [c [Hin Hc]]. exists c. split; [|exact Hc].
      apply in_or_app. now left.
    + destruct (IH2 _ N L2) as [c [Hin Hc]]. exists c. split; [|exact Hc].
      apply in_or_app. now right.
  - cbn [lang] in L. destruct N as [N1 N2]. destruct L as [L|L]; eauto.
  - cbn [lang] in L. eauto.
Qed.

Lemma exec_has_digit rx s mt :
  needsDigit (ignoreCase rx) (body rx) -> exec rx s = Some mt ->
  exists c, In c s /\ isDigit c = true.
Proof.
  intros N H.
  destruct (exec_sound (fun _ _ => True) rx s mt) as [[b [a [Hs _]]] [L _]];
    [|exact H|].
  - clear. induction (body rx); cbn [groupsSat]; auto.
  - destruct (needsDigit_lang _ _ _ N L) as [c [Hin Hc]]. exists c.
    split; [|exact Hc]. rewrite Hs. apply in_or_app. right.
    apply in_or_app. now left.
Qed.

Ltac needs_digit :=
  pose proof (digit_test_any true) as Dt; pose proof (digit_test_any false) as Df;
  cbv [body ignoreCase textDateRegex usDateRegex euDateRegex monthYearRegex
       needsDigit rep times upTo opt plus digit Nat.sub];
  tauto.

Lemma needsDigit_textDate : needsDigit true (body textDateRegex).
Proof. needs_digit. Qed.
Lemma needsDigit_usDate : needsDigit false (body usDateRegex).
Proof. needs_digit. Qed.
Lemma needsDigit_euDate : needsDigit false (body euDateRegex).
Proof. needs_digit. Qed.
Lemma needsDigit_monthYear : needsDigit true (body monthYearRegex).
Proof. needs_digit. Qed.

Lemma In_trimStart c s : In c (trimStart s) -> In c s.
Proof.
  induction s as [|x s IH]; cbn [trimStart]; [auto|].
  destruct (isSpace x); [intros H; right; auto|auto].
Qed.

Lemma In_trim c s : In c (trim s) -> In c s.
Proof.
  unfold trim, trimEnd. intros H. apply in_rev in H. apply In_trimStart in H.
  apply in_rev in H. now apply In_trimStart in H.
Qed.

Lemma In_collapseWs c b s : In c (collapseWs b s) -> c = 32 \/ In c s.
Proof.
  revert b. induction s as [|x s IH]; intros b; cbn [collapseWs]; [auto|].
  destruct (isSpace x); [destruct b|]; cbn [In]; intros H.
  - destruct (IH _ H); auto.
  - destruct H as [<-|H]; [auto|]. destruct (IH _ H); auto.
  - destruct H as [<-|H]; [auto|]. destruct (IH _ H); auto.
Qed.

Lemma digit_of_cleanInput c input :
  In c (cleanInput input) -> isDigit c = true -> In c input.
Proof.
  unfold cleanInput. intros H D. apply In_collapseWs in H.
  destruct H as [->|H]; [discriminate|]. now apply In_trim in H.
Qed.

Lemma no_digit_no_match rx input :
  needsDigit (ignoreCase rx) (body rx) ->
  (forall c, In c input -> isDigit c = false) ->
  exec rx (cleanInput input) = None.
Proof.
  intros N H. destruct (exec rx (cleanInput input)) as [mt|] eqn:E; [|reflexivity].
  destruct (exec_has_digit _ _ _ N E) as [c [Hin Hc]].
  rewrite (H c (digit_of_cleanInput _ _ Hin Hc)) in Hc. discriminate.
Qed.

(** X11: an input without a decimal digit is no date for any of the forms: the
    server's and the client's [formatDate] return it trimmed, with every run
    of white space replaced by one blank. *)
Theorem date_without_digit_is_cleaned (input : jsstring) :
  (forall c, In c input -> isDigit c = false) ->
  formatDate input = cleanInput input
  /\ Client.formatDate input = cleanInput input.
Proof.
  intros H. unfold formatDate, Client.formatDate.
  destruct (negb (truthy input) || str_eqb (trim input) []) eqn:B.
  - rewrite (blank_cleanInput input B). split; reflexivity.
  - cbv zeta. unfold textDate, usDate, euDate, monthYearDate.
    rewrite (no_digit_no_match textDateRegex input needsDigit_textDate H).
    rewrite (no_digit_no_match usDateRegex input needsDigit_usDate H).
    rewrite (no_digit_no_match euDateRegex input needsDigit_euDate H).
    rewrite (no_digit_no_match monthYearRegex input needsDigit_monthYear H).
    split; reflexivity.
Qed.

Lemma date_without_digit_pending :
  (forall c, In c (str "  to be   confirmed ") -> isDigit c = false)
  /\ formatDate (str "  to be   confirmed ") = str "to be confirmed"
  /\ Client.formatDate (str "  to be   confirmed ") = str "to be confirmed".
Proof.
  assert (H : forall c, In c (str "  to be   confirmed ") -> isDigit c = false).
  { intros c Hin. vm_compute in Hin.
    repeat (destruct Hin as [<-|Hin]; [reflexivity|]). destruct Hin. }
  split; [exact H|].
  destruct (date_without_digit_is_cleaned (str "  to be   confirmed ") H)
    as [H1 H2].
  split; [rewrite H1|rewrite H2]; vm_compute; reflexivity.
Defined.

(** *** Month, day, year between slashes *)

Ltac us_shape :=
  cbn [app];
  lazymatch goal with
  | |- formatDate ?s = _ /\ Client.formatDate ?s = _ =>
      let s0 := shape_of s in
      assert (NS : forallb (fun c => negb (isSpace c)) s = true) by no_space_tac;
      unfold formatDate, Client.formatDate;
      rewrite (not_blank_no_space _ _ NS); cbv zeta;
      rewrite (cleanInput_no_space _ NS);
      unfold textDate, usDate;
      by_shape textDateRegex s s0 respects_textDate;
      by_shape usDateRegex s s0 respects_usDate;
      unfold grp;
      cbn [groups lookupGroup Nat.eqb denoteMatch denoteCap segment map firstn
           skipn length fst snd pindex pspan pgroups Nat.sub];
      rewrite !parseInt_digits by first [discriminate|all_digits];
      cbn [firstOf]; split; reflexivity
  end.

(** X12: one or two digits, a slash, one or two digits, a slash and two to four
    digits are read as month, day and year by the second attempt, in the
    server's copy and in the client's: month and day are padded to two
    digits, a year below 50 is counted from 2000 and one below 100 from
    1900. *)
Theorem slash_date_order (mo d y : jsstring) :
  digitGroup 1 2 mo -> digitGroup 1 2 d -> digitGroup 2 4 y ->
  formatDate (mo ++ 47 :: d ++ 47 :: y) = datedText (digitsValue 0 mo) d y
  /\ Client.formatDate (mo ++ 47 :: d ++ 47 :: y)
     = datedText (digitsValue 0 mo) d y.
Proof.
  intros Hm Hd Hy. unfold datedText.
  split_group Hm. split_group Hd. split_group Hy.
  destruct mo as [|a [|b [|? ?]]]; cbn [length] in *; try lia;
    destruct d as [|c [|e [|? ?]]]; cbn [length] in *; try lia;
    destruct y as [|f [|g [|h [|i [|? ?]]]]]; cbn [length] in *; try lia.
  all: digits_hyps F; digits_hyps F0; digits_hyps F1.
  all: us_shape.
Qed.

Lemma slash_date_order_witness :
  digitGroup 1 2 (str "1") /\ digitGroup 1 2 (str "2") /\ digitGroup 2 4 (str "07")
  /\ formatDate (str "1" ++ 47 :: str "2" ++ 47 :: str "07") = str "01/02/2007"
  /\ Client.formatDate (str "1" ++ 47 :: str "2" ++ 47 :: str "07")
     = str "01/02/2007".
Proof.
  assert (H1 : digitGroup 1 2 (str "1")) by (split; [cbn; lia|reflexivity]).
  assert (H2 : digitGroup 1 2 (str "2")) by (split; [cbn; lia|reflexivity]).
  assert (H3 : digitGroup 2 4 (str "07")) by (split; [cbn; lia|reflexivity]).
  split; [exact H1|]. split; [exact H2|]. split; [exact H3|].
  destruct (slash_date_order (str "1") (str "2") (str "07") H1 H2 H3) as [S C].
  split; [rewrite S|rewrite C]; vm_compute; reflexivity.
Defined.

(** *** Month names *)

Lemma spaced_collapseWs b s : spaced b s = true -> collapseWs b s = s.
Proof.
  revert b. induction s as [|c t IH]; intros b H; [reflexivity|].
  cbn [spaced collapseWs] in *. destruct (isSpace c).
  - apply andb_prop in H. destruct H as [H Ht].
    apply andb_prop in H. destruct H as [Hb Hc].
    destruct b; [discriminate|]. apply N.eqb_eq in Hc. subst c.
    now rewrite (IH _ Ht).
  - now rewrite (IH _ H).
Qed.

Lemma trim_ends s :
  isSpace (hd 0 s) = false -> isSpace (last s 0) = false -> trim s = s.
Proof.
  intros Hh Hl. destruct s as [|c t]; [reflexivity|].
  unfold trim, trimEnd. cbn [hd] in Hh. cbn [trimStart]. rewrite Hh.
  destruct (exists_last (l := c :: t)) as [s' [z E]]; [discriminate|].
  rewrite E in *. rewrite last_last in Hl. rewrite rev_app_distr.
  cbn [rev app trimStart]. rewrite Hl. cbn [rev].
  now rewrite rev_involutive.
Qed.

Lemma tidy_clean s : tidy s = true -> cleanInput s = s.
Proof.
  unfold tidy, cleanInput. intros H.
  apply andb_prop in H. destruct H as [H Hs].
  apply andb_prop in H. destruct H as [Hh Hl].
  apply negb_true_iff in Hh, Hl.
  rewrite (trim_ends s Hh Hl). now apply spaced_collapseWs.
Qed.

Lemma tidy_not_blank c t :
  tidy (c :: t) = true ->
  negb (truthy (c :: t)) || str_eqb (trim (c :: t)) [] = false.
Proof.
  unfold tidy. intros H.
  apply andb_prop in H. destruct H as [H Hs].
  apply andb_prop in H. destruct H as [Hh Hl].
  apply negb_true_iff in Hh, Hl. now rewrite (trim_ends _ Hh Hl).
Qed.

Lemma sameKind_space c c0 : sameKind c c0 -> isSpace c = isSpace c0.
Proof.
  intros [->|[H H0]]; [reflexivity|].
  now rewrite (digit_not_space c H), (digit_not_space c0 H0).
Qed.

Lemma spaced_shape b s s0 : Forall2 sameKind s s0 -> spaced b s = spaced b s0.
Proof.
  intros H. revert b. induction H as [|c c0 s s0 Hc Hs IH]; intros b; [reflexivity|].
  cbn [spaced]. rewrite !IH. destruct Hc as [->|[H H0]]; [reflexivity|].
  now rewrite (digit_not_space c H), (digit_not_space c0 H0).
Qed.

Lemma hd_shape s s0 : Forall2 sameKind s s0 -> sameKind (hd 0 s) (hd 0 s0).
Proof. intros [|c c0 ? ? Hc _]; [now left|exact Hc]. Qed.

Lemma last_shape s s0 : Forall2 sameKind s s0 -> sameKind (last s 0) (last s0 0).
Proof.
  intros H. induction H as [|c c0 s s0 Hc Hs IH]; [now left|].
  cbn [last]. destruct Hs; [exact Hc|exact IH].
Qed.

Lemma tidy_shape s s0 : Forall2 sameKind s s0 -> tidy s = tidy s0.
Proof.
  intros H. unfold tidy.
  rewrite (sameKind_space _ _ (hd_shape _ _ H)).
  rewrite (sameKind_space _ _ (last_shape _ _ H)).
  now rewrite (spaced_shape false _ _ H).
Qed.

Ltac closed_value t :=
  let v := eval vm_compute in t in change t with v.

Ltac month_cases i Hn Hin :=
  destruct i as [|i]; cbn [nth_error] in Hn;
  [ first [discriminate Hn | injection Hn as <-; cbn [In] in Hin]
  | first [discriminate Hn | month_cases i Hn Hin] ].

Ltac text_shape :=
  repeat match goal with
         | |- context [capitalize ?w] => closed_value (capitalize w)
         | |- context [str ?w] => closed_value (str w)
         end;
  cbv iota; cbn [app];
  lazymatch goal with
  | |- formatDate ?s = _ /\ Client.formatDate ?s = _ =>
      let s0 := shape_of s in
      assert (TS : tidy s = true)
        by (rewrite (tidy_shape s s0 ltac:(kind_list)); vm_compute; reflexivity);
      unfold formatDate, Client.formatDate;
      rewrite (tidy_not_blank _ _ TS); cbv zeta;
      rewrite (tidy_clean _ TS);
      unfold textDate;
      by_shape textDateRegex s s0 respects_textDate;
      unfold grp;
      cbn [groups lookupGroup Nat.eqb denoteMatch denoteCap segment map firstn
           skipn length fst snd pindex pspan pgroups Nat.sub];
      match goal with
      | |- context [findMonth ?x] => closed_value (findMonth x)
      end;
      cbv iota;
      rewrite !parseInt_digits by first [discriminate|all_digits];
      cbn [firstOf]; split; reflexivity
  end.

(** A month name followed by a day and a year, with the template of the
    code. *)
Lemma month_name_date_shapes (i : nat) (names : list jsstring)
  (name d y : jsstring) (capital comma : bool) :
  nth_error monthNames i = Some names -> In name names ->
  digitGroup 1 2 d -> digitGroup 2 4 y ->
  formatDate ((if capital then capitalize name else name) ++ 32 :: d
              ++ (if comma then str ", " else str " ") ++ y)
  = datedText (N.of_nat i + 1) d y
  /\ Client.formatDate ((if capital then capitalize name else name) ++ 32 :: d
                        ++ (if comma then str ", " else str " ") ++ y)
     = datedText (N.of_nat i + 1) d y.
Proof.
  intros Hn Hin Hd Hy. unfold datedText.
  split_group Hd. split_group Hy.
  destruct d as [|c [|e [|? ?]]]; cbn [length] in *; try lia;
    destruct y as [|f [|g [|h [|j [|? ?]]]]]; cbn [length] in *; try lia.
  all: digits_hyps F; digits_hyps F0.
  all: unfold monthNames in Hn.
  all: month_cases i Hn Hin.
  all: repeat (destruct Hin as [<-|Hin]); try contradiction.
  all: destruct capital; destruct comma.
  all: closed_value (N.of_nat _ + 1) || idtac.
  all: text_shape.
Qed.

Lemma month_row_bound i names :
  nth_error monthNames i = Some names -> (i < 12)%nat.
Proof.
  intros H. change 12%nat with (length monthNames).
  apply nth_error_Some. rewrite H. discriminate.
Qed.

(** The padded print of the number of a month is its numeral. *)
Lemma month_numeral i :
  (i < 12)%nat ->
  padStart2 (numToString (Int (N.of_nat i + 1)))
  = twoDigits (nth i monthNumerals [])
  /\ digitGroup 1 2 (nth i monthNumerals []).
Proof.
  intros H.
  do 12 (destruct i as [|i];
         [split; [vm_compute; reflexivity|split; [cbn; lia|reflexivity]]|]).
  lia.
Qed.

Lemma datedText_written i d y :
  (i < 12)%nat -> digitGroup 1 2 d -> plainYear y ->
  datedText (N.of_nat i + 1) d y = mmddyyyy (nth i monthNumerals []) d y.
Proof.
  intros Hi Hd Hy. unfold datedText, slashDate, mmddyyyy.
  rewrite (proj1 (month_numeral i Hi)), (padStart2_written d Hd),
    (year_written y Hy).
  reflexivity.
Qed.

Lemma midMonthText_written i y :
  (i < 12)%nat -> plainYear y ->
  midMonthText (N.of_nat i + 1) y
  = mmddyyyy (nth i monthNumerals []) (str "15") y.
Proof.
  intros Hi Hy. unfold midMonthText, mmddyyyy.
  rewrite (proj1 (month_numeral i Hi)), (year_written y Hy).
  reflexivity.
Qed.

Lemma fifteen_group : digitGroup 1 2 (str "15").
Proof. split; [cbn; lia|reflexivity]. Qed.

(** X13: a month name of the table, written in lower case or with a capital,
    then a blank, one or two digits, a blank or a comma and a blank, and a
    year of two digits or of four digits not starting with a zero: the
    server's copy and the client's give MM/DD/YYYY, two digits, a slash, two
    digits, a slash and four digits, where MM is the numeral of the row of
    the name, DD the day padded with a zero, and YYYY the year, a year of
    two digits with "20" in front when below 50 and "19" otherwise. *)
Theorem month_name_date_order (i : nat) (names : list jsstring)
  (name d y : jsstring) (capital comma : bool) :
  nth_error monthNames i = Some names -> In name names ->
  digitGroup 1 2 d -> plainYear y ->
  (formatDate ((if capital then capitalize name else name) ++ 32 :: d
               ++ (if comma then str ", " else str " ") ++ y)
   = mmddyyyy (nth i monthNumerals []) d y
   /\ Client.formatDate ((if capital then capitalize name else name) ++ 32 :: d
                         ++ (if comma then str ", " else str " ") ++ y)
      = mmddyyyy (nth i monthNumerals []) d y)
  /\ canonical (mmddyyyy (nth i monthNumerals []) d y).
Proof.
  intros Hn Hin Hd Hy.
  pose proof (month_row_bound i names Hn) as Hi.
  rewrite <- (datedText_written i d y Hi Hd Hy) at 1 2.
  split; [exact (month_name_date_shapes i names name d y capital comma Hn Hin
                   Hd (plainYear_group y Hy))|].
  apply mmddyyyy_canonical;
    [exact (proj2 (month_numeral i Hi))|exact Hd|exact Hy].
Qed.

Lemma month_name_date_june :
  formatDate (str "June 4, 07") = str "06/04/2007"
  /\ Client.formatDate (str "June 4, 07") = str "06/04/2007"
  /\ formatDate (str "dec 25 1999") = str "12/25/1999".
Proof.
  assert (H1 : nth_error monthNames 5 = Some [str "june"; str "jun"])
    by reflexivity.
  assert (H2 : In (str "june") [str "june"; str "jun"]) by (left; reflexivity).
  assert (H3 : digitGroup 1 2 (str "4")) by (split; [cbn; lia|reflexivity]).
  assert (H4 : plainYear (str "07")) by (split; [reflexivity|now left]).
  assert (K1 : nth_error monthNames 11 = Some [str "december"; str "dec"])
    by reflexivity.
  assert (K2 : In (str "dec") [str "december"; str "dec"])
    by (right; left; reflexivity).
  assert (K3 : digitGroup 1 2 (str "25")) by (split; [cbn; lia|reflexivity]).
  assert (K4 : plainYear (str "1999"))
    by (split; [reflexivity|right; split; [reflexivity|discriminate]]).
  pose proof (proj1 (month_name_date_order 5 [str "june"; str "jun"]
                       (str "june") (str "4") (str "07") true true
                       H1 H2 H3 H4)) as T.
  pose proof (proj1 (month_name_date_order 11 [str "december"; str "dec"]
                       (str "dec") (str "25") (str "1999") false false
                       K1 K2 K3 K4)) as K.
  split; [exact (proj1 T)|]. split; [exact (proj2 T)|exact (proj1 K)].
Defined.

(** ** Initials *)

Lemma endsWith_period s : endsWith s (str ".") = true -> exists b, s = b ++ str ".".
Proof.
  unfold endsWith. change (rev (str ".")) with [46].
  destruct (rev s) as [|y r] eqn:E; cbn [startsWith]; [discriminate|].
  intros H. apply andb_prop in H. destruct H as [H _].
  apply N.eqb_eq in H. subst y.
  exists (rev r). rewrite <- (rev_involutive s), E. reflexivity.
Qed.

Lemma initialOf_period p :
  initialOf p = [] \/ exists b, initialOf p = b ++ str ".".
Proof.
  unfold initialOf. cbv zeta.
  destruct (length (filter isAlnumDot p) =? 0)%nat; [now left|]. right.
  destruct (length (filter isAlnumDot p) =? 1)%nat; [eauto|].
  destruct (existsb _ suffixes); [eauto|].
  destruct (includes _ _); [|eauto].
  destruct (endsWith _ _) eqn:E; [|eauto]. now apply endsWith_period.
Qed.

Lemma concat_period ps :
  Forall (fun p => p = [] \/ exists b, p = b ++ str ".") ps ->
  concat ps = [] \/ exists b, concat ps = b ++ str ".".
Proof.
  induction 1 as [|p ps Hp _ IH]; [now left|]. cbn [concat].
  destruct IH as [->|[b ->]].
  - rewrite app_nil_r. exact Hp.
  - right. exists (p ++ b). now rewrite app_assoc.
Qed.

Lemma forallb_initialOf p : forallb isAlnumDot (initialOf p) = true.
Proof.
  assert (F : forallb isAlnumDot (filter isAlnumDot p) = true).
  { apply forallb_forall. intros c Hc. apply filter_In in Hc. tauto. }
  assert (F1 : forallb isAlnumDot (firstn 1 (filter isAlnumDot p)) = true).
  { apply forallb_forall. intros c Hc. rewrite forallb_forall in F. apply F.
    rewrite <- (firstn_skipn 1 (filter isAlnumDot p)). apply in_or_app. now left. }
  unfold initialOf. cbv zeta.
  repeat match goal with |- context [if ?b then _ else _] => destruct b end;
    rewrite ?forallb_app, ?F, ?F1; reflexivity.
Qed.

Lemma forallb_concat {A} (f : A -> bool) ls :
  Forall (fun l => forallb f l = true) ls -> forallb f (concat ls) = true.
Proof.
  induction 1 as [|l ls Hl _ IH]; [reflexivity|]. cbn [concat].
  now rewrite forallb_app, Hl, IH.
Qed.

Lemma generateInitials_no_parts name : nameParts name = [] -> generateInitials name = [].
Proof.
  intros H. unfold generateInitials. destruct (_ || _); [reflexivity|].
  cbv zeta. now rewrite H.
Qed.

(** X14: the result of [generateInitials] is empty or ends with a period, and it
    holds only letters, digits and periods, unless the whole name is one
    single character of another kind, which is kept before the period. *)
Theorem initials_shape (name : jsstring) :
  (generateInitials name = []
   \/ exists body, generateInitials name = body ++ str ".")
  /\ (forallb isAlnumDot (generateInitials name) = true
      \/ exists c, isAlnumDot c = false /\ nameParts name = [[c]]
                   /\ generateInitials name = [c] ++ str ".").
Proof.
  destruct (nameParts name) as [|p ps] eqn:E.
  { rewrite (generateInitials_no_parts name E). split; now left. }
  destruct (generateInitials_concat name) as [G|[c [Hc G]]]; [congruence| |].
  - rewrite G, E. split.
    + apply concat_period. apply Forall_forall. intros q Hq.
      apply in_map_iff in Hq. destruct Hq as [q' [<- _]]. apply initialOf_period.
    + left. apply forallb_concat. apply Forall_forall. intros q Hq.
      apply in_map_iff in Hq. destruct Hq as [q' [<- _]]. apply forallb_initialOf.
  - rewrite G. split; [right; now exists [c]|].
    destruct (isAlnumDot c) eqn:A.
    + left. cbn [app forallb]. rewrite A. reflexivity.
    + right. exists c. rewrite <- E. auto.
Qed.

Lemma indexOfFrom_absent c s i :
  (forall x, In x s -> x <> c) -> indexOfFrom i s [c] = (-1)%Z.
Proof.
  revert i. induction s as [|y s IH]; intros i H; [reflexivity|].
  cbn [indexOfFrom startsWith].
  destruct (N.eqb_spec c y) as [->|_]; [exfalso; apply (H y); [now left|reflexivity]|].
  cbn [andb]. apply IH. intros x Hx. apply H. now right.
Qed.

Lemma alpha_alnumDot c : isAlpha c = true -> isAlnumDot c = true.
Proof. unfold isAlnumDot. now intros ->. Qed.

Lemma alpha_not_period c : isAlpha c = true -> c <> 46.
Proof. intros H ->. discriminate. Qed.

Lemma initialOf_plain p :
  truthy p = true -> forallb isAlpha p = true ->
  existsb (str_eqb (toLowerCase p)) suffixes = false ->
  initialOf p = firstn 1 p ++ str ".".
Proof.
  intros T A S. unfold initialOf. cbv zeta.
  assert (F : filter isAlnumDot p = p).
  { clear T S. induction p as [|c p IH]; [reflexivity|]. cbn [forallb] in A.
    apply andb_prop in A. destruct A as [Hc Hp]. cbn [filter].
    rewrite (alpha_alnumDot c Hc). f_equal. now apply IH. }
  rewrite F. destruct p as [|c [|d p]]; [discriminate|reflexivity|].
  cbn [length Nat.eqb]. rewrite S.
  assert (I : includes (c :: d :: p) (str ".") = false).
  { unfold includes, indexOf. change (str ".") with [46].
    rewrite indexOfFrom_absent; [reflexivity|].
    intros x Hx. apply alpha_not_period.
    rewrite forallb_forall in A. now apply A. }
  now rewrite I.
Qed.

(** X15: a name whose words are made of letters only, none of them a
    generational suffix, gives the first letter of each word followed by a
    period, in the order of the words. *)
Theorem initials_of_plain_words (name : jsstring) :
  Forall (fun part =>
            forallb isAlpha part = true
            /\ existsb (str_eqb (toLowerCase part)) suffixes = false)
         (nameParts name) ->
  generateInitials name
  = concat (map (fun part => firstn 1 part ++ str ".") (nameParts name)).
Proof.
  intros H.
  assert (T : Forall (fun part => truthy part = true) (nameParts name)).
  { apply Forall_forall. intros p Hp. unfold nameParts in Hp.
    apply filter_In in Hp. tauto. }
  assert (M : map initialOf (nameParts name)
              = map (fun part => firstn 1 part ++ str ".") (nameParts name)).
  { apply map_ext_in. intros p Hp. rewrite Forall_forall in H, T.
    destruct (H p Hp) as [A S]. now apply initialOf_plain; [apply T| |]. }
  destruct (nameParts name) as [|p ps] eqn:E.
  { now rewrite (generateInitials_no_parts name E). }
  destruct (generateInitials_concat name) as [G|[c [Hc G]]]; [congruence| |].
  - rewrite G, E. now rewrite M.
  - rewrite G. rewrite E in Hc. injection Hc as -> ->. reflexivity.
Qed.

Lemma initials_of_plain_words_witness :
  Forall (fun part =>
            forallb isAlpha part = true
            /\ existsb (str_eqb (toLowerCase part)) suffixes = false)
         (nameParts (str " Reid   Ronald E "))
  /\ generateInitials (str " Reid   Ronald E ") = str "R.R.E.".
Proof.
  assert (H : Forall (fun part =>
                        forallb isAlpha part = true
                        /\ existsb (str_eqb (toLowerCase part)) suffixes = false)
                     (nameParts (str " Reid   Ronald E "))).
  { vm_compute. repeat constructor. }
  split; [exact H|].
  rewrite (initials_of_plain_words (str " Reid   Ronald E ") H).
  vm_compute. reflexivity.
Defined.

(** ** Lines *)

Lemma splitOn_cons sep s : exists cur more, splitOn sep s = cur :: more.
Proof.
  destruct s as [|c s]; cbn [splitOn]; [eauto|].
  destruct (splitOn sep s) as [|cur more]; [eauto|].
  destruct (c =? sep); eauto.
Qed.

Lemma splitOn_no_sep sep s : Forall (fun l => ~ In sep l) (splitOn sep s).
Proof.
  induction s as [|c s IH]; cbn [splitOn];
    [constructor; [exact (fun E => E)|constructor]|].
  destruct (splitOn_cons sep s) as [cur [more E]]. rewrite E in *.
  inversion IH as [|? ? Hc Hm]; subst.
  destruct (N.eqb_spec c sep) as [->|Hne].
  - constructor; [exact (fun E => E)|]. constructor; assumption.
  - constructor; [|assumption]. cbn [In]. intros [E'|E']; [congruence|exact (Hc E')].
Qed.

Lemma last_rev (x : jsstring) d : last (rev x) d = hd d x.
Proof.
  destruct x as [|c x]; [reflexivity|]. cbn [rev hd]. apply last_last.
Qed.

Lemma hd_trimStart s : isSpace (hd 0 (trimStart s)) = false.
Proof.
  destruct (trimStart_head s) as [->|[c [t [-> Hc]]]]; [reflexivity|exact Hc].
Qed.

Lemma trim_trim s : trim (trim s) = trim s.
Proof.
  apply trim_ends.
  - destruct (trim_head s) as [->|[c [t [-> Hc]]]]; [reflexivity|exact Hc].
  - unfold trim, trimEnd. rewrite last_rev. apply hd_trimStart.
Qed.

Lemma cleanLines_clean text : Forall cleanLine (cleanLines text).
Proof.
  unfold cleanLines. apply Forall_forall. intros l Hl.
  apply filter_In in Hl. destruct Hl as [Hin Ht].
  apply in_map_iff in Hin. destruct Hin as [piece [<- Hp]].
  split; [|split].
  - intros E. rewrite E in Ht. discriminate.
  - apply trim_trim.
  - intros H. apply In_trim in H.
    pose proof (splitOn_no_sep 10 text) as F. rewrite Forall_forall in F.
    exact (F piece Hp H).
Qed.

(** X16: every line the parsers work on is not empty, has no white space at
    either end and holds no line feed. *)
Theorem lines_are_clean (text : jsstring) : Forall cleanLine (cleanLines text).
Proof. apply cleanLines_clean. Qed.

Lemma splitOn_none sep p : ~ In sep p -> splitOn sep p = [p].
Proof.
  induction p as [|c p IH]; intros H; [reflexivity|]. cbn [splitOn].
  rewrite IH by (intros E; apply H; now right).
  destruct (N.eqb_spec c sep) as [->|_]; [exfalso; apply H; now left|reflexivity].
Qed.

Lemma splitOn_app sep p rest :
  ~ In sep p -> splitOn sep (p ++ sep :: rest) = p :: splitOn sep rest.
Proof.
  induction p as [|c p IH]; intros H.
  - cbn [app splitOn]. destruct (splitOn_cons sep rest) as [cur [more ->]].
    now rewrite N.eqb_refl.
  - cbn [app splitOn]. rewrite IH by (intros E; apply H; now right).
    destruct (N.eqb_spec c sep) as [->|_]; [exfalso; apply H; now left|reflexivity].
Qed.

Lemma splitOn_join ls :
  Forall (fun l => ~ In 10 l) ls -> ls <> [] -> splitOn 10 (join lineFeed ls) = ls.
Proof.
  induction 1 as [|p rest Hp Hrest IH]; intros Hne; [congruence|].
  destruct rest as [|q rest]; [now apply splitOn_none|].
  change (join lineFeed (p :: q :: rest))
    with (p ++ 10 :: join lineFeed (q :: rest)).
  rewrite splitOn_app by assumption. now rewrite IH.
Qed.

(** Clean lines joined by line feeds are read back as they were. *)
Lemma cleanLines_join ls : Forall cleanLine ls -> cleanLines (join lineFeed ls) = ls.
Proof.
  intros H. destruct ls as [|p ls]; [reflexivity|].
  unfold cleanLines. rewrite splitOn_join; [| |discriminate].
  - induction H as [|l rest [Hn [Ht _]] _ IH]; [reflexivity|].
    cbn [map filter]. rewrite Ht. destruct l; [congruence|]. cbn [truthy].
    now rewrite IH.
  - apply Forall_forall. intros l Hl. rewrite Forall_forall in H.
    now destruct (H l Hl) as [_ [_ Hn]].
Qed.

Lemma parse_by_lines host t1 t2 :
  cleanLines t1 = cleanLines t2 -> parseFormData host t1 = parseFormData host t2.
Proof.
  intros H. rewrite !parseFormData_records, H.
  destruct (findRecordStarts (cleanLines t2)); [|reflexivity].
  unfold parseFormRecord, extractedFields. now rewrite H.
Qed.

(** X17: the cleaned lines joined by line feeds (the text the client shows after
    a server run) have the same cleaned lines and give the same records as
    the text itself: blank lines and white space around lines do not
    matter. *)
Theorem cleaned_text_parses_alike (host : Host) (text : jsstring) :
  cleanLines (join lineFeed (cleanLines text)) = cleanLines text
  /\ parseFormData host (join lineFeed (cleanLines text)) = parseFormData host text.
Proof.
  assert (H : cleanLines (join lineFeed (cleanLines text)) = cleanLines text)
    by apply cleanLines_join, cleanLines_clean.
  split; [exact H|]. now apply parse_by_lines.
Qed.

Lemma Forall_slice (P : jsstring -> Prop) lines a b :
  Forall P lines -> Forall P (slice lines a b).
Proof.
  intros H. unfold slice. apply Forall_forall. intros l Hl.
  rewrite Forall_forall in H. apply H.
  rewrite <- (firstn_skipn a lines). apply in_or_app. right.
  rewrite <- (firstn_skipn (b - a) (skipn a lines)). apply in_or_app. now left.
Qed.

(** X18: each record is parsed from the lines of its span and no others: the
    text handed to [parseFormRecord] splits into just these lines again. *)
Theorem record_text_holds_its_span (text : jsstring) :
  map cleanLines (recordTexts (cleanLines text) (findRecordStarts (cleanLines text)))
  = map (fun span => slice (cleanLines text) (fst span) (snd span))
        (recordSpans (findRecordStarts (cleanLines text))
                     (length (cleanLines text))).
Proof.
  unfold recordTexts. rewrite map_map. apply map_ext. intros span.
  apply cleanLines_join, Forall_slice, cleanLines_clean.
Qed.

(** ** What the endpoint sends *)

Lemma map_trim_rawLines text : map trim (rawLines text) = cleanLines text.
Proof.
  unfold rawLines, cleanLines. induction (splitOn 10 text) as [|l ls IH];
    [reflexivity|].
  cbn [filter map]. destruct (truthy (trim l)); cbn [map]; now rewrite IH.
Qed.

Lemma mapIndexed_snd {A} (f : A -> jsstring) (g : nat -> nat) l i :
  map snd (mapIndexed (fun x k => (g k, f x)) l i) = map f l.
Proof.
  revert i. induction l as [|x l IH]; intros i; [reflexivity|].
  cbn [mapIndexed map snd]. now rewrite IH.
Qed.

Lemma mapIndexed_fst {A B} (f : A -> B) (g : nat -> nat) l i :
  map fst (mapIndexed (fun x k => (g k, f x)) l i) = map g (seq i (length l)).
Proof.
  revert i. induction l as [|x l IH]; intros i; [reflexivity|].
  cbn [mapIndexed map fst length seq]. now rewrite IH.
Qed.

Lemma mapIndexed_snd_any {A C} (f : A -> jsstring) (g : nat -> C) l i :
  map snd (mapIndexed (fun x k => (g k, f x)) l i) = map f l.
Proof.
  revert i. induction l as [|x l IH]; intros i; [reflexivity|].
  cbn [mapIndexed map snd]. now rewrite IH.
Qed.

(** X19: the raw lines sent to the client are the lines the parser worked on,
    numbered from 1 without a gap. *)
Theorem raw_lines_are_the_parsed_lines (text : jsstring) :
  map snd (formattedRawText text) = cleanLines text
  /\ map fst (formattedRawText text) = seq 1 (length (cleanLines text)).
Proof.
  split.
  - unfold formattedRawText. rewrite (mapIndexed_snd trim (fun i => (i + 1)%nat)).
    apply map_trim_rawLines.
  - unfold formattedRawText.
    rewrite (mapIndexed_fst trim (fun i => (i + 1)%nat)).
    rewrite <- map_trim_rawLines, length_map.
    rewrite <- seq_shift. apply map_ext. intros i. lia.
Qed.

Lemma worksheet_first_column (record : fieldTable) :
  map fst (worksheetData (formFields record)) = str "Field" :: map str (keys record).
Proof.
  unfold worksheetData, formFields, keys. cbn [map fst]. f_equal.
  induction record as [|[k v] r IH]; [reflexivity|].
  cbn [map fst snd]. now rewrite IH.
Qed.

(** X20: the workbook of a record: the first column of the sheet "Parsed Form
    Data" is the header and the 24 field names in their order, whatever the
    text; the sheet "Raw OCR Text" exists when the text is not empty, and
    its second column is the header and the lines the parser worked on. *)
Theorem workbook_columns (host : Host) (text : jsstring) :
  Forall (fun record =>
            map fst (worksheetData (formFields record))
            = str "Field" :: map str fieldNames)
         (recordsOf (parseFormData host text))
  /\ option_map (map snd) (rawWorksheetData text)
     = if truthy text then Some (str "Raw OCR Text" :: cleanLines text) else None.
Proof.
  split.
  - apply records_satisfy. intros t.
    rewrite worksheet_first_column.
    now rewrite (schema_parseFormRecord host t).
  - unfold rawWorksheetData. destruct (truthy text); [|reflexivity].
    cbn [option_map map snd]. do 2 f_equal.
    rewrite (mapIndexed_snd_any trim
               (fun index => str "Line " ++ natToString (N.of_nat (index + 1)))).
    apply map_trim_rawLines.
Qed.

(** ** The order of the fields on the client *)

Lemma formFields_id record : formFields record = record.
Proof.
  unfold formFields. induction record as [|[k v] r IH]; [reflexivity|].
  cbn [map fst snd]. now rewrite IH.
Qed.

Lemma mapGet_fold key entries found :
  ~ In key (keys entries) ->
  fold_left
    (fun found entry => if String.eqb (fst entry) key then Some (snd entry) else found)
    entries found = found.
Proof.
  revert found. induction entries as [|[k v] r IH]; intros found H; [reflexivity|].
  cbn [fold_left fst snd]. cbn [keys map fst In] in H.
  destruct (String.eqb_spec k key) as [->|_]; [exfalso; apply H; now left|].
  apply IH. intros E. apply H. now right.
Qed.

Lemma mapGet_getField key entries :
  NoDup (keys entries) -> In key (keys entries) ->
  Uploader.mapGet key entries = Some (getField key entries).
Proof.
  unfold Uploader.mapGet. generalize (@None jsstring).
  induction entries as [|[k v] r IH]; intros found Hnd Hin; [destruct Hin|].
  cbn [keys map fst] in Hnd, Hin. inversion Hnd as [|? ? Hk Hr]; subst.
  cbn [fold_left fst snd getField].
  destruct (String.eqb_spec k key) as [->|Hne].
  - rewrite String.eqb_refl. now apply mapGet_fold.
  - destruct (String.eqb_spec key k) as [E|_]; [congruence|].
    destruct Hin as [E|Hin]; [congruence|]. now apply IH.
Qed.

Lemma table_by_keys (f : fieldTable) :
  NoDup (keys f) -> map (fun k => (k, getField k f)) (keys f) = f.
Proof.
  induction f as [|[k v] r IH]; intros Hnd; [reflexivity|].
  cbn [keys map fst] in *. inversion Hnd as [|? ? Hk Hr]; subst.
  cbn [getField]. rewrite String.eqb_refl. f_equal.
  rewrite <- (IH Hr) at 2. apply map_ext_in. intros k' Hk'.
  cbn [getField]. destruct (String.eqb_spec k' k) as [->|_]; [contradiction|reflexivity].
Qed.

Lemma NoDup_fieldNames : NoDup fieldNames.
Proof.
  unfold fieldNames.
  repeat (constructor; [cbn [In]; intuition discriminate|]). constructor.
Qed.

Lemma orderFields_schema (record : fieldTable) :
  schema record -> Uploader.orderFields record = record.
Proof.
  intros S. unfold schema in S.
  assert (Hnd : NoDup (keys record)) by (rewrite S; apply NoDup_fieldNames).
  unfold Uploader.orderFields.
  transitivity (map (fun k => (k, getField k record)) (keys record));
    [|now apply table_by_keys].
  rewrite S. change fieldNames with (map fst Uploader.getDefaultFields).
  rewrite map_map. apply map_ext_in. intros field Hf.
  rewrite mapGet_getField;
    [|exact Hnd|rewrite S; change fieldNames with (map fst Uploader.getDefaultFields);
                 now apply in_map].
  unfold orElse. destruct (getField (fst field) record); reflexivity.
Qed.

(** X21: the client's default fields have the names of the server's records in
    the same order, so putting the fields of a server record into the
    client's order changes nothing: no field is lost, renamed or moved. *)
Theorem client_order_keeps_server_records (host : Host) (text : jsstring) :
  map fst Uploader.getDefaultFields = fieldNames
  /\ Forall (fun record =>
               Uploader.orderFields (formFields record) = formFields record)
            (recordsOf (parseFormData host text)).
Proof.
  split; [reflexivity|]. apply records_satisfy. intros t.
  rewrite formFields_id. apply orderFields_schema, schema_parseFormRecord.
Qed.

(** ** What depends on the engine *)

(** The third decimal of a small amount is printed by the code's own
    branch of [toFixed], never by the engine's [toString]. *)
Lemma millionthText_any_host h h' n :
  n <= 9999 -> millionthText h n = millionthText h' n.
Proof.
  intros Hn. pose proof (millionth_small markingHost n Hn) as M.
  unfold millionthText in *.
  destruct (SFdiv prec emax (ofN n) (ofN 1000000)) as [s| s| |s mant e];
    try reflexivity.
  unfold toFixed3 in *. cbv zeta in *.
  match goal with
  | |- context [if ?b then _ else _] => destruct b eqn:B
  end; [|reflexivity].
  exfalso. cbn [numberToString markingHost] in M. revert M.
  unfold basicTexts. cbn [In]. intuition discriminate.
Qed.

Lemma thirdLine_any_host h h' l f : thirdLineFields h l f = thirdLineFields h' l f.
Proof.
  unfold thirdLineFields. cbv zeta.
  destruct (exec amountRegex l) as [mt|] eqn:E; [|reflexivity].
  pose proof (amount_groups l mt 1%nat E (or_introl eq_refl)) as G1.
  rewrite (parseFloat_digits _ _ _ G1).
  change (toFixed3 (numberToString h)
            (SFdiv prec emax (ofN (digitsValue 0 (grp 1 mt))) (ofN 1000000)))
    with (millionthText h (digitsValue 0 (grp 1 mt))).
  change (toFixed3 (numberToString h')
            (SFdiv prec emax (ofN (digitsValue 0 (grp 1 mt))) (ofN 1000000)))
    with (millionthText h' (digitsValue 0 (grp 1 mt))).
  now rewrite (millionthText_any_host h h' _ (digitsValue_four _ G1)).
Qed.

Lemma lineFields_any_host h h' ls : lineFields h ls = lineFields h' ls.
Proof.
  unfold lineFields. cbv zeta.
  destruct ls as [|l1 [|l2 [|l3 more]]]; try reflexivity.
  now rewrite (thirdLine_any_host h h').
Qed.

Lemma total_with_basic h ls :
  truthy (getField "BASIC AMOUNT" (lineFields h ls)) = true ->
  truthy (getField "TOTAL AMOUNT" (lineFields h ls)) = true.
Proof.
  unfold lineFields. cbv zeta. rewrite !frame_scanFor by reflexivity.
  destruct ls as [|l1 [|l2 [|l3 [|l4 more]]]];
    rewrite ?frame_fourthLine by reflexivity;
    try (rewrite ?frame_secondLine, ?frame_firstLine by reflexivity;
         rewrite getField_emptyFields; discriminate).
  all: destruct (exec amountRegex l3) as [mt|] eqn:E.
  all: try (destruct (amounts_thirdLine h l3
                        (secondLineFields l2 (firstLineFields l1 emptyFields))
                        mt E) as [_ [_ ->]];
            intros _;
            exact (digitGroup_truthy 0 4 _
                     (amount_groups l3 mt 3%nat E (or_intror (or_intror eq_refl))))).
  all: unfold thirdLineFields; cbv zeta; rewrite E;
    destruct (exec employerRegex l3); rewrite ?getField_setField; keq;
    rewrite frame_secondLine, frame_firstLine by reflexivity;
    rewrite getField_emptyFields; discriminate.
Qed.

Lemma sameButDate_refl f : sameButDate f f.
Proof. intros k _. reflexivity. Qed.

Lemma sameButDate_setField k v f f' :
  sameButDate f f' -> sameButDate (setField k v f) (setField k v f').
Proof.
  intros H k' Hk'. rewrite !getField_setField.
  destruct (String.eqb k' k); [reflexivity|now apply H].
Qed.

Lemma sameButDate_setDate v f f' :
  sameButDate f f' -> sameButDate (setField "SALES DATE" v f) f'.
Proof. intros H k Hk. rewrite getField_setField, Hk. now apply H. Qed.

Lemma sameButDate_sym f f' : sameButDate f f' -> sameButDate f' f.
Proof. intros H k Hk. symmetry. now apply H. Qed.

Lemma sameButDate_trans f g h : sameButDate f g -> sameButDate g h -> sameButDate f h.
Proof. intros H1 H2 k Hk. rewrite (H1 k Hk). now apply H2. Qed.

Lemma derived_any_host h h' ls :
  sameButDate (derivedFields h (lineFields h ls)) (derivedFields h' (lineFields h' ls)).
Proof.
  rewrite (lineFields_any_host h' h ls).
  assert (D : forall host,
             sameButDate (derivedFields host (lineFields h ls))
               (let fields := lineFields h ls in
                if truthy (getField "CUSTOMER NAME" fields)
                   && negb (truthy (getField "INITIALS" fields))
                then setField "INITIALS"
                       (generateInitials (getField "CUSTOMER NAME" fields)) fields
                else fields)).
  { intros host. unfold derivedFields. cbv zeta.
    destruct (truthy (getField "BASIC AMOUNT" (lineFields h ls))) eqn:B.
    - rewrite (total_with_basic h ls B). rewrite andb_false_r.
      destruct (truthy (getField "SALES DATE" _));
        [apply sameButDate_setDate|]; apply sameButDate_refl.
    - cbn [andb].
      destruct (truthy (getField "SALES DATE" _));
        [apply sameButDate_setDate|]; apply sameButDate_refl. }
  exact (sameButDate_trans _ _ _ (D h) (sameButDate_sym _ _ (D h'))).
Qed.

Lemma sameButDate_applyKnown t f f' :
  NoDup (map fst t) -> sameButDate f f' ->
  sameButDate (applyKnown t f) (applyKnown t f').
Proof.
  intros Hnd H k Hk. rewrite !getField_applyKnown by assumption.
  now rewrite (H k Hk).
Qed.

Lemma sameButDate_known f f' :
  sameButDate f f' -> sameButDate (knownValues f) (knownValues f').
Proof.
  intros H. unfold knownValues. cbv zeta.
  rewrite <- (H "RECORD NO"%string eq_refl).
  destruct NoDup_known as [H1 [H2 [H3 H4]]].
  repeat match goal with |- context [if ?b then _ else _] => destruct b end;
    auto using sameButDate_applyKnown.
Qed.

Lemma sameButDate_dealerScan ls f f' :
  sameButDate f f' -> sameButDate (dealerScan ls f) (dealerScan ls f').
Proof.
  revert f f'. induction ls as [|l ls IH]; intros f f' H; [exact H|].
  cbn [dealerScan]. destruct (matchAll possibleNamesRegex l) as [|n ns];
    [now apply IH|].
  rewrite <- (H "CUSTOMER NAME"%string eq_refl).
  destruct (find _ (n :: ns)) as [found|].
  - rewrite !getField_setField. cbn [String.eqb Ascii.eqb Bool.eqb].
    destruct (truthy (trim found));
      [now apply sameButDate_setField
      |apply IH; now apply sameButDate_setField].
  - rewrite <- (H "DEALER NAME"%string eq_refl).
    destruct (truthy (getField "DEALER NAME" f)); [exact H|now apply IH].
Qed.

Lemma sameButDate_dealerName ls f f' :
  sameButDate f f' -> sameButDate (dealerName ls f) (dealerName ls f').
Proof.
  intros H. unfold dealerName.
  rewrite <- (H "DEALER NAME"%string eq_refl).
  rewrite <- (H "CUSTOMER NAME"%string eq_refl).
  destruct (_ && _); [now apply sameButDate_dealerScan|exact H].
Qed.

Lemma sameButDate_defaultFormNo f f' :
  sameButDate f f' -> sameButDate (defaultFormNo f) (defaultFormNo f').
Proof.
  intros H. unfold defaultFormNo. rewrite <- (H "FORM NO"%string eq_refl).
  destruct (negb _); [now apply sameButDate_setField|exact H].
Qed.

Lemma getField_absent k f : ~ In k (keys f) -> getField k f = [].
Proof.
  induction f as [|[k' v] r IH]; intros H; [reflexivity|].
  cbn [keys map fst In] in H. cbn [getField].
  destruct (String.eqb_spec k k') as [->|_]; [exfalso; apply H; now left|].
  apply IH. intros E. apply H. now right.
Qed.

Lemma sameButDate_placeholders f f' :
  schema f -> schema f' -> sameButDate f f' ->
  sameButDate (placeholders f) (placeholders f').
Proof.
  intros S S' H k Hk.
  destruct (in_dec string_dec k fieldNames) as [Hin|Hout].
  - rewrite !get_placeholders by (rewrite ?S, ?S'; exact Hin).
    now rewrite (H k Hk).
  - rewrite !getField_absent; [reflexivity| |].
    + unfold placeholders. rewrite (schema_fold_placeholder _ f' S'). exact Hout.
    + unfold placeholders. rewrite (schema_fold_placeholder _ f S). exact Hout.
Qed.

Lemma record_any_host h h' text :
  sameButDate (parseFormRecord h text) (parseFormRecord h' text).
Proof.
  unfold parseFormRecord.
  apply sameButDate_placeholders; try apply schema_before_placeholders.
  apply sameButDate_defaultFormNo, sameButDate_dealerName, sameButDate_known.
  unfold extractedFields. apply derived_any_host.
Qed.

Lemma table_ext (f f' : fieldTable) :
  keys f = keys f' -> NoDup (keys f) ->
  (forall k, getField k f = getField k f') -> f = f'.
Proof.
  intros K Hnd H. rewrite <- (table_by_keys f Hnd).
  rewrite <- (table_by_keys f') by now rewrite <- K.
  rewrite <- K. apply map_ext. intros k. now rewrite H.
Qed.

(** X22: the engine's [Date] and number printing reach the records through
    SALES DATE only: with that field blanked, the records of a text are the
    same on every engine. *)
Theorem engine_matters_for_the_date_only (host host' : Host) (text : jsstring) :
  map (setField "SALES DATE" []) (recordsOf (parseFormData host text))
  = map (setField "SALES DATE" []) (recordsOf (parseFormData host' text)).
Proof.
  assert (R : forall t,
             setField "SALES DATE" [] (parseFormRecord host t)
             = setField "SALES DATE" [] (parseFormRecord host' t)).
  { intros t.
    assert (S : forall h, schema (setField "SALES DATE" [] (parseFormRecord h t)))
      by (intros h; apply schema_setField;
          [reflexivity|apply schema_parseFormRecord]).
    apply table_ext.
    - now rewrite (S host), (S host').
    - rewrite (S host). apply NoDup_fieldNames.
    - intros k. rewrite !getField_setField.
      destruct (String.eqb k "SALES DATE") eqn:E; [reflexivity|].
      now apply record_any_host. }
  rewrite !parseFormData_records. cbn [recordsOf].
  destruct (findRecordStarts (cleanLines text)).
  - cbn [map]. now rewrite R.
  - rewrite !map_map. apply map_ext. intros t. apply R.
Qed.

(** ** Lines that open a record *)

Section Passes.

Variable f : list nat -> jsstring -> nat -> list nat.
Hypothesis f_extends :
  forall acc line index, exists more, f acc line index = acc ++ more.

Lemma forEachLine_extends ls start acc :
  exists more, forEachLine f ls start acc = acc ++ more.
Proof.
  revert start acc. induction ls as [|l ls IH]; intros start acc.
  - exists []. cbn [forEachLine]. now rewrite app_nil_r.
  - cbn [forEachLine]. destruct (f_extends acc l start) as [m1 E1].
    destruct (IH (S start) (f acc l start)) as [m2 E2].
    exists (m1 ++ m2). now rewrite E2, E1, app_assoc.
Qed.

End Passes.

Ltac extends_tac :=
  repeat match goal with
         | |- context [if ?b then _ else _] => destruct b
         end;
  rewrite <- ?app_assoc;
  first [ exists []; now rewrite app_nil_r | eexists; reflexivity ].

Lemma secondaryStep_extends lines acc line index :
  exists more, secondaryStep lines acc line index = acc ++ more.
Proof. unfold secondaryStep. cbv zeta. extends_tac. Qed.

Lemma aggressiveStep_extends lines acc line index :
  exists more, aggressiveStep lines acc line index = acc ++ more.
Proof. unfold aggressiveStep. cbv zeta. extends_tac. Qed.

Lemma primary_length ls start acc :
  length (forEachLine primaryStep ls start acc)
  = (length acc + length (filter isRecordStart ls))%nat.
Proof.
  revert start acc. induction ls as [|l ls IH]; intros start acc;
    cbn [forEachLine filter]; [cbn; lia|].
  rewrite IH. unfold primaryStep. fold (isRecordStart l).
  destruct (isRecordStart l); [rewrite length_app; cbn [length]; lia|reflexivity].
Qed.

Lemma primary_keeps ls start acc x :
  In x acc -> In x (forEachLine primaryStep ls start acc).
Proof.
  revert start acc. induction ls as [|l ls IH]; intros start acc H; [exact H|].
  cbn [forEachLine]. apply IH. unfold primaryStep.
  destruct (existsb _ _); [apply in_or_app; now left|exact H].
Qed.

Lemma primary_In ls start acc j line :
  nth_error ls j = Some line -> isRecordStart line = true ->
  In (start + j)%nat (forEachLine primaryStep ls start acc).
Proof.
  revert start acc j. induction ls as [|l ls IH]; intros start acc j Hn Hs.
  - destruct j; discriminate.
  - cbn [forEachLine]. destruct j as [|j].
    + injection Hn as ->. apply primary_keeps. unfold primaryStep.
      fold (isRecordStart line). rewrite Hs, Nat.add_0_r.
      apply in_or_app. right. now left.
    + replace (start + S j)%nat with (S start + j)%nat by lia.
      now apply IH.
Qed.

Lemma In_insertIndex x y l : In x (insertIndex y l) <-> x = y \/ In x l.
Proof.
  induction l as [|z l IH]; cbn [insertIndex In]; [intuition|].
  destruct (y <? z)%nat; cbn [In]; rewrite ?IH; intuition.
Qed.

Lemma length_insertIndex y l : length (insertIndex y l) = S (length l).
Proof.
  induction l as [|z l IH]; cbn [insertIndex length]; [reflexivity|].
  destruct (y <? z)%nat; cbn [length]; now rewrite ?IH.
Qed.

Lemma sortIndices_spec l x :
  (In x (sortIndices l) <-> In x l) /\ length (sortIndices l) = length l.
Proof.
  unfold sortIndices.
  assert (G : forall acc,
             (In x (fold_left (fun sorted x => insertIndex x sorted) l acc)
              <-> In x l \/ In x acc)
             /\ length (fold_left (fun sorted x => insertIndex x sorted) l acc)
                = (length l + length acc)%nat).
  { induction l as [|y l IH]; intros acc; cbn [fold_left In length].
    - split; [tauto|reflexivity].
    - destruct (IH (insertIndex y acc)) as [I L]. rewrite I, L.
      rewrite In_insertIndex, length_insertIndex. split; [|lia].
      split; intros H; intuition. }
  destruct (G []) as [I L]. rewrite I, L. cbn [In length]. split; [tauto|lia].
Qed.

(** X23: when at least three lines match a primary pattern, every such line
    opens a record: the later passes only add starts, and the periodicity
    search, which would replace them, is not run. *)
Theorem marked_lines_open_records (lines : list jsstring) (i : nat)
  (line : jsstring) :
  (3 <= length (filter isRecordStart lines))%nat ->
  nth_error lines i = Some line -> isRecordStart line = true ->
  In i (findRecordStarts lines).
Proof.
  intros H3 Hn Hs. unfold findRecordStarts. cbv zeta.
  pose proof (primary_In lines 0 [] i line Hn Hs) as P. cbn [Nat.add] in P.
  pose proof (primary_length lines 0 []) as L. cbn [length Nat.add] in L.
  set (p := forEachLine primaryStep lines 0 []) in *.
  assert (Q : exists more,
             (if (length p <? 5)%nat
              then forEachLine (secondaryStep lines) lines 0 p else p)
             = p ++ more).
  { destruct (length p <? 5)%nat;
      [apply forEachLine_extends, secondaryStep_extends
      |exists []; now rewrite app_nil_r]. }
  destruct Q as [m1 ->].
  assert (R : exists more,
             (if (length (p ++ m1) <? 10)%nat
              then forEachLine (aggressiveStep lines) lines 0 (p ++ m1)
              else p ++ m1)
             = (p ++ m1) ++ more).
  { destruct (length (p ++ m1) <? 10)%nat;
      [apply forEachLine_extends, aggressiveStep_extends
      |exists []; now rewrite app_nil_r]. }
  destruct R as [m2 ->].
  destruct (sortIndices_spec ((p ++ m1) ++ m2) i) as [I Ls].
  assert (Hlen : (length (sortIndices ((p ++ m1) ++ m2)) <? 3)%nat = false).
  { apply Nat.ltb_ge. rewrite Ls, !length_app. lia. }
  rewrite Hlen. apply I. apply in_or_app. left. apply in_or_app. now left.
Qed.

Lemma marked_lines_open_records_witness :
  (3 <= length (filter isRecordStart
                  [str "1. Reid"; str "note"; str "2. Cooper"; str "3. Peeren"]))%nat
  /\ nth_error [str "1. Reid"; str "note"; str "2. Cooper"; str "3. Peeren"] 2
     = Some (str "2. Cooper")
  /\ isRecordStart (str "2. Cooper") = true
  /\ In 2%nat (findRecordStarts
                 [str "1. Reid"; str "note"; str "2. Cooper"; str "3. Peeren"]).
Proof.
  assert (H1 : (3 <= length (filter isRecordStart
                  [str "1. Reid"; str "note"; str "2. Cooper"; str "3. Peeren"]))%nat)
    by (vm_compute; lia).
  assert (H2 : nth_error [str "1. Reid"; str "note"; str "2. Cooper"; str "3. Peeren"] 2
               = Some (str "2. Cooper")) by reflexivity.
  assert (H3 : isRecordStart (str "2. Cooper") = true) by (vm_compute; reflexivity).
  split; [exact H1|]. split; [exact H2|]. split; [exact H3|].
  exact (marked_lines_open_records _ 2%nat (str "2. Cooper") H1 H2 H3).
Defined.

(** ** E-mail address, state and invoice number *)

Lemma known_keeps (P : jsstring -> Prop) k f :
  P (getField k f) ->
  (forall t v, In t [known1047; known1048; known1049; known1056] ->
               lookupKnown k t = Some v -> P v) ->
  P (getField k (knownValues f)).
Proof.
  intros Hf Ht. destruct (knownValues_cases f) as [->|[t [Hin ->]]]; [exact Hf|].
  rewrite getField_applyKnown by now apply NoDup_known_in.
  destruct (lookupKnown k t) as [v|] eqn:E; [|exact Hf].
  unfold orElse. destruct (truthy (getField k f)); [exact Hf|].
  exact (Ht t v Hin E).
Qed.

Lemma In_trimStart_keep c s : In c s -> isSpace c = false -> In c (trimStart s).
Proof.
  intros Hin Hc. induction s as [|x s IH]; [destruct Hin|].
  cbn [trimStart]. destruct (isSpace x) eqn:E; [|exact Hin].
  destruct Hin as [->|Hin]; [congruence|now apply IH].
Qed.

Lemma In_trim_keep c s : In c s -> isSpace c = false -> In c (trim s).
Proof.
  intros Hin Hc. unfold trim, trimEnd. apply in_rev.
  rewrite rev_involutive. apply In_trimStart_keep; [|exact Hc].
  apply -> in_rev. now apply In_trimStart_keep.
Qed.

Lemma at_test c : cls_test true false (N.eqb (N_of_ascii "@")) c = true -> c = 64.
Proof.
  unfold cls_test, toLowerChar, toUpperChar, isUpper, isLower.
  change (N_of_ascii "@") with 64. intros T.
  destruct (65 <=? c) eqn:A1; destruct (c <=? 90) eqn:A2;
    destruct (97 <=? c) eqn:A3; destruct (c <=? 122) eqn:A4;
    cbn [andb xorb] in T;
    repeat match goal with
           | H : (_ <=? _) = true |- _ => apply N.leb_le in H
           | H : (_ <=? _) = false |- _ => apply N.leb_gt in H
           end;
    apply orb_prop in T; destruct T as [T|T]; apply N.eqb_eq in T; lia.
Qed.

Lemma email_group s mt : exec emailRegex s = Some mt -> In 64 (grp 1 mt).
Proof.
  apply (grp_sound (fun _ w => In 64 w) emailRegex s mt 1%nat); [|reflexivity].
  cbn [body emailRegex groupsSat].
  repeat match goal with |- _ /\ _ => split end; try exact I;
    try (cbv [plus atLeast times chr alpha groupsSat]; tauto).
  intros w H.
  destruct (lang_seq _ _ _ _ H) as [w1 [w2 [-> [H1 _]]]].
  destruct (lang_seq _ _ _ _ H1) as [w3 [w4 [-> [H3 _]]]].
  destruct (lang_seq _ _ _ _ H3) as [w5 [w6 [-> [H5 _]]]].
  destruct (lang_seq _ _ _ _ H5) as [w7 [w8 [-> [_ [c [-> Hc]]]]]].
  apply at_test in Hc. subst c.
  do 3 (apply in_or_app; left). apply in_or_app. right. now left.
Qed.

Lemma upper_test c : cls_test false false isUpper c = true -> isUpper c = true.
Proof. unfold cls_test. now destruct (isUpper c). Qed.

Lemma upper_not_space c : isUpper c = true -> isSpace c = false.
Proof.
  unfold isUpper, isSpace. intros H. apply andb_prop in H. destruct H as [H1 H2].
  apply N.leb_le in H1, H2.
  repeat (apply orb_false_intro);
    first [ apply N.eqb_neq; lia
          | apply andb_false_iff;
            first [ left; apply N.leb_gt; lia | right; apply N.leb_gt; lia ] ].
Qed.

Lemma forallb_upper_no_space w :
  forallb isUpper w = true -> forallb (fun c => negb (isSpace c)) w = true.
Proof.
  induction w as [|c w IH]; cbn [forallb]; [reflexivity|]. intros H.
  apply andb_prop in H. destruct H as [Hc Hw].
  now rewrite (upper_not_space c Hc), IH.
Qed.

Lemma state_group s mt : exec cityStateRegex s = Some mt -> stateShape (grp 2 mt).
Proof.
  intros E.
  refine (grp_sound (fun i w => i = 2%nat -> stateShape w) cityStateRegex s mt
            2%nat _ eq_refl E eq_refl).
  cbn [body cityStateRegex groupsSat].
  repeat match goal with |- _ /\ _ => split end; try exact I;
    try (cbv [plus times upper space groupsSat]; tauto);
    try (intros w _ D; discriminate D).
  intros w H _. cbv [times upper] in H. cbn [lang] in H.
  destruct H as [w1 [w2 [-> [[a [-> Ha]] [b [-> Hb]]]]]].
  apply upper_test in Ha, Hb. exists a, b. auto.
Qed.

Lemma lang_times_upper n w :
  lang false (times n upper) w -> length w = n /\ forallb isUpper w = true.
Proof.
  revert w. induction n as [|n IH]; intros w H.
  - cbn in H. subst. split; reflexivity.
  - destruct n as [|n].
    + cbn in H. destruct H as [c [-> Hc]]. apply upper_test in Hc.
      cbn. now rewrite Hc.
    + change (times (S (S n)) upper) with (Seq upper (times (S n) upper)) in H.
      cbn [lang] in H. destruct H as [w1 [w2 [-> [H1 H2]]]].
      unfold upper in H1. cbn [lang] in H1. destruct H1 as [c [-> Hc]].
      apply upper_test in Hc. destruct (IH _ H2) as [Hl Hd].
      cbn [app length forallb]. rewrite Hc, Hd, Hl. split; reflexivity.
Qed.

Lemma lang_upTo_upper n w :
  lang false (upTo n upper) w -> (length w <= n)%nat /\ forallb isUpper w = true.
Proof.
  revert w. induction n as [|n IH]; intros w H.
  - cbn in H. subst. split; [cbn; lia|reflexivity].
  - cbn [upTo opt lang] in H. destruct H as [[w1 [w2 [-> [H1 H2]]]]| ->].
    + unfold upper in H1. cbn [lang] in H1. destruct H1 as [c [-> Hc]].
      apply upper_test in Hc. destruct (IH _ H2) as [Hl Hd].
      cbn [app length forallb]. rewrite Hc, Hd. split; [lia|reflexivity].
    + split; [cbn; lia|reflexivity].
Qed.

Lemma invoice_group s mt : exec invoiceRegex s = Some mt -> invoiceShape (grp 1 mt).
Proof.
  apply (grp_sound (fun _ w => invoiceShape w) invoiceRegex s mt 1%nat);
    [|reflexivity].
  cbn [body invoiceRegex groupsSat].
  repeat match goal with |- _ /\ _ => split end; try exact I;
    try (cbv [rep times upTo opt upper digit Nat.sub groupsSat]; tauto).
  intros w H.
  destruct (lang_seq _ _ _ _ H) as [letters [digits [-> [Hl Hd]]]].
  change (rep 1 3 upper) with (Seq (times 1 upper) (upTo 2 upper)) in Hl.
  destruct (lang_seq _ _ _ _ Hl) as [l1 [l2 [-> [Hl1 Hl2]]]].
  destruct (lang_times_upper _ _ Hl1) as [L1 U1].
  destruct (lang_upTo_upper _ _ Hl2) as [L2 U2].
  exists (l1 ++ l2), digits. split; [rewrite length_app; lia|].
  split; [now rewrite forallb_app, U1, U2|].
  split; [exact (lang_rep_digit 5 2 _ Hd)|reflexivity].
Qed.

Lemma invoiceShape_trim w : invoiceShape w -> trim w = w.
Proof.
  intros [letters [digits [_ [U [[_ D] ->]]]]]. apply trim_no_space.
  now rewrite forallb_app, (forallb_upper_no_space _ U), (digits_no_space _ D).
Qed.

Lemma stateShape_trim w : stateShape w -> trim w = w.
Proof.
  intros [a [b [Ha [Hb ->]]]]. apply trim_no_space. cbn [forallb].
  now rewrite (upper_not_space a Ha), (upper_not_space b Hb).
Qed.

Ltac split_ifs :=
  repeat match goal with
         | |- context [if ?b then _ else _] =>
             lazymatch b with
             | String.eqb _ _ => fail
             | _ => destruct b
             end
         end.

Lemma ok_frame k v f :
  String.eqb "E-MAIL ADDRESS" k = false -> String.eqb "STATE" k = false ->
  mailStateOk f -> mailStateOk (setField k v f).
Proof.
  intros H1 H2 [M S]. unfold mailStateOk. rewrite !getField_setField, H1, H2.
  now split.
Qed.

Lemma ok_email l em f :
  exec emailRegex l = Some em -> mailStateOk f ->
  mailStateOk (setField "E-MAIL ADDRESS" (trim (grp 1 em)) f).
Proof.
  intros E [M S]. unfold mailStateOk. rewrite !getField_setField. keq.
  split; [right|exact S].
  apply In_trim_keep; [exact (email_group _ _ E)|reflexivity].
Qed.

Lemma ok_state l mt f :
  exec cityStateRegex l = Some mt -> mailStateOk f ->
  mailStateOk (setField "STATE" (trim (grp 2 mt)) f).
Proof.
  intros E [M S]. unfold mailStateOk. rewrite !getField_setField. keq.
  split; [exact M|right].
  rewrite (stateShape_trim _ (state_group _ _ E)). exact (state_group _ _ E).
Qed.

(** The chain of [let]s of a block, one definition after the other. *)
Ltac peel :=
  lazymatch goal with
  | |- ?P (let x := ?v in @?b x) =>
      let y := fresh x in
      set (y := v); change (P (b y)); cbv beta
  end.

Ltac ok_step :=
  cbv zeta;
  repeat first
    [ assumption
    | match goal with
      | |- mailStateOk (match ?o with _ => _ end) =>
          let E := fresh "E" in destruct o eqn:E
      | E : exec emailRegex _ = Some ?em
        |- mailStateOk (setField "E-MAIL ADDRESS" (trim (grp 1 ?em)) _) =>
          apply (ok_email _ _ _ E)
      | E : exec cityStateRegex _ = Some ?mt
        |- mailStateOk (setField "STATE" (trim (grp 2 ?mt)) _) =>
          apply (ok_state _ _ _ E)
      | |- mailStateOk (setField _ _ _) =>
          apply ok_frame; [reflexivity|reflexivity|]
      end ].

Lemma mail_state_firstLine l f : mailStateOk f -> mailStateOk (firstLineFields l f).
Proof.
  intros H. unfold firstLineFields. repeat peel.
  repeat match goal with
         | x := exec _ _ |- _ => subst x
         end.
  repeat match goal with
         | x := _ : fieldTable |- _ =>
             assert (mailStateOk x) by (unfold x; ok_step); clearbody x
         end.
  ok_step.
Qed.

Lemma invoice_secondLine l f :
  getField "INVOICE NO" f = [] \/ invoiceShape (getField "INVOICE NO" f) ->
  getField "INVOICE NO" (secondLineFields l f) = []
  \/ invoiceShape (getField "INVOICE NO" (secondLineFields l f)).
Proof.
  intros Hf. unfold secondLineFields. cbv zeta. simpl fold_left.
  split_exec; rewrite ?getField_setField; keq; try exact Hf.
  all: right;
    match goal with
    | E : exec invoiceRegex _ = Some ?mt |- invoiceShape (trim (grp 1 ?mt)) =>
        rewrite (invoiceShape_trim _ (invoice_group _ _ E));
        exact (invoice_group _ _ E)
    end.
Qed.

Lemma text_shapes_extracted h text :
  (getField "E-MAIL ADDRESS" (extractedFields h text) = []
   \/ In 64 (getField "E-MAIL ADDRESS" (extractedFields h text)))
  /\ (getField "STATE" (extractedFields h text) = []
      \/ stateShape (getField "STATE" (extractedFields h text)))
  /\ (getField "INVOICE NO" (extractedFields h text) = []
      \/ invoiceShape (getField "INVOICE NO" (extractedFields h text))).
Proof.
  unfold extractedFields. rewrite !frame_derived by reflexivity.
  unfold lineFields. cbv zeta. rewrite !frame_scanFor by reflexivity.
  destruct (cleanLines text) as [|l1 more];
    [repeat split; left; apply getField_emptyFields|].
  assert (O : mailStateOk emptyFields)
    by (split; left; apply getField_emptyFields).
  destruct (mail_state_firstLine l1 emptyFields O) as [M S].
  destruct more as [|l2 [|l3 [|l4 more]]];
    rewrite ?frame_fourthLine, ?frame_thirdLine by reflexivity;
    rewrite ?(frame_secondLine "E-MAIL ADDRESS"), ?(frame_secondLine "STATE")
      by reflexivity;
    rewrite ?(frame_firstLine "INVOICE NO") by reflexivity.
  all: split; [exact M|]; split; [exact S|].
  all: try (left; apply getField_emptyFields).
  all: apply invoice_secondLine; rewrite frame_firstLine by reflexivity;
    left; apply getField_emptyFields.
Qed.

Ltac known_shape tac :=
  let t := fresh "t" in
  let v := fresh "v" in
  intros t v [<-|[<-|[<-|[<-|[]]]]] [= <-]; right; tac.

(** X24: in every record the e-mail address is empty or holds an at sign, the
    state is empty or two upper-case letters, and the invoice number is
    empty or one to three upper-case letters followed by five to seven
    digits. *)
Theorem mail_state_invoice_shapes (host : Host) (text : jsstring) :
  Forall (fun record =>
            (getField "E-MAIL ADDRESS" record = []
             \/ In 64 (getField "E-MAIL ADDRESS" record))
            /\ (getField "STATE" record = []
                \/ stateShape (getField "STATE" record))
            /\ (getField "INVOICE NO" record = []
                \/ invoiceShape (getField "INVOICE NO" record)))
         (recordsOf (parseFormData host text)).
Proof.
  apply records_satisfy. intros t.
  rewrite !get_parseFormRecord; try reflexivity; try (cbn; tauto).
  change (placeholderOf "E-MAIL ADDRESS") with (@None jsstring).
  change (placeholderOf "STATE") with (@None jsstring).
  change (placeholderOf "INVOICE NO") with (@None jsstring). cbv iota.
  destruct (text_shapes_extracted host t) as [M [S V]].
  split; [|split].
  - apply (known_keeps (fun w => w = [] \/ In 64 w)); [exact M|].
    known_shape ltac:(vm_compute; tauto).
  - apply (known_keeps (fun w => w = [] \/ stateShape w)); [exact S|].
    known_shape ltac:(do 2 eexists; repeat split; reflexivity).
  - apply (known_keeps (fun w => w = [] \/ invoiceShape w)); [exact V|].
    known_shape ltac:(
      idtac;
      match goal with
      | |- invoiceShape ?w =>
          first [ exists (firstn 1 w), (skipn 1 w);
                  repeat split; first [reflexivity | vm_compute; lia]
                | exists (firstn 2 w), (skipn 2 w);
                  repeat split; first [reflexivity | vm_compute; lia] ]
      end).
Qed.

(** ** Initials of the customer *)

Lemma name_group s mt :
  exec nameRegex s = Some mt -> exists c t, grp 1 mt = c :: t /\ isUpper c = true.
Proof.
  apply (grp_sound (fun _ w => exists c t, w = c :: t /\ isUpper c = true)
           nameRegex s mt 1%nat); [|reflexivity].
  cbn [body nameRegex groupsSat].
  repeat match goal with |- _ /\ _ => split end; try exact I;
    try (cbv [plus opt chr upper alpha space groupsSat]; tauto).
  intros w H.
  destruct (lang_seq _ _ _ _ H) as [w1 [w2 [-> [H1 _]]]].
  destruct (lang_seq _ _ _ _ H1) as [w3 [w4 [-> [H3 _]]]].
  destruct (lang_seq _ _ _ _ H3) as [w5 [w6 [-> [H5 _]]]].
  destruct (lang_seq _ _ _ _ H5) as [w7 [w8 [-> [H7 _]]]].
  destruct (lang_seq _ _ _ _ H7) as [w9 [w10 [-> [H9 _]]]].
  destruct (lang_seq _ _ _ _ H9) as [w11 [w12 [-> [[c [-> Hc]] _]]]].
  apply upper_test in Hc. exists c. eexists. split; [|exact Hc].
  cbn [app]. reflexivity.
Qed.

Lemma ok_name l mt f :
  exec nameRegex l = Some mt ->
  nameOk (setField "CUSTOMER NAME" (trim (grp 1 mt)) f).
Proof.
  intros E. unfold nameOk. rewrite getField_setField. keq. right.
  destruct (name_group _ _ E) as [c [t [-> Hc]]].
  destruct (trim_cons c t (upper_not_space c Hc)) as [t' ->]. eauto.
Qed.

Lemma ok_name_frame k v f :
  String.eqb "CUSTOMER NAME" k = false -> nameOk f -> nameOk (setField k v f).
Proof. intros H N. unfold nameOk in *. now rewrite getField_setField, H. Qed.

Ltac name_step :=
  cbv zeta;
  repeat first
    [ assumption
    | match goal with
      | |- nameOk (match ?o with _ => _ end) =>
          let E := fresh "E" in destruct o eqn:E
      | E : exec nameRegex _ = Some ?mt
        |- nameOk (setField "CUSTOMER NAME" (trim (grp 1 ?mt)) _) =>
          apply (ok_name _ _ _ E)
      | |- nameOk (setField _ _ _) => apply ok_name_frame; [reflexivity|]
      end ].

Lemma name_firstLine l f : nameOk f -> nameOk (firstLineFields l f).
Proof.
  intros H. unfold firstLineFields. repeat peel.
  repeat match goal with
         | x := exec _ _ |- _ => subst x
         end.
  repeat match goal with
         | x := _ : fieldTable |- _ =>
             assert (nameOk x) by (unfold x; name_step); clearbody x
         end.
  name_step.
Qed.

Lemma name_lineFields h ls : nameOk (lineFields h ls).
Proof.
  unfold nameOk, lineFields. cbv zeta. rewrite !frame_scanFor by reflexivity.
  assert (O : nameOk emptyFields) by (left; apply getField_emptyFields).
  destruct ls as [|l1 [|l2 [|l3 [|l4 more]]]];
    rewrite ?frame_fourthLine, ?frame_thirdLine, ?frame_secondLine by reflexivity;
    first [exact O|exact (name_firstLine l1 emptyFields O)].
Qed.

Lemma upper_alnumDot c : isUpper c = true -> isAlnumDot c = true.
Proof. unfold isAlnumDot, isAlpha. now intros ->. Qed.

Lemma initialOf_truthy c t : isUpper c = true -> truthy (initialOf (c :: t)) = true.
Proof.
  intros Hc. unfold initialOf. cbv zeta. cbn [filter].
  rewrite (upper_alnumDot c Hc).
  set (n := filter isAlnumDot t). cbn [length Nat.eqb].
  repeat match goal with |- context [if ?b then _ else _] => destruct b end;
    reflexivity.
Qed.

Lemma splitWs_head b c t :
  isSpace c = false -> exists p ps, splitWs b (c :: t) = (c :: p) :: ps.
Proof.
  intros Hc. cbn [splitWs]. rewrite Hc.
  destruct (splitWs false t) as [|cur more]; eauto.
Qed.

Lemma truthy_concat_head (p : jsstring) ps :
  truthy p = true -> truthy (concat (p :: ps)) = true.
Proof. destruct p; [discriminate|reflexivity]. Qed.

(** A name that starts with an upper-case letter has initials. *)
Lemma generateInitials_truthy c t :
  isUpper c = true -> truthy (generateInitials (c :: t)) = true.
Proof.
  intros Hc. pose proof (upper_not_space c Hc) as Hs.
  destruct (trim_cons c t Hs) as [t' Ht].
  assert (P : exists p ps, nameParts (c :: t) = (c :: p) :: ps).
  { unfold nameParts. rewrite Ht.
    destruct (splitWs_head false c t' Hs) as [p [ps ->]].
    cbn [filter truthy]. eauto. }
  destruct P as [p [ps P]].
  destruct (generateInitials_concat (c :: t)) as [G|[d [_ G]]];
    [rewrite P; discriminate| |].
  - rewrite G, P. cbn [map]. apply truthy_concat_head.
    now apply initialOf_truthy.
  - rewrite G. reflexivity.
Qed.

Lemma initials_derived h f :
  getField "INITIALS" (derivedFields h f)
  = if truthy (getField "CUSTOMER NAME" f) && negb (truthy (getField "INITIALS" f))
    then generateInitials (getField "CUSTOMER NAME" f)
    else getField "INITIALS" f.
Proof.
  unfold derivedFields. cbv zeta.
  assert (N : forall v g, getField "CUSTOMER NAME" (setField "TOTAL AMOUNT" v g)
                          = getField "CUSTOMER NAME" g)
    by (intros; now rewrite getField_setField).
  assert (J : forall v g, getField "INITIALS" (setField "TOTAL AMOUNT" v g)
                          = getField "INITIALS" g)
    by (intros; now rewrite getField_setField).
  destruct (truthy (getField "BASIC AMOUNT" f) && _ && _);
    rewrite ?N, ?J;
    destruct (truthy (getField "CUSTOMER NAME" f) && _);
    destruct (truthy (getField "SALES DATE" _));
    rewrite ?getField_setField; keq; rewrite ?J; reflexivity.
Qed.

(** X25: when the first line gives a customer name and no initials, the INITIALS
    of the record are the initials [generateInitials] makes of the record's
    CUSTOMER NAME; no table value or placeholder takes their place. *)
Theorem initials_follow_the_name (host : Host) (text : jsstring) :
  truthy (getField "CUSTOMER NAME" (lineFields host (cleanLines text))) = true ->
  getField "INITIALS" (lineFields host (cleanLines text)) = [] ->
  getField "INITIALS" (parseFormRecord host text)
  = generateInitials (getField "CUSTOMER NAME" (parseFormRecord host text))
  /\ truthy (getField "INITIALS" (parseFormRecord host text)) = true.
Proof.
  intros Hn Hi.
  assert (En : getField "CUSTOMER NAME" (extractedFields host text)
               = getField "CUSTOMER NAME" (lineFields host (cleanLines text)))
    by (unfold extractedFields; now rewrite frame_derived).
  assert (Ei : getField "INITIALS" (extractedFields host text)
               = generateInitials
                   (getField "CUSTOMER NAME" (lineFields host (cleanLines text)))).
  { unfold extractedFields. rewrite initials_derived, Hn, Hi. reflexivity. }
  assert (T : truthy (generateInitials
                 (getField "CUSTOMER NAME" (lineFields host (cleanLines text))))
              = true).
  { destruct (name_lineFields host (cleanLines text)) as [E|[c [t [E Hc]]]];
      [rewrite E in Hn; discriminate|].
    rewrite E. now apply generateInitials_truthy. }
  rewrite (truthy_after_extraction host text "CUSTOMER NAME")
    by (rewrite En; exact Hn).
  rewrite (truthy_after_extraction host text "INITIALS")
    by (rewrite Ei; exact T).
  rewrite Ei, En. split; [reflexivity|exact T].
Qed.

Lemma initials_follow_the_name_witness :
  truthy (getField "CUSTOMER NAME"
            (lineFields plainHost (cleanLines (str "reid@mail.com Reid Ronald"))))
  = true
  /\ getField "INITIALS"
       (lineFields plainHost (cleanLines (str "reid@mail.com Reid Ronald"))) = []
  /\ getField "INITIALS" (parseFormRecord plainHost (str "reid@mail.com Reid Ronald"))
     = generateInitials
         (getField "CUSTOMER NAME"
            (parseFormRecord plainHost (str "reid@mail.com Reid Ronald")))
  /\ getField "INITIALS" (parseFormRecord plainHost (str "reid@mail.com Reid Ronald"))
     = str "R.R.".
Proof.
  assert (H1 : truthy (getField "CUSTOMER NAME"
                 (lineFields plainHost
                    (cleanLines (str "reid@mail.com Reid Ronald")))) = true)
    by (vm_compute; reflexivity).
  assert (H2 : getField "INITIALS"
                 (lineFields plainHost
                    (cleanLines (str "reid@mail.com Reid Ronald"))) = [])
    by (vm_compute; reflexivity).
  split; [exact H1|]. split; [exact H2|].
  split; [|vm_compute; reflexivity].
  exact (proj1 (initials_follow_the_name plainHost
                  (str "reid@mail.com Reid Ronald") H1 H2)).
Defined.

(** *** Month and year *)

Ltac month_year_shape :=
  repeat match goal with
         | |- context [capitalize ?w] => closed_value (capitalize w)
         | |- context [str ?w] =>
             lazymatch w with
             | "/15/"%string => fail
             | _ => closed_value (str w)
             end
         end;
  cbv iota; cbn [app];
  lazymatch goal with
  | |- Client.formatDate ?s = _ /\ formatDate ?s = _ =>
      let s0 := shape_of s in
      assert (TS : tidy s = true)
        by (rewrite (tidy_shape s s0 ltac:(kind_list)); vm_compute; reflexivity);
      unfold formatDate, Client.formatDate;
      rewrite (tidy_not_blank _ _ TS); cbv zeta;
      rewrite (tidy_clean _ TS);
      unfold textDate, usDate, euDate, monthYearDate;
      by_shape textDateRegex s s0 respects_textDate;
      by_shape usDateRegex s s0 respects_usDate;
      by_shape euDateRegex s s0 respects_euDate;
      by_shape monthYearRegex s s0 respects_monthYear;
      unfold grp;
      cbn [groups lookupGroup Nat.eqb denoteMatch denoteCap segment map firstn
           skipn length fst snd pindex pspan pgroups Nat.sub];
      match goal with
      | |- context [findMonth ?x] => closed_value (findMonth x)
      end;
      cbv iota;
      rewrite !parseInt_digits by first [discriminate|all_digits];
      cbn [firstOf]; split; reflexivity
  end.

(** A month name and a year, with the template of the code. *)
Lemma month_year_shapes (i : nat) (names : list jsstring)
  (name y : jsstring) (capital : bool) :
  nth_error monthNames i = Some names -> In name names -> digitGroup 2 4 y ->
  Client.formatDate ((if capital then capitalize name else name) ++ 32 :: y)
  = midMonthText (N.of_nat i + 1) y
  /\ formatDate ((if capital then capitalize name else name) ++ 32 :: y)
     = (if capital then capitalize name else name) ++ 32 :: y.
Proof.
  intros Hn Hin Hy. unfold midMonthText.
  split_group Hy.
  destruct y as [|f [|g [|h [|j [|? ?]]]]]; cbn [length] in *; try lia.
  all: digits_hyps F.
  all: unfold monthNames in Hn.
  all: month_cases i Hn Hin.
  all: repeat (destruct Hin as [<-|Hin]); try contradiction.
  all: destruct capital.
  all: closed_value (N.of_nat _ + 1) || idtac.
  all: month_year_shape.
Qed.

(** X26: a month name of the table and a year of two digits or of four
    digits not starting with a zero, with one blank in between: the
    client's copy gives MM/15/YYYY, where MM is the numeral of the row of
    the name and YYYY the year, a year of two digits with "20" in front when
    below 50 and "19" otherwise; the server's copy, which has no such form,
    returns the input as it is. *)
Theorem month_year_only_on_the_client (i : nat) (names : list jsstring)
  (name y : jsstring) (capital : bool) :
  nth_error monthNames i = Some names -> In name names -> plainYear y ->
  Client.formatDate ((if capital then capitalize name else name) ++ 32 :: y)
  = mmddyyyy (nth i monthNumerals []) (str "15") y
  /\ canonical (mmddyyyy (nth i monthNumerals []) (str "15") y)
  /\ formatDate ((if capital then capitalize name else name) ++ 32 :: y)
     = (if capital then capitalize name else name) ++ 32 :: y.
Proof.
  intros Hn Hin Hy.
  pose proof (month_row_bound i names Hn) as Hi.
  destruct (month_year_shapes i names name y capital Hn Hin
              (plainYear_group y Hy)) as [C S].
  rewrite C, (midMonthText_written i y Hi Hy).
  split; [reflexivity|]. split; [|exact S].
  apply mmddyyyy_canonical;
    [exact (proj2 (month_numeral i Hi))|exact fifteen_group|exact Hy].
Qed.

Lemma month_year_june :
  Client.formatDate (str "June 07") = str "06/15/2007"
  /\ formatDate (str "June 07") = str "June 07"
  /\ Client.formatDate (str "dec 1999") = str "12/15/1999".
Proof.
  assert (H1 : nth_error monthNames 5 = Some [str "june"; str "jun"])
    by reflexivity.
  assert (H2 : In (str "june") [str "june"; str "jun"]) by (left; reflexivity).
  assert (H3 : plainYear (str "07")) by (split; [reflexivity|now left]).
  assert (K1 : nth_error monthNames 11 = Some [str "december"; str "dec"])
    by reflexivity.
  assert (K2 : In (str "dec") [str "december"; str "dec"])
    by (right; left; reflexivity).
  assert (K3 : plainYear (str "1999"))
    by (split; [reflexivity|right; split; [reflexivity|discriminate]]).
  destruct (month_year_only_on_the_client 5 [str "june"; str "jun"] (str "june")
              (str "07") true H1 H2 H3) as [C [_ S]].
  destruct (month_year_only_on_the_client 11 [str "december"; str "dec"]
              (str "dec") (str "1999") false K1 K2 K3) as [D _].
  split; [exact C|]. split; [exact S|exact D].
Defined.

(** ** Ports *)

Lemma startServer_first_free inUse :
  startServer 7 inUse PRIMARY_PORT
  = match find (fun port => negb (inUse port)) (PRIMARY_PORT :: FALLBACK_PORTS) with
    | Some port => Listening port
    | None => AllInUse
    end.
Proof.
  vm_compute.
  repeat match goal with
         | |- context [inUse ?p] => destruct (inUse p)
         end; reflexivity.
Qed.

Lemma startServer_more_fuel fuel inUse port result :
  startServer fuel inUse port = result -> result <> StillTrying ->
  startServer (S fuel) inUse port = result.
Proof.
  revert port. induction fuel as [|fuel IH]; intros port H Hr;
    [cbn in H; congruence|].
  cbn [startServer] in H. change (startServer (S (S fuel)) inUse port)
    with (if inUse port then
            let nextPortIndex := (arrayIndexOf FALLBACK_PORTS port + 1)%Z in
            if ((0 <? nextPortIndex)%Z
                && (nextPortIndex <? Z.of_nat (length FALLBACK_PORTS))%Z)
            then startServer (S fuel) inUse
                   (nth (Z.to_nat nextPortIndex) FALLBACK_PORTS 0)
            else if port =? PRIMARY_PORT
                 then startServer (S fuel) inUse (nth 0 FALLBACK_PORTS 0)
                 else AllInUse
          else Listening port).
  cbv zeta in *. destruct (inUse port); [|exact H].
  destruct (_ && _); [now apply IH|].
  destruct (port =? PRIMARY_PORT); [now apply IH|exact H].
Qed.

(** X27: whatever ports are taken, the server start ends within seven
    attempts: it listens on the first free port of 5050, 5051, 5052, 5053,
    5054, 5060, 6000, in this order, and reports that all ports are in use
    only when all seven are; more attempts change nothing. *)
Theorem server_listens_on_first_free_port (inUse : N -> bool) :
  startServer 7 inUse PRIMARY_PORT
  = match find (fun port => negb (inUse port)) (PRIMARY_PORT :: FALLBACK_PORTS) with
    | Some port => Listening port
    | None => AllInUse
    end
  /\ startServer 7 inUse PRIMARY_PORT <> StillTrying
  /\ startServer 8 inUse PRIMARY_PORT = startServer 7 inUse PRIMARY_PORT.
Proof.
  assert (N : startServer 7 inUse PRIMARY_PORT <> StillTrying).
  { rewrite startServer_first_free. destruct (find _ _); discriminate. }
  split; [apply startServer_first_free|]. split; [exact N|].
  now apply startServer_more_fuel.
Qed.

Lemma find_unique (answers : N -> bool) ports port :
  In port ports -> (forall q, answers q = (q =? port)) ->
  find answers ports = Some port.
Proof.
  intros Hin Ha. induction ports as [|q ports IH]; [destruct Hin|].
  cbn [find]. rewrite Ha. destruct (N.eqb_spec q port) as [->|Hne]; [reflexivity|].
  destruct Hin as [E|Hin]; [congruence|now apply IH].
Qed.

(** X28: the client probes the very ports the server may listen on, in the
    same order.  When the server has come to listen on a port and that port
    is the only one to answer the ping, the client detects this port and
    caches it, and every later call returns the cached port without
    probing. *)
Theorem client_finds_the_server (inUse answers : N -> bool) (port : N) :
  startServer 7 inUse PRIMARY_PORT = Listening port ->
  (forall q, answers q = (q =? port)) ->
  SERVER_PORTS = PRIMARY_PORT :: FALLBACK_PORTS
  /\ detectServerPort None answers = (port, Some port)
  /\ (forall later, detectServerPort (Some port) later = (port, Some port)).
Proof.
  intros Hs Ha. split; [reflexivity|].
  rewrite startServer_first_free in Hs.
  destruct (find _ (PRIMARY_PORT :: FALLBACK_PORTS)) as [p|] eqn:F;
    [|discriminate].
  injection Hs as ->. apply find_some in F. destruct F as [Hin _].
  change (PRIMARY_PORT :: FALLBACK_PORTS) with SERVER_PORTS in Hin.
  split.
  - unfold detectServerPort. cbv zeta.
    now rewrite (find_unique answers SERVER_PORTS port Hin Ha).
  - intros later. unfold detectServerPort. cbv zeta.
    assert (Z : (port =? 0) = false).
    { unfold SERVER_PORTS in Hin. cbn [In] in Hin.
      repeat (destruct Hin as [<-|Hin]; [reflexivity|]). destruct Hin. }
    now rewrite Z.
Qed.

Lemma client_finds_the_server_witness :
  startServer 7 (fun q => (q =? 5050) || (q =? 5051)) PRIMARY_PORT = Listening 5052
  /\ detectServerPort None (fun q => q =? 5052) = (5052, Some 5052).
Proof.
  assert (H : startServer 7 (fun q => (q =? 5050) || (q =? 5051)) PRIMARY_PORT
              = Listening 5052) by reflexivity.
  split; [exact H|].
  exact (proj1 (proj2 (client_finds_the_server
                         (fun q => (q =? 5050) || (q =? 5051))
                         (fun q => q =? 5052) 5052 H (fun q => eq_refl)))).
Defined.
